(** * lambda_function.py: the request adapter of finetunning_with_aws

    A shallow embedding of [src/lambda_function.py] (the AWS Lambda handler
    that forwards a prompt to a SageMaker endpoint and logs the outcome to
    DynamoDB) and the properties its specification states about it.

    Layout:
    - [PyStr]      Python [str] as code points, [bytes], UTF-8, [str.strip],
                   integer and string [repr];
    - [PyValue]    the JSON-shaped Python values an event is made of,
                   exceptions, [str(value)];
    - [Base64]     [base64.b64decode] (and [b64encode], for the test vectors);
    - [Json]       [json.loads] and [json.dumps];
    - [Effects]    the clock, the SageMaker runtime and the DynamoDB table as
                   an environment, and the state-and-exception monad the
                   handler runs in;
    - [Handler]    [safe_json], [try_parse_json], [_parse_body],
                   [lambda_handler], line by line;
    - the theorems. *)

From Stdlib Require Import List NArith ZArith QArith Bool Ascii String Lia.
Import ListNotations.
Close Scope Q_scope.

Set Warnings "-register-all".

(* ------------------------------------------------------------------------- *)
(** ** Python strings and bytes *)

Module PyStr.

(** A Python [str] is a sequence of Unicode code points (slicing and [len]
    count code points); [bytes] is a sequence of octets. *)
Definition codepoint := N.
Definition str := list codepoint.
Definition bytes := list N.

(** A Rocq string literal read as a Python [str] (one code point per
    character; such literals are ASCII here). *)
Definition lit (s : string) : str :=
  List.map N_of_ascii (list_ascii_of_string s).

(** The double quote, which a literal cannot hold. *)
Definition dquote : codepoint := 34%N.

Fixpoint str_eqb (a b : str) : bool :=
  match a, b with
  | [], [] => true
  | x :: a', y :: b' => N.eqb x y && str_eqb a' b'
  | _, _ => false
  end.

(** [s[:n]] for a non-negative constant [n]. *)
Definition slice_to (n : nat) (s : str) : str := firstn n s.

(** [Py_UNICODE_ISSPACE]: the code points [str.strip()] removes. *)
Definition isspace (c : codepoint) : bool :=
  ((9 <=? c) && (c <=? 13) || (28 <=? c) && (c <=? 32)
   || (c =? 133) || (c =? 160) || (c =? 5760)
   || (8192 <=? c) && (c <=? 8202)
   || (c =? 8232) || (c =? 8233) || (c =? 8239) || (c =? 8287)
   || (c =? 12288))%N.

Fixpoint lstrip (s : str) : str :=
  match s with
  | c :: s' => if isspace c then lstrip s' else s
  | [] => []
  end.

Definition rstrip (s : str) : str := rev (lstrip (rev s)).

(** [s.strip()] *)
Definition strip (s : str) : str := rstrip (lstrip s).

(** Truth value of a [str]: non-empty. *)
Definition str_truthy (s : str) : bool :=
  match s with [] => false | _ :: _ => true end.

(** Decimal digits of a natural number, most significant first. *)
Fixpoint digits_of_pos (fuel : nat) (n : N) (acc : str) : str :=
  match fuel with
  | O => acc
  | S fuel' =>
      let acc' := (48 + n mod 10)%N :: acc in
      if (n <? 10)%N then acc' else digits_of_pos fuel' (n / 10)%N acc'
  end.

Definition repr_N (n : N) : str := digits_of_pos (S (N.to_nat (N.log2 n))) n [].

(** [repr] of an [int] (also [str] and the f-string form of an [int]). *)
Definition repr_int (z : Z) : str :=
  match z with
  | Z0 => [48%N]
  | Zpos p => repr_N (Npos p)
  | Zneg p => 45%N :: repr_N (Npos p)
  end.

Definition hex_digit (n : N) : codepoint :=
  (if n <? 10 then 48 + n else 87 + n)%N.

(** [width] lowercase hexadecimal digits of [n], as [format(n, '0{width}x')]
    gives them when [n] fits. *)
Fixpoint hex_fixed (width : nat) (n : N) : str :=
  match width with
  | O => []
  | S w => hex_fixed w (n / 16)%N ++ [hex_digit (n mod 16)%N]
  end.

(** The two halves of a surrogate pair. *)
Definition is_high_surrogate (c : codepoint) : bool :=
  ((55296 <=? c) && (c <=? 56319))%N.

Definition is_low_surrogate (c : codepoint) : bool :=
  ((56320 <=? c) && (c <=? 57343))%N.

(** The texts [json.dumps] and [json.loads] carry unchanged: code points up
    to U+10FFFF, and no high surrogate directly followed by a low one (two
    such code points side by side, and not one character above U+FFFF, is
    something no decoder produces). *)
Fixpoint well_formed (s : str) : bool :=
  match s with
  | [] => true
  | c :: s' =>
      (c <? 1114112)%N
      && negb (is_high_surrogate c
               && match s' with
                  | c' :: _ => is_low_surrogate c'
                  | [] => false
                  end)
      && well_formed s'
  end.

(** [s.encode("utf-8")]: [None] stands for the [UnicodeEncodeError] a
    surrogate code point raises. *)
Definition utf8_encode_cp (c : codepoint) : option bytes :=
  (if c <? 128 then Some [c]
   else if c <? 2048 then Some [192 + c / 64; 128 + c mod 64]
   else if (55296 <=? c) && (c <=? 57343) then None
   else if c <? 65536 then
     Some [224 + c / 4096; 128 + (c / 64) mod 64; 128 + c mod 64]
   else
     Some [240 + c / 262144; 128 + (c / 4096) mod 64;
           128 + (c / 64) mod 64; 128 + c mod 64])%N.

Fixpoint utf8_encode (s : str) : option bytes :=
  match s with
  | [] => Some []
  | c :: s' =>
      match utf8_encode_cp c, utf8_encode s' with
      | Some b, Some bs => Some (b ++ bs)
      | _, _ => None
      end
  end.

Definition is_cont (b : N) : bool := ((128 <=? b) && (b <=? 191))%N.

Definition replacement : codepoint := 65533%N.

(** [b.decode("utf-8", errors="replace")]: CPython's decoder; every maximal
    ill-formed prefix becomes one U+FFFD and decoding resumes after it.  The
    second byte of a three- or four-byte sequence has a range of its own
    after E0, ED, F0 and F4 (no overlong form, no surrogate, nothing above
    U+10FFFF). *)
Fixpoint utf8_decode_replace (b : bytes) : str :=
  match b with
  | [] => []
  | b0 :: r0 =>
      (if b0 <? 128 then b0 :: utf8_decode_replace r0
       else if (194 <=? b0) && (b0 <=? 223) then
         match r0 with
         | b1 :: r1 =>
             if is_cont b1
             then ((b0 - 192) * 64 + (b1 - 128)) :: utf8_decode_replace r1
             else replacement :: utf8_decode_replace r0
         | [] => [replacement]
         end
       else if (224 <=? b0) && (b0 <=? 239) then
         match r0 with
         | b1 :: r1 =>
             let lo := if b0 =? 224 then 160 else 128 in
             let hi := if b0 =? 237 then 159 else 191 in
             if (lo <=? b1) && (b1 <=? hi) then
               match r1 with
               | b2 :: r2 =>
                   if is_cont b2
                   then ((b0 - 224) * 4096 + (b1 - 128) * 64 + (b2 - 128))
                        :: utf8_decode_replace r2
                   else replacement :: utf8_decode_replace r1
               | [] => [replacement]
               end
             else replacement :: utf8_decode_replace r0
         | [] => [replacement]
         end
       else if (240 <=? b0) && (b0 <=? 244) then
         match r0 with
         | b1 :: r1 =>
             let lo := if b0 =? 240 then 144 else 128 in
             let hi := if b0 =? 244 then 143 else 191 in
             if (lo <=? b1) && (b1 <=? hi) then
               match r1 with
               | b2 :: r2 =>
                   if is_cont b2 then
                     match r2 with
                     | b3 :: r3 =>
                         if is_cont b3
                         then ((b0 - 240) * 262144 + (b1 - 128) * 4096
                               + (b2 - 128) * 64 + (b3 - 128))
                              :: utf8_decode_replace r3
                         else replacement :: utf8_decode_replace r2
                     | [] => [replacement]
                     end
                   else replacement :: utf8_decode_replace r1
               | [] => [replacement]
               end
             else replacement :: utf8_decode_replace r0
         | [] => [replacement]
         end
       else replacement :: utf8_decode_replace r0)%N
  end.

End PyStr.
Import PyStr.

(* ------------------------------------------------------------------------- *)
(** ** Python values and exceptions *)

Module PyValue.

(** The values an event, a parsed body or a model response is made of: what
    [json.loads] builds.  A [dict] keeps its insertion order and has [str]
    keys; a [float] is carried by the text [repr] prints for it (["0.9"],
    ["1e+16"], ["nan"], ["inf"], ["-inf"]), the only thing this program
    does with one. *)
Inductive value : Type :=
| VNone
| VBool (b : bool)
| VInt (z : Z)
| VFloat (r : str)
| VStr (s : str)
| VList (l : list value)
| VDict (d : list (str * value)).

(** An exception instance: its class and what [str(e)] gives.  Every
    exception of the model is an [Exception] (the clients raise botocore's,
    the library calls raise [ValueError]s and the like), which is what
    [except Exception] catches. *)
Record exn : Type := Exn { exn_class : string; exn_str : str }.

(** The outcome of a call that may raise. *)
Inductive result (A : Type) : Type :=
| Ok (a : A)
| Raise (e : exn).
Arguments Ok {A} a.
Arguments Raise {A} e.

Definition isinstance_str (v : value) : bool :=
  match v with VStr _ => true | _ => false end.

Definition isinstance_dict (v : value) : bool :=
  match v with VDict _ => true | _ => false end.

(** [v is True]: [True] is a singleton, so identity is being that [bool]. *)
Definition is_True (v : value) : bool :=
  match v with VBool true => true | _ => false end.

(** [type(v).__name__] *)
Definition type_name (v : value) : str :=
  match v with
  | VNone => lit "NoneType"
  | VBool _ => lit "bool"
  | VInt _ => lit "int"
  | VFloat _ => lit "float"
  | VStr _ => lit "str"
  | VList _ => lit "list"
  | VDict _ => lit "dict"
  end.

(** [d[k]] as an option, [k in d] and [d[k] = v] on an insertion-ordered
    dict. *)
Fixpoint dict_lookup (k : str) (d : list (str * value)) : option value :=
  match d with
  | [] => None
  | (k', v) :: d' => if str_eqb k k' then Some v else dict_lookup k d'
  end.

Definition dict_contains (k : str) (d : list (str * value)) : bool :=
  match dict_lookup k d with Some _ => true | None => false end.

Fixpoint dict_set (k : str) (v : value) (d : list (str * value))
  : list (str * value) :=
  match d with
  | [] => [(k, v)]
  | (k', v') :: d' =>
      if str_eqb k k' then (k', v) :: d' else (k', v') :: dict_set k v d'
  end.

(** [d.get(k)] is [d.get(k, None)]. *)
Definition dict_get (k : str) (default : value) (d : list (str * value))
  : value :=
  match dict_lookup k d with Some v => v | None => default end.

(** [v.get(k, default)] on any value: only a [dict] has the method. *)
Definition py_get (v : value) (k : str) (default : value) : result value :=
  match v with
  | VDict d => Ok (dict_get k default d)
  | _ =>
      Raise (Exn "AttributeError"
               (lit "'" ++ type_name v
                  ++ lit "' object has no attribute 'get'"))
  end.

(** [sep.join(l)] *)
Fixpoint join (sep : str) (l : list str) : str :=
  match l with
  | [] => []
  | [s] => s
  | s :: l' => s ++ sep ++ join sep l'
  end.

Section Repr.

(** [str.isprintable] above ASCII is a table of the interpreter's Unicode
    database; it is a parameter of [repr]. *)
Variable unicode_isprintable : codepoint -> bool.

Definition repr_char (quote c : codepoint) : str :=
  (if (c =? quote) || (c =? 92) then [92; c]
   else if c =? 9 then lit "\t"
   else if c =? 10 then lit "\n"
   else if c =? 13 then lit "\r"
   else if (c <? 32) || (c =? 127) then lit "\x" ++ hex_fixed 2 c
   else if c <? 127 then [c]
   else if unicode_isprintable c then [c]
   else if c <=? 255 then lit "\x" ++ hex_fixed 2 c
   else if c <=? 65535 then lit "\u" ++ hex_fixed 4 c
   else lit "\U" ++ hex_fixed 8 c)%N.

(** [repr] of a [str]: single quotes, unless the text has a single quote and
    no double quote. *)
Definition repr_str (s : str) : str :=
  let quote :=
    if existsb (N.eqb 39) s && negb (existsb (N.eqb 34) s)
    then 34%N else 39%N in
  quote :: flat_map (repr_char quote) s ++ [quote].

Fixpoint repr (v : value) : str :=
  match v with
  | VNone => lit "None"
  | VBool true => lit "True"
  | VBool false => lit "False"
  | VInt z => repr_int z
  | VFloat r => r
  | VStr s => repr_str s
  | VList l => lit "[" ++ join (lit ", ") (List.map repr l) ++ lit "]"
  | VDict d =>
      lit "{"
      ++ join (lit ", ")
           (List.map (fun kv => repr_str (fst kv) ++ lit ": " ++ repr (snd kv))
              d)
      ++ lit "}"
  end.

(** [str(v)]: the text itself for a [str], [repr] for the rest. *)
Definition py_str (v : value) : str :=
  match v with
  | VStr s => s
  | _ => repr v
  end.

End Repr.

(** *** The limits of the interpreter *)

(** An [int] is converted to or from decimal text only up to
    [sys.int_info.default_max_str_digits] digits, the sign not counted; past
    these the conversion raises [ValueError]. *)
Definition int_max_str_digits : nat := 4300.

(** The decimal digits of an [int]. *)
Definition digits (z : Z) : nat := List.length (repr_N (Z.abs_N z)).

(** [str(n)] of an [int] of too many digits, and [int(text)] on too many
    digits, [count] of them. *)
Definition int_to_str_error : exn :=
  Exn "ValueError"
    (lit "Exceeds the limit (4300 digits) for integer string conversion; use sys.set_int_max_str_digits() to increase the limit").

Definition str_to_int_error (count : nat) : exn :=
  Exn "ValueError"
    (lit "Exceeds the limit (4300 digits) for integer string conversion: value has "
       ++ repr_int (Z.of_nat count)
       ++ lit " digits; use sys.set_int_max_str_digits() to increase the limit").

(** The [RecursionError] of a computation nested too deep, [doing] what. *)
Definition RecursionError (doing : string) : exn :=
  Exn "RecursionError" (lit "maximum recursion depth exceeded " ++ lit doing).

(** CPython keeps one counter for the frames of the Python functions that
    are running and for the lists and dicts that the JSON scanner, the JSON
    encoder or [repr] is inside of, and raises [RecursionError] when the
    counter reaches [sys.getrecursionlimit()].  What is left of it where
    [lambda_handler] runs depends on who called it; it is a parameter of
    the program.  [headroom] counts the lists and dicts, beyond a first
    one, that [json.loads] and [json.dumps] may be inside of when a
    function that [lambda_handler] calls calls them (an invocation so close
    to the limit that the handler's own calls fail, or that a JSON text of
    one level cannot be read, is outside the model).  [repr_overflows]
    tells of a value whether [str] of it, called at line 11, reaches the
    limit: [repr] counts differently from the encoder, by a few levels. *)
Class Limits : Type := {
  headroom : nat;
  repr_overflows : value -> bool
}.

Section Depth.

Context {limits : Limits}.

(** The nesting allowed to [json.loads] and [json.dumps] one frame below
    [lambda_handler] (lines 9, 15 and 41), and in [lambda_handler] itself
    (lines 58, 82, 102 and 120), one frame closer to the surface. *)
Definition depth_in_callee : nat := S headroom.
Definition depth_in_handler : nat := S depth_in_callee.

End Depth.

(** A value that holds no [int] of too many digits and whose lists and
    dicts are nested at most [depth] deep: what [json.loads] can build and
    [json.dumps] can write with [depth] levels left. *)
Fixpoint within (depth : nat) (v : value) {struct v} : bool :=
  match v with
  | VInt z => (digits z <=? int_max_str_digits)%nat
  | VList l =>
      match depth with
      | O => false
      | S depth' => forallb (within depth') l
      end
  | VDict d =>
      match depth with
      | O => false
      | S depth' => forallb (fun kv => within depth' (snd kv)) d
      end
  | VNone | VBool _ | VFloat _ | VStr _ => true
  end.

(** No [int] of too many digits anywhere in the value. *)
Fixpoint ints_within (v : value) : bool :=
  match v with
  | VInt z => (digits z <=? int_max_str_digits)%nat
  | VList l => forallb ints_within l
  | VDict d => forallb (fun kv => ints_within (snd kv)) d
  | VNone | VBool _ | VFloat _ | VStr _ => true
  end.

End PyValue.
Import PyValue.

(* ------------------------------------------------------------------------- *)
(** ** base64 *)

Module Base64.

(** The value of a character of the standard alphabet. *)
Definition b64_value (c : N) : option N :=
  (if (65 <=? c) && (c <=? 90) then Some (c - 65)
   else if (97 <=? c) && (c <=? 122) then Some (c - 71)
   else if (48 <=? c) && (c <=? 57) then Some (c + 4)
   else if c =? 43 then Some 62
   else if c =? 47 then Some 63
   else None)%N.

(** [binascii.a2b_base64] without strict mode: characters outside the
    alphabet are skipped; a pad that completes a quad ends the input; what
    is left of an unfinished quad at the end is an error.  [quad_pos] counts
    the characters of the current quad, [leftchar] holds its pending bits,
    [pads] the pads seen since the last character, [acc] the output so far,
    reversed. *)
Fixpoint a2b_base64 (s : list N) (quad_pos : nat) (leftchar : N) (pads : nat)
    (acc : bytes) : result bytes :=
  match s with
  | [] =>
      match quad_pos with
      | 0 => Ok (rev acc)
      | 1 =>
          Raise (Exn "binascii.Error"
                   (lit "Invalid base64-encoded string: number of data characters ("
                      ++ repr_int (Z.of_nat (List.length acc / 3 * 4 + 1))
                      ++ lit ") cannot be 1 more than a multiple of 4"))
      | _ => Raise (Exn "binascii.Error" (lit "Incorrect padding"))
      end
  | c :: s' =>
      if (c =? 61)%N then
        if (2 <=? quad_pos)%nat then
          if (4 <=? quad_pos + S pads)%nat then Ok (rev acc)
          else a2b_base64 s' quad_pos leftchar (S pads) acc
        else a2b_base64 s' quad_pos leftchar pads acc
      else
        match b64_value c with
        | None => a2b_base64 s' quad_pos leftchar pads acc
        | Some v =>
            match quad_pos with
            | 0 => a2b_base64 s' 1 v 0 acc
            | 1 => a2b_base64 s' 2 (v mod 16)%N 0
                     ((leftchar * 4 + v / 16)%N :: acc)
            | 2 => a2b_base64 s' 3 (v mod 4)%N 0
                     ((leftchar * 16 + v / 4)%N :: acc)
            | _ => a2b_base64 s' 0 0%N 0 ((leftchar * 64 + v)%N :: acc)
            end
        end
  end.

(** [base64.b64decode(s)] on a [str]: the text is first encoded as ASCII. *)
Definition b64decode (s : str) : result bytes :=
  if forallb (fun c => (c <? 128)%N) s
  then a2b_base64 s 0 0%N 0 []
  else Raise (Exn "ValueError"
                (lit "string argument should contain only ASCII characters")).

Definition b64_char (v : N) : N :=
  (if v <? 26 then 65 + v
   else if v <? 52 then 71 + v
   else if v <? 62 then v - 4
   else if v =? 62 then 43 else 47)%N.

(** [base64.b64encode(b).decode()]: the sender's side, used to build the
    proxied envelope of the spec's round trip. *)
Fixpoint b64encode (b : bytes) : str :=
  match b with
  | [] => []
  | [x] => [b64_char (x / 4); b64_char ((x mod 4) * 16); 61; 61]%N
  | [x; y] =>
      [b64_char (x / 4); b64_char ((x mod 4) * 16 + y / 16);
       b64_char ((y mod 16) * 4); 61]%N
  | x :: y :: z :: b' =>
      [b64_char (x / 4); b64_char ((x mod 4) * 16 + y / 16);
       b64_char ((y mod 16) * 4 + z / 64); b64_char (z mod 64)]%N
      ++ b64encode b'
  end.

End Base64.
Import Base64.

(* ------------------------------------------------------------------------- *)
(** ** json *)

Module Json.

(** *** json.dumps *)

(** One character of a JSON string, as [json.dumps] escapes it: the short
    escapes, [\u00XX] for the other control characters and, under
    [ensure_ascii] (the default), [\uXXXX] for everything outside
    space..tilde, with a surrogate pair above U+FFFF. *)
Definition escape_char (ensure_ascii : bool) (c : codepoint) : str :=
  (if c =? 34 then [92; 34]
   else if c =? 92 then [92; 92]
   else if c =? 10 then lit "\n"
   else if c =? 13 then lit "\r"
   else if c =? 9 then lit "\t"
   else if c =? 8 then lit "\b"
   else if c =? 12 then lit "\f"
   else if c <? 32 then lit "\u" ++ hex_fixed 4 c
   else if negb ensure_ascii then [c]
   else if c <? 127 then [c]
   else if c <? 65536 then lit "\u" ++ hex_fixed 4 c
   else
     let v := c - 65536 in
     lit "\u" ++ hex_fixed 4 (55296 + v / 1024)
       ++ lit "\u" ++ hex_fixed 4 (56320 + v mod 1024))%N.

Definition encode_str (ensure_ascii : bool) (s : str) : str :=
  dquote :: flat_map (escape_char ensure_ascii) s ++ [dquote].

(** A [float] prints as its [repr], the three non-finite ones by name. *)
Definition encode_float (r : str) : str :=
  if str_eqb r (lit "nan") then lit "NaN"
  else if str_eqb r (lit "inf") then lit "Infinity"
  else if str_eqb r (lit "-inf") then lit "-Infinity"
  else r.

(** The encoder with the default separators [", "] and [": "]. *)
Fixpoint encode (ensure_ascii : bool) (v : value) : str :=
  match v with
  | VNone => lit "null"
  | VBool true => lit "true"
  | VBool false => lit "false"
  | VInt z => repr_int z
  | VFloat r => encode_float r
  | VStr s => encode_str ensure_ascii s
  | VList l =>
      lit "[" ++ join (lit ", ") (List.map (encode ensure_ascii) l) ++ lit "]"
  | VDict d =>
      lit "{"
      ++ join (lit ", ")
           (List.map
              (fun kv =>
                 encode_str ensure_ascii (fst kv) ++ lit ": "
                   ++ encode ensure_ascii (snd kv))
              d)
      ++ lit "}"
  end.

(** The first of a list of outcomes that is an exception. *)
Fixpoint first_error (l : list (option exn)) : option exn :=
  match l with
  | [] => None
  | Some e :: _ => Some e
  | None :: l' => first_error l'
  end.

(** What stops the encoder, if anything, with [depth] levels of nesting
    left: it goes through the value in the order it writes it, enters one
    level for every list and dict (an empty one too), and writes an [int]
    with [int.__repr__]. *)
Fixpoint encode_error (depth : nat) (v : value) {struct v}
  : option exn :=
  match v with
  | VInt z =>
      if (int_max_str_digits <? digits z)%nat then Some int_to_str_error
      else None
  | VList l =>
      match depth with
      | O => Some (RecursionError "while encoding a JSON object")
      | S depth' => first_error (List.map (encode_error depth') l)
      end
  | VDict d =>
      match depth with
      | O => Some (RecursionError "while encoding a JSON object")
      | S depth' =>
          first_error (List.map (fun kv => encode_error depth' (snd kv)) d)
      end
  | VNone | VBool _ | VFloat _ | VStr _ => None
  end.

(** [json.dumps(v, ensure_ascii=...)] with [depth] levels of nesting left:
    the text of [encode], unless the encoder is stopped.  (The values of
    [value] are finite trees with [str] keys, and non-finite floats are
    allowed by default, so that nothing else can stop it.) *)
Definition json_dumps (ensure_ascii : bool) (depth : nat) (v : value)
  : result str :=
  match encode_error depth v with
  | Some e => Raise e
  | None => Ok (encode ensure_ascii v)
  end.

(** *** json.loads *)

(** The outcome of scanning a prefix of the input: a value and the rest of
    the input; a [JSONDecodeError]; the [RecursionError] or [ValueError] of
    an input past a limit of the interpreter; or the budget of the
    definition used up (which [json_loads] never lets happen). *)
Inductive scan (A : Type) : Type :=
| Scanned (a : A) (rest : str)
| Invalid
| Failed (e : exn)
| Exhausted.
Arguments Scanned {A} a rest.
Arguments Invalid {A}.
Arguments Failed {A} e.
Arguments Exhausted {A}.

Definition is_ws (c : codepoint) : bool :=
  ((c =? 32) || (c =? 9) || (c =? 10) || (c =? 13))%N.

Fixpoint skip_ws (s : str) : str :=
  match s with
  | c :: s' => if is_ws c then skip_ws s' else s
  | [] => []
  end.

Definition is_digit (c : codepoint) : bool := ((48 <=? c) && (c <=? 57))%N.

Definition hex_value (c : codepoint) : option N :=
  (if is_digit c then Some (c - 48)
   else if (97 <=? c) && (c <=? 102) then Some (c - 87)
   else if (65 <=? c) && (c <=? 70) then Some (c - 55)
   else None)%N.

Definition hex4 (a b c d : codepoint) : option N :=
  match hex_value a, hex_value b, hex_value c, hex_value d with
  | Some x, Some y, Some z, Some w => Some (((x * 16 + y) * 16 + z) * 16 + w)%N
  | _, _, _, _ => None
  end.

(** Does [s] start with the character [c]?  The rest, if so. *)
Definition starts_with (c : codepoint) (s : str) : option str :=
  match s with
  | x :: r => if (x =? c)%N then Some r else None
  | [] => None
  end.

(** The low surrogate that follows a high one as a second [\uXXXX]
    escape. *)
Definition low_surrogate_escape (s : str) : option N :=
  match starts_with 92%N s with
  | Some r =>
      match starts_with 117%N r with
      | Some (a :: b :: c :: d :: _) =>
          match hex4 a b c d with
          | Some u2 => if is_low_surrogate u2 then Some u2 else None
          | None => None
          end
      | _ => None
      end
  | None => None
  end.

(** [scanstring] (strict): the text after an opening quote, up to the
    closing one.  A control character is refused; [\uXXXX] takes four
    hexadecimal digits, and a high surrogate directly followed by an escaped
    low one is joined with it. *)
Fixpoint scanstring (s : str) (acc : str) : option (str * str) :=
  match s with
  | [] => None
  | c :: r =>
      if (c =? 34)%N then Some (rev acc, r)
      else if (c =? 92)%N then
        match r with
        | [] => None
        | e :: r1 =>
            if (e =? 117)%N then
              match r1 with
              | h1 :: h2 :: h3 :: h4 :: r2 =>
                  match hex4 h1 h2 h3 h4 with
                  | None => None
                  | Some u =>
                      if is_high_surrogate u then
                        match low_surrogate_escape r2, r2 with
                        | Some u2, _ :: _ :: _ :: _ :: _ :: _ :: r3 =>
                            scanstring r3
                              ((65536 + (u - 55296) * 1024 + (u2 - 56320))%N
                               :: acc)
                        | _, _ => scanstring r2 (u :: acc)
                        end
                      else scanstring r2 (u :: acc)
                  end
              | _ => None
              end
            else if (e =? 34)%N then scanstring r1 (34%N :: acc)
            else if (e =? 92)%N then scanstring r1 (92%N :: acc)
            else if (e =? 47)%N then scanstring r1 (47%N :: acc)
            else if (e =? 98)%N then scanstring r1 (8%N :: acc)
            else if (e =? 102)%N then scanstring r1 (12%N :: acc)
            else if (e =? 110)%N then scanstring r1 (10%N :: acc)
            else if (e =? 114)%N then scanstring r1 (13%N :: acc)
            else if (e =? 116)%N then scanstring r1 (9%N :: acc)
            else None
        end
      else if (c <? 32)%N then None
      else scanstring r (c :: acc)
  end.

(** The leading ASCII digits of the input, and what follows them. *)
Fixpoint span_digits (s : str) : str * str :=
  match s with
  | c :: s' =>
      if is_digit c
      then let (ds, r) := span_digits s' in (c :: ds, r)
      else ([], s)
  | [] => ([], [])
  end.

Definition int_of_digits (ds : str) : Z :=
  fold_left (fun a c => (a * 10 + Z.of_N (c - 48))%Z) ds 0%Z.

(** Does [s] start with [p]?  The rest, if so. *)
Fixpoint strip_prefix (p s : str) : option str :=
  match p, s with
  | [], _ => Some s
  | x :: p', y :: s' => if (x =? y)%N then strip_prefix p' s' else None
  | _ :: _, [] => None
  end.

Section Loads.

(** [float(literal)] followed by [repr]: the text of the double nearest to
    a JSON number with a fraction or an exponent.  Decimal-to-binary
    rounding belongs to the interpreter; it is a parameter of the parser. *)
Variable float_repr_of_literal : str -> str.

(** The number at the start of the input, group by group: an optional
    minus; [0], or a non-zero digit and more digits; an optional fraction (a
    dot and at least one digit); an optional exponent ([e] or [E], an
    optional sign, at least one digit).  Each gives the text it matched and
    the input after it. *)
Definition number_sign (s : str) : str * str :=
  match starts_with 45%N s with
  | Some r => ([45%N], r)
  | None => ([], s)
  end.

Definition number_int (s : str) : option (str * str) :=
  match s with
  | [] => None
  | c :: r =>
      if is_digit c then
        if (c =? 48)%N then Some ([c], r)
        else let (ds, r') := span_digits r in Some (c :: ds, r')
      else None
  end.

Definition number_frac (s : str) : str * str :=
  match starts_with 46%N s with
  | Some (d :: r) =>
      if is_digit d
      then let (ds, r') := span_digits r in (46%N :: d :: ds, r')
      else ([], s)
  | _ => ([], s)
  end.

Definition number_exp (s : str) : str * str :=
  match s with
  | e :: r =>
      if ((e =? 101) || (e =? 69))%N then
        let (esign, r') :=
          match r with
          | x :: r'' =>
              if ((x =? 43) || (x =? 45))%N then ([x], r'') else ([], r)
          | [] => ([], r)
          end in
        match span_digits r' with
        | ([], _) => ([], s)
        | (ds, r'') => (e :: esign ++ ds, r'')
        end
      else ([], s)
  | [] => ([], s)
  end.

(** An [int] unless the number has a fraction or an exponent; [int(text)]
    refuses an integer part of too many digits. *)
Definition match_number (s : str) : scan value :=
  let (sign, s1) := number_sign s in
  match number_int s1 with
  | None => Invalid
  | Some (int_part, r1) =>
      let (frac, r2) := number_frac r1 in
      let (expo, r3) := number_exp r2 in
      match frac, expo with
      | [], [] =>
          if (int_max_str_digits <? List.length int_part)%nat
          then Failed (str_to_int_error (List.length int_part))
          else
            let n := int_of_digits int_part in
            Scanned (VInt (match sign with [] => n | _ => - n end)%Z) r3
      | _, _ =>
          Scanned
            (VFloat (float_repr_of_literal (sign ++ int_part ++ frac ++ expo)))
            r3
      end
  end.

(** [scan_once] with the array and object loops.  [parse_elements] starts
    at an element, [parse_members] at the quote of a key; both skip the
    white space around the separators and stop after the closing bracket.
    A repeated key keeps its first position and its last value.  The
    scanner enters one level of nesting at every opening bracket and brace,
    before it looks at what follows; [depth] counts the levels left. *)
Fixpoint scan_once (fuel : nat) (depth : nat) (s : str) : scan value :=
  match fuel with
  | O => Exhausted
  | S fuel' =>
      match s with
      | [] => Invalid
      | c :: r =>
          if (c =? 34)%N then
            match scanstring r [] with
            | Some (t, r') => Scanned (VStr t) r'
            | None => Invalid
            end
          else if (c =? 123)%N then
            match depth with
            | O =>
                Failed
                  (RecursionError
                     "while decoding a JSON object from a unicode string")
            | S depth' =>
                match starts_with 125%N (skip_ws r) with
                | Some r' => Scanned (VDict []) r'
                | None => parse_members fuel' depth' (skip_ws r) []
                end
            end
          else if (c =? 91)%N then
            match depth with
            | O =>
                Failed
                  (RecursionError
                     "while decoding a JSON array from a unicode string")
            | S depth' =>
                match starts_with 93%N (skip_ws r) with
                | Some r' => Scanned (VList []) r'
                | None => parse_elements fuel' depth' (skip_ws r) []
                end
            end
          else
            match strip_prefix (lit "null") s,
                  strip_prefix (lit "true") s,
                  strip_prefix (lit "false") s,
                  strip_prefix (lit "NaN") s,
                  strip_prefix (lit "Infinity") s,
                  strip_prefix (lit "-Infinity") s with
            | Some r', _, _, _, _, _ => Scanned VNone r'
            | _, Some r', _, _, _, _ => Scanned (VBool true) r'
            | _, _, Some r', _, _, _ => Scanned (VBool false) r'
            | _, _, _, Some r', _, _ => Scanned (VFloat (lit "nan")) r'
            | _, _, _, _, Some r', _ => Scanned (VFloat (lit "inf")) r'
            | _, _, _, _, _, Some r' => Scanned (VFloat (lit "-inf")) r'
            | _, _, _, _, _, _ => match_number s
            end
      end
  end

with parse_elements (fuel : nat) (depth : nat) (s : str) (acc : list value)
  : scan value :=
  match fuel with
  | O => Exhausted
  | S fuel' =>
      match scan_once fuel' depth s with
      | Scanned v r =>
          match starts_with 93%N (skip_ws r), starts_with 44%N (skip_ws r) with
          | Some r', _ => Scanned (VList (rev (v :: acc))) r'
          | None, Some r' =>
              parse_elements fuel' depth (skip_ws r') (v :: acc)
          | None, None => Invalid
          end
      | Invalid => Invalid
      | Failed e => Failed e
      | Exhausted => Exhausted
      end
  end

with parse_members (fuel : nat) (depth : nat) (s : str)
    (acc : list (str * value)) : scan value :=
  match fuel with
  | O => Exhausted
  | S fuel' =>
      match starts_with 34%N s with
      | Some r =>
          match scanstring r [] with
          | Some (k, r1) =>
              match starts_with 58%N (skip_ws r1) with
              | Some r2 =>
                  match scan_once fuel' depth (skip_ws r2) with
                  | Scanned v r3 =>
                      match starts_with 125%N (skip_ws r3),
                            starts_with 44%N (skip_ws r3) with
                      | Some r', _ => Scanned (VDict (dict_set k v acc)) r'
                      | None, Some r' =>
                          parse_members fuel' depth (skip_ws r')
                            (dict_set k v acc)
                      | None, None => Invalid
                      end
                  | Invalid => Invalid
                  | Failed e => Failed e
                  | Exhausted => Exhausted
                  end
              | None => Invalid
              end
          | None => Invalid
          end
      | None => Invalid
      end
  end.

Definition JSONDecodeError : exn :=
  Exn "JSONDecodeError" (lit "JSONDecodeError").

Context {limits : Limits}.

(** [json.loads(s)] on a [str], as this program calls it, from a function
    that [lambda_handler] calls (lines 15 and 41): a leading byte-order
    mark is refused; then one value, white space allowed around it, and
    nothing else.  A text that is not JSON gives a [JSONDecodeError] (its
    message, which this program never reads, is not modelled); one nested
    too deep a [RecursionError]; one with an integer of too many digits a
    [ValueError] that is no [JSONDecodeError].  Each is raised where the
    scanner, going from left to right, meets its cause.  The budget of the
    definition is enough for any input ([json_loads_never_exhausted]
    below), so that its last case never applies. *)
Definition json_loads (s : str) : result value :=
  match starts_with 65279%N s with
  | Some _ => Raise JSONDecodeError
  | None =>
      match scan_once (2 * List.length s + 1) depth_in_callee (skip_ws s) with
      | Scanned v r =>
          match skip_ws r with
          | [] => Ok v
          | _ :: _ => Raise JSONDecodeError
          end
      | Invalid => Raise JSONDecodeError
      | Failed e => Raise e
      | Exhausted =>
          Raise
            (RecursionError
               "while decoding a JSON array from a unicode string")
      end
  end.

End Loads.

End Json.
Import Json.

(* ------------------------------------------------------------------------- *)
(** ** The handler's environment and effects *)

Module Effects.

(** The record [dynamo.put_item(Item=...)] is given: the dict literal of the
    handler, field by field. *)
Record LogItem : Type := {
  log_id : str;
  log_request_id : str;
  log_status : str;
  log_prompt : str;
  log_response : str;
  log_timestamp : Z
}.

(** The keyword arguments of [runtime.invoke_endpoint]. *)
Record InvokeArgs : Type := {
  EndpointName : str;
  ContentType : str;
  Accept : str;
  Body : bytes
}.

(** What [invoke_endpoint] returns, as the handler uses it:
    [resp["Body"].read()] gives the bytes or raises. *)
Record InvokeResponse : Type := { Body_read : result bytes }.

(** The dict the handler returns. *)
Record HttpResponse : Type := {
  statusCode : Z;
  headers : list (str * str);
  body : str
}.

(** The Lambda context object, of which the handler reads one attribute. *)
Record LambdaContext : Type := { aws_request_id : str }.

(** What is outside the handler, for one invocation: the endpoint name read
    from the process environment at import, the clock ([time_time n] is the
    [n]-th reading of [time.time()], a rational number of seconds), the
    SageMaker runtime client, and the DynamoDB table ([dynamo_put_item
    earlier item] is [None] when the write of [item] is accepted, after the
    writes [earlier] of this invocation, and the exception it raises
    otherwise). *)
Record Env : Type := {
  ENDPOINT : str;
  time_time : nat -> Q;
  runtime_invoke_endpoint : InvokeArgs -> result InvokeResponse;
  dynamo_put_item : list LogItem -> LogItem -> option exn
}.

(** The trace of one invocation: how often the clock was read, the calls
    made to the endpoint, the writes issued to the table (accepted or not)
    and the records the table accepted. *)
Record World : Type := {
  clock_reads : nat;
  invocations : list InvokeArgs;
  put_calls : list LogItem;
  table : list LogItem
}.

Definition initial : World :=
  {| clock_reads := 0; invocations := []; put_calls := []; table := [] |}.

(** Computations that read and extend the trace and may raise. *)
Definition M (A : Type) : Type := World -> result A * World.

Definition ret {A : Type} (a : A) : M A := fun w => (Ok a, w).

Definition bind {A B : Type} (m : M A) (k : A -> M B) : M B :=
  fun w =>
    match m w with
    | (Ok a, w') => k a w'
    | (Raise e, w') => (Raise e, w')
    end.

(** A pure call that may raise. *)
Definition lift {A : Type} (r : result A) : M A := fun w => (r, w).

(** [try: m except Exception as e: h e] *)
Definition try_except {A : Type} (m : M A) (h : exn -> M A) : M A :=
  fun w =>
    match m w with
    | (Ok a, w') => (Ok a, w')
    | (Raise e, w') => h e w'
    end.

(** The four ways an invocation extends its trace. *)
Definition tick (w : World) : World :=
  {| clock_reads := S (clock_reads w);
     invocations := invocations w;
     put_calls := put_calls w;
     table := table w |}.

Definition sent (args : InvokeArgs) (w : World) : World :=
  {| clock_reads := clock_reads w;
     invocations := invocations w ++ [args];
     put_calls := put_calls w;
     table := table w |}.

Definition issued (item : LogItem) (w : World) : World :=
  {| clock_reads := clock_reads w;
     invocations := invocations w;
     put_calls := put_calls w ++ [item];
     table := table w |}.

Definition stored (item : LogItem) (w : World) : World :=
  {| clock_reads := clock_reads w;
     invocations := invocations w;
     put_calls := put_calls w;
     table := table w ++ [item] |}.

Section Calls.

Variable env : Env.

(** [time.time()] *)
Definition call_time : M Q :=
  fun w => (Ok (time_time env (clock_reads w)), tick w).

(** [runtime.invoke_endpoint(...)] *)
Definition call_invoke_endpoint (args : InvokeArgs) : M InvokeResponse :=
  fun w => (runtime_invoke_endpoint env args, sent args w).

(** [dynamo.put_item(Item=item)] *)
Definition call_put_item (item : LogItem) : M unit :=
  fun w =>
    match dynamo_put_item env (put_calls w) item with
    | None => (Ok tt, stored item (issued item w))
    | Some e => (Raise e, issued item w)
    end.

End Calls.

(** [int(x)] of a [float]: truncation towards zero. *)
Definition py_int (x : Q) : Z := Z.quot (Qnum x) (Zpos (Qden x)).

End Effects.
Import Effects.

Declare Scope py_scope.
Delimit Scope py_scope with py.
Notation "x <- m ;; k" := (bind m (fun x => k))
  (at level 100, m at next level, right associativity) : py_scope.
Notation "m ;;; k" := (bind m (fun _ => k))
  (at level 100, right associativity) : py_scope.

(* ------------------------------------------------------------------------- *)
(** ** lambda_function.py *)

Module Handler.

Section Program.

(** The interpreter's tables ([PyValue.repr], [Json.json_loads]) and
    limits, and the world the process runs in. *)
Variable unicode_isprintable : codepoint -> bool.
Variable float_repr_of_literal : str -> str.
Context {limits : Limits}.
Variable env : Env.

(** [str(value)] at line 11.  It is reached with a value that
    [json.dumps] has refused: [repr] then meets the same [int], or the
    recursion limit a few levels later than the encoder. *)
Definition str_of_refused (v : value) : result str :=
  if repr_overflows v
  then Raise (RecursionError "while getting the repr of an object")
  else if ints_within v then Ok (py_str unicode_isprintable v)
  else Raise int_to_str_error.

(** [safe_json]: lines 7-11. *)
Definition safe_json (v : value) : result str :=
  match json_dumps false depth_in_callee v with
  | Ok s => Ok s
  | Raise _ => str_of_refused v
  end.

(** [try_parse_json]: lines 13-17. *)
Definition try_parse_json (s : str) : value :=
  match json_loads float_repr_of_literal s with
  | Ok v => v
  | Raise _ => VDict [(lit "_raw", VStr s)]
  end.

(** Lines 32-37 of [_parse_body], the base64 step on the raw body: [None]
    is its [return {}].  ([isinstance(raw, str)] is the match on [VStr].) *)
Definition decode_body (d : list (str * value)) (raw : value)
  : option value :=
  match raw with
  | VStr s =>
      if is_True (dict_get (lit "isBase64Encoded") VNone d) then
        match b64decode s with
        | Ok b => Some (VStr (utf8_decode_replace b))
        | Raise _ => None
        end
      else Some raw
  | _ => Some raw
  end.

(** Lines 40-43: [json.loads(raw)], an empty dict on [JSONDecodeError]. *)
Definition loads_or_empty (s : str) : result value :=
  match json_loads float_repr_of_literal s with
  | Ok v => Ok v
  | Raise e =>
      if String.eqb (exn_class e) "JSONDecodeError"
      then Ok (VDict [])
      else Raise e
  end.

(** [_parse_body]: lines 19-48. *)
Definition _parse_body (event : value) : result value :=
  match event with
  | VDict d =>
      match dict_lookup (lit "body") d with
      | Some raw0 =>
          match decode_body d raw0 with
          | None => Ok (VDict [])
          | Some (VStr s) => loads_or_empty s
          | Some (VDict b) => Ok (VDict b)
          | Some _ => Ok (VDict [])
          end
      | None => Ok event
      end
  | _ => Ok (VDict [])
  end.

Definition json_headers : list (str * str) :=
  [(lit "Content-Type", lit "application/json")].

(** The request of lines 64-73. *)
Definition payload (text : str) : value :=
  VDict
    [(lit "inputs", VStr text);
     (lit "parameters",
      VDict
        [(lit "max_new_tokens", VInt 128);
         (lit "temperature", VFloat (lit "0.0"));
         (lit "top_p", VFloat (lit "0.9"));
         (lit "do_sample", VBool false);
         (lit "return_full_text", VBool false)])].

(** The body of the 400 response, lines 58-61.  [str(event)] is the text
    of [py_str]: the event is the object the Lambda runtime has decoded
    from the JSON document of the invocation, so that it holds no [int]
    that [repr] refuses; an event nested so deep that [repr] of it reaches
    the recursion limit at line 60 is not modelled. *)
Definition bad_request_body (event : value) : value :=
  VDict
    [(lit "error", VStr (lit "Empty or missing 'inputs' received by Lambda"));
     (lit "raw_event_sample",
      VStr (slice_to 500 (py_str unicode_isprintable event)))].

(** The early return of lines 55-62. *)
Definition bad_request (event : value) : M HttpResponse :=
  (b <- lift (json_dumps true depth_in_handler (bad_request_body event)) ;;
   ret {| statusCode := 400; headers := json_headers; body := b |})%py.

(** [s.encode("utf-8")] *)
Definition encode_utf8 (s : str) : result bytes :=
  match utf8_encode s with
  | Some b => Ok b
  | None =>
      Raise (Exn "UnicodeEncodeError"
               (lit "'utf-8' codec can't encode character: surrogates not allowed"))
  end.

(** Line 75: the f-string of the invocation identifier. *)
Definition make_item_id (now : Q) (context : LambdaContext) : str :=
  repr_int (py_int (now * 1000)%Q) ++ lit "#" ++ aws_request_id context.

(** The keyword arguments of lines 78-83. *)
Definition invoke_args (request : bytes) : InvokeArgs :=
  {| EndpointName := ENDPOINT env;
     ContentType := lit "application/json";
     Accept := lit "application/json";
     Body := request |}.

(** The dict literals of lines 89-96 and 107-114, which differ in [status]
    and [response]. *)
Definition log_item (item_id status text response : str) (now : Q)
  : LogItem :=
  {| log_id := item_id;
     log_request_id := item_id;
     log_status := status;
     log_prompt := slice_to 4000 text;
     log_response := response;
     log_timestamp := py_int now |}.

(** Lines 78-103: the body of the [try]. *)
Definition invoke_and_log (text item_id : str) : M HttpResponse :=
  (payload_json <- lift (json_dumps true depth_in_handler (payload text)) ;;
   request <- lift (encode_utf8 payload_json) ;;
   resp <- call_invoke_endpoint env (invoke_args request) ;;
   raw <- lift (Body_read resp) ;;
   let raw_out := utf8_decode_replace raw in
   let result := try_parse_json raw_out in
   response <- lift (safe_json result) ;;
   now <- call_time env ;;
   call_put_item env (log_item item_id (lit "ok") text response now) ;;;
   b <- lift (json_dumps true depth_in_handler
                (VDict [(lit "result", result)])) ;;
   ret {| statusCode := 200; headers := json_headers; body := b |})%py.

(** Lines 105-121: the [except Exception as e] handler. *)
Definition log_failure (text item_id : str) (e : exn) : M HttpResponse :=
  (response <-
     lift (safe_json (VDict [(lit "invoke_error", VStr (exn_str e))])) ;;
   now <- call_time env ;;
   call_put_item env (log_item item_id (lit "error") text response now) ;;;
   b <- lift (json_dumps true depth_in_handler
                (VDict [(lit "error", VStr (exn_str e))])) ;;
   ret {| statusCode := 502; headers := json_headers; body := b |})%py.

(** [lambda_handler]: lines 50-121.  The test of line 54 is the match on
    [VStr] ([isinstance(text, str)]) and the emptiness of [text.strip()]. *)
Definition lambda_handler (event : value) (context : LambdaContext)
  : M HttpResponse :=
  (body <- lift (_parse_body event) ;;
   text <- lift (py_get body (lit "inputs") (VStr [])) ;;
   match text with
   | VStr t =>
       if negb (str_truthy (strip t)) then bad_request event
       else
         now <- call_time env ;;
         let item_id := make_item_id now context in
         try_except (invoke_and_log t item_id) (log_failure t item_id)
   | _ => bad_request event
   end)%py.

(** *** Notions the properties are stated with *)

(** The text lines 51-54 extract from the event, when there is one and it
    passes the validation of line 54. *)
Definition extracted_text (event : value) : option str :=
  match _parse_body event with
  | Ok body =>
      match py_get body (lit "inputs") (VStr []) with
      | Ok (VStr t) => if str_truthy (strip t) then Some t else None
      | _ => None
      end
  | Raise _ => None
  end.

(** The bytes sent to the endpoint for [text]: [json.dumps] gives ASCII
    text, which is its own UTF-8 encoding. *)
Definition request_bytes (text : str) : bytes := encode true (payload text).

(** What the endpoint answers to the request for [text]: the bytes read
    from the response body, or the exception raised by the call or by the
    read (lines 78-85). *)
Definition remote_call (text : str) : result bytes :=
  match runtime_invoke_endpoint env (invoke_args (request_bytes text)) with
  | Ok resp => Body_read resp
  | Raise e => Raise e
  end.

(** The record written on success (lines 89-96) for the bytes [raw] read
    from the endpoint, and on failure (lines 107-114) for the exception
    [e], with the clock reading [now] of the write.  Their [response] is
    the text [json.dumps] writes with [ensure_ascii=False], which is what
    [safe_json] returns on these values ([safe_json_parsed] and
    [log_failure_run] below). *)
Definition ok_item (text item_id : str) (raw : bytes) (now : Q) : LogItem :=
  log_item item_id (lit "ok") text
    (encode false (try_parse_json (utf8_decode_replace raw))) now.

Definition error_item (text item_id : str) (e : exn) (now : Q) : LogItem :=
  log_item item_id (lit "error") text
    (encode false (VDict [(lit "invoke_error", VStr (exn_str e))])) now.

(** The three responses of the handler. *)
Definition response_200 (raw : bytes) : HttpResponse :=
  {| statusCode := 200;
     headers := json_headers;
     body :=
       encode true
         (VDict [(lit "result", try_parse_json (utf8_decode_replace raw))]) |}.

Definition response_502 (e : exn) : HttpResponse :=
  {| statusCode := 502;
     headers := json_headers;
     body := encode true (VDict [(lit "error", VStr (exn_str e))]) |}.

Definition response_400 (event : value) : HttpResponse :=
  {| statusCode := 400;
     headers := json_headers;
     body := encode true (bad_request_body event) |}.

End Program.

End Handler.
Import Handler.

(* ------------------------------------------------------------------------- *)
(** ** Concrete invocations *)

Module Samples.

(** An interpreter for the examples.  Their texts are ASCII and hold no
    number with a fraction or an exponent, so neither table is consulted. *)
Definition ascii_isprintable (c : codepoint) : bool := false.
Definition literal_as_repr (l : str) : str := l.

(** Room for 64 levels of nesting below [lambda_handler], and a [repr]
    that never reaches the limit. *)
#[export] Instance sample_limits : Limits :=
  {| headroom := 63; repr_overflows := fun _ => false |}.

Definition context : LambdaContext := {| aws_request_id := lit "req-1" |}.

(** A clock that starts at 1700000000.123 s and advances 1 ms per reading. *)
Definition clock (n : nat) : Q := Qmake (1700000000123 + Z.of_nat n) 1000.

Definition throttled : exn :=
  Exn "ClientError" (lit "ProvisionedThroughputExceededException").

Definition boom : exn := Exn "Exception" (lit "boom").

(** The endpoint answers [b'{"generated_text": "x"}'] or raises [boom]; the
    table accepts every write, refuses the first one only, or refuses
    all. *)
Definition generated : bytes :=
  encode true (VDict [(lit "generated_text", VStr (lit "x"))]).

Definition answers (_ : InvokeArgs) : result InvokeResponse :=
  Ok {| Body_read := Ok generated |}.

Definition fails (_ : InvokeArgs) : result InvokeResponse := Raise boom.

Definition accept_all (_ : list LogItem) (_ : LogItem) : option exn := None.

Definition refuse_first (earlier : list LogItem) (_ : LogItem)
  : option exn :=
  match earlier with
  | [] => Some throttled
  | _ :: _ => None
  end.

Definition refuse_all (_ : list LogItem) (_ : LogItem) : option exn :=
  Some throttled.

Definition make_env (invoke : InvokeArgs -> result InvokeResponse)
    (put : list LogItem -> LogItem -> option exn) : Env :=
  {| ENDPOINT := lit "llm-endpoint";
     time_time := clock;
     runtime_invoke_endpoint := invoke;
     dynamo_put_item := put |}.

(** [{"inputs": "hello"}], the direct invocation. *)
Definition direct_hello : value :=
  VDict [(lit "inputs", VStr (lit "hello"))].

(** [{"body": "{\"inputs\": \"hello\"}"}], the proxied envelope. *)
Definition proxied_hello : value :=
  VDict [(lit "body", VStr (encode true direct_hello))].

(** [{"body": base64("{\"inputs\": \"hi\"}"), "isBase64Encoded": true}] *)
Definition proxied_base64_hi : value :=
  VDict
    [(lit "body",
      VStr (b64encode (encode true (VDict [(lit "inputs", VStr (lit "hi"))]))));
     (lit "isBase64Encoded", VBool true)].

(** The same body with a flag that is truthy and not [True]. *)
Definition proxied_base64_flag (flag : value) : value :=
  VDict
    [(lit "body",
      VStr (b64encode (encode true (VDict [(lit "inputs", VStr (lit "hi"))]))));
     (lit "isBase64Encoded", flag)].

(** [{"body": "[1, 2]"}]: a body that is valid JSON and not an object. *)
Definition list_body : value := VDict [(lit "body", VStr (lit "[1, 2]"))].

(** [{"body": "not json"}] *)
Definition not_json : value := VDict [(lit "body", VStr (lit "not json"))].

(** [{"inputs": "   "}] *)
Definition blank_inputs : value := VDict [(lit "inputs", VStr (lit "   "))].

(** [{"inputs": "  hi  "}]: a text with white space around it. *)
Definition padded_inputs : value := VDict [(lit "inputs", VStr (lit "  hi  "))].

(** [{"inputs": "a" * 5000}] *)
Definition long_text : str := repeat 97%N 5000.
Definition long_inputs : value := VDict [(lit "inputs", VStr long_text)].

(** One invocation from the initial trace. *)
Definition run (e : Env) (event : value) : result HttpResponse * World :=
  lambda_handler ascii_isprintable literal_as_repr e event context initial.

End Samples.

(* ------------------------------------------------------------------------- *)
(** ** Properties *)

(** *** The encoder's output is ASCII under [ensure_ascii] *)

Definition is_ascii (c : codepoint) : bool := (c <? 128)%N.

Definition is_byte (x : N) : bool := (x <? 256)%N.

(** Literals evaluated to their code points. *)
Ltac eval_lits :=
  repeat match goal with
         | |- context [lit ?s] =>
             let v := eval vm_compute in (lit s) in
             change (lit s) with v
         end.

(** Linear arithmetic over [N] with division and remainder by constants. *)
Ltac div_lia := zify; Z.to_euclidean_division_equations; lia.

(** *** Notions of the round-trip properties *)

(** A text [json.dumps] writes and [json.loads] reads back unchanged: any
    text when characters above ASCII are written raw
    ([ensure_ascii=False]), a well-formed one when they are escaped. *)
Definition text_ok (ensure_ascii : bool) (s : str) : bool :=
  negb ensure_ascii || well_formed s.

(** No text twice in the list. *)
Fixpoint distinct (l : list str) : bool :=
  match l with
  | [] => true
  | k :: l' => negb (existsb (str_eqb k) l') && distinct l'
  end.

(** The values the JSON round trip is proved for: no [float]; texts and
    keys as [text_ok] has them; no key twice in one dict. *)
Fixpoint plain (ensure_ascii : bool) (v : value) : bool :=
  match v with
  | VNone | VBool _ | VInt _ => true
  | VFloat _ => false
  | VStr s => text_ok ensure_ascii s
  | VList l => forallb (plain ensure_ascii) l
  | VDict d =>
      distinct (List.map fst d)
      && forallb
           (fun kv => text_ok ensure_ascii (fst kv)
                      && plain ensure_ascii (snd kv))
           d
  end.

(** What may follow a value inside a JSON text: nothing, a comma, a closing
    bracket or brace. *)
Definition delimited (rest : str) : bool :=
  match rest with
  | [] => true
  | c :: _ => ((c =? 44) || (c =? 93) || (c =? 125))%N
  end.

(** The first character of an encoded value: not white space, not a
    closing bracket or brace, not a byte-order mark. *)
Definition starts_value (s : str) : Prop :=
  exists c more,
    s = c :: more
    /\ is_ws c = false
    /\ (c =? 93)%N = false /\ (c =? 125)%N = false
    /\ (c =? 65279)%N = false.

(** A dict member as the encoder writes it. *)
Definition encode_member (ea : bool) (kv : str * value) : str :=
  encode_str ea (fst kv) ++ lit ": " ++ encode ea (snd kv).

(** Reading an encoded value gives the value back, if the levels of
    nesting left and the budget allow. *)
Definition reads_back (fl : str -> str) (ea : bool) (v : value) : Prop :=
  plain ea v = true ->
  forall fuel depth rest,
    within depth v = true ->
    delimited rest = true ->
    scan_once fl fuel depth (encode ea v ++ rest) = Exhausted
    \/ scan_once fl fuel depth (encode ea v ++ rest) = Scanned v rest.

(** The exceptions of [json.loads] that are no [JSONDecodeError]: the
    [RecursionError] of a text nested too deep and the [ValueError] of an
    integer of too many digits. *)
Definition limit_error (e : exn) : Prop :=
  e = RecursionError "while decoding a JSON object from a unicode string"
  \/ e = RecursionError "while decoding a JSON array from a unicode string"
  \/ exists count,
       int_max_str_digits < count /\ e = str_to_int_error count.

Ltac eval_eqb :=
  repeat match goal with
         | |- context [N.eqb (Npos ?p) (Npos ?q)] =>
             let v := eval vm_compute in (N.eqb (Npos p) (Npos q)) in
             change (N.eqb (Npos p) (Npos q)) with v
         end.

(** Comparisons on [N] in the hypotheses, as propositions. *)
Ltac to_prop :=
  repeat match goal with
         | H : (_ && _) = true |- _ => apply andb_true_iff in H; destruct H
         | H : (_ && _) = false |- _ =>
             apply andb_false_iff in H; destruct H
         | H : (_ <? _)%N = true |- _ => apply N.ltb_lt in H
         | H : (_ <? _)%N = false |- _ => apply N.ltb_ge in H
         | H : (_ <=? _)%N = true |- _ => apply N.leb_le in H
         | H : (_ <=? _)%N = false |- _ => apply N.leb_gt in H
         | H : (_ =? _)%N = true |- _ => apply N.eqb_eq in H
         | H : (_ =? _)%N = false |- _ => apply N.eqb_neq in H
         end.

(** A comparison on [N] settled by linear arithmetic. *)
Ltac bool_lia :=
  lazymatch goal with
  | |- (_ && _) = true => apply andb_true_iff; split; bool_lia
  | |- (_ <? _)%N = true => apply N.ltb_lt; lia
  | |- (_ <? _)%N = false => apply N.ltb_ge; lia
  | |- (_ <=? _)%N = true => apply N.leb_le; lia
  | |- (_ <=? _)%N = false => apply N.leb_gt; lia
  | |- (_ =? _)%N = true => apply N.eqb_eq; lia
  | |- (_ =? _)%N = false => apply N.eqb_neq; lia
  end.

(** *** Sample values of the further properties *)

(** A reply with a nested object, a negative number, a quote, a line feed,
    a character above ASCII, one above U+FFFF and a lone surrogate. *)
Definition nested_reply : value :=
  VList
    [VDict
       [(lit "generated_text",
         VStr (lit "h" ++ [233%N] ++ dquote :: lit "q" ++ dquote
                 :: [10%N; 55357%N; 128512%N]));
        (lit "tokens", VInt (-42))];
     VNone;
     VBool true;
     VList []].

(** [{"inputs": "h\u00e9llo \U0001f600"}] as an object, as its JSON text
    with the characters written raw, and as the UTF-8 bytes of that text. *)
Definition accented_body : list (str * value) :=
  [(lit "inputs", VStr (lit "h" ++ [233%N] ++ lit "llo " ++ [128512%N]))].

Definition accented_text : str := encode false (VDict accented_body).

Definition accented_bytes : bytes :=
  match utf8_encode accented_text with
  | Some b => b
  | None => []
  end.

(** [{"body": "[[[...]]]"}] with 65 levels, one more than [sample_limits]
    leaves to [json.loads], and [{"body": "11...1"}] with 4301 digits. *)
Definition deep_body : value :=
  VDict [(lit "body", VStr (repeat 91%N 65 ++ repeat 93%N 65))].

Definition long_integer_body : value :=
  VDict [(lit "body", VStr (repeat 49%N 4301))].

Lemma hex_digit_ascii (n : N) : (n < 16)%N -> is_ascii (hex_digit n) = true.
Proof.
  intros H. unfold is_ascii, hex_digit.
  destruct (n <? 10)%N; apply N.ltb_lt; lia.
Qed.

Lemma hex_fixed_ascii (w : nat) (n : N) :
  forallb is_ascii (hex_fixed w n) = true.
Proof.
  revert n. induction w as [|w IH]; intros n; simpl; [reflexivity|].
  rewrite forallb_app, IH. simpl.
  rewrite hex_digit_ascii; [reflexivity|].
  apply N.mod_lt. discriminate.
Qed.

Lemma escape_char_ascii (c : codepoint) :
  forallb is_ascii (escape_char true c) = true.
Proof.
  unfold escape_char. cbn [negb].
  repeat match goal with
         | |- context [if ?b then _ else _] => destruct b eqn:?
         end;
    try reflexivity;
    repeat (rewrite ?forallb_app, ?hex_fixed_ascii; simpl);
    try reflexivity.
  simpl. unfold is_ascii. rewrite andb_true_r.
  match goal with
  | H : (c <? 127)%N = true |- _ => apply N.ltb_lt in H; apply N.ltb_lt; lia
  end.
Qed.

Lemma encode_str_ascii (s : str) : forallb is_ascii (encode_str true s) = true.
Proof.
  unfold encode_str. simpl. rewrite forallb_app. simpl.
  rewrite andb_true_r.
  induction s as [|c s IH]; simpl; [reflexivity|].
  rewrite forallb_app, escape_char_ascii, IH. reflexivity.
Qed.

Lemma utf8_encode_ascii (s : str) :
  forallb is_ascii s = true -> utf8_encode s = Some s.
Proof.
  induction s as [|c s IH]; simpl; [reflexivity|].
  intros H. apply andb_true_iff in H. destruct H as [Hc Hs].
  rewrite (IH Hs). unfold utf8_encode_cp.
  unfold is_ascii in Hc. rewrite Hc. reflexivity.
Qed.

Lemma request_bytes_ascii (t : str) : forallb is_ascii (request_bytes t) = true.
Proof.
  unfold request_bytes, payload.
  cbn [encode List.map join fst snd].
  repeat rewrite forallb_app.
  rewrite !encode_str_ascii.
  reflexivity.
Qed.

Lemma encode_utf8_request (t : str) :
  encode_utf8 (encode true (payload t)) = Ok (request_bytes t).
Proof.
  unfold encode_utf8. fold (request_bytes t).
  rewrite (utf8_encode_ascii _ (request_bytes_ascii t)). reflexivity.
Qed.

(** *** [json.loads] never runs out of budget *)

Lemma skip_ws_length (s : str) : List.length (skip_ws s) <= List.length s.
Proof.
  induction s as [|c s IH]; simpl; [lia|].
  destruct (is_ws c); simpl; lia.
Qed.

Lemma span_digits_length (s ds r : str) :
  span_digits s = (ds, r) -> List.length r <= List.length s.
Proof.
  revert ds r. induction s as [|c s IH]; simpl; intros ds r H.
  - injection H as <- <-. simpl. lia.
  - destruct (is_digit c).
    + destruct (span_digits s) as [ds' r'] eqn:E.
      injection H as <- <-. specialize (IH _ _ eq_refl). lia.
    + injection H as <- <-. simpl. lia.
Qed.

Lemma starts_with_length (c : codepoint) (s r : str) :
  starts_with c s = Some r -> List.length s = S (List.length r).
Proof.
  destruct s as [|x s]; simpl; [discriminate|].
  destruct (x =? c)%N; [|discriminate].
  intros H. injection H as ->. reflexivity.
Qed.

Lemma strip_prefix_length (p s r : str) :
  strip_prefix p s = Some r ->
  List.length r + List.length p = List.length s.
Proof.
  revert s r. induction p as [|x p IH]; intros s r H; simpl in *.
  - injection H as ->. lia.
  - destruct s as [|y s]; [discriminate|].
    destruct (x =? y)%N; [|discriminate].
    specialize (IH _ _ H). simpl. lia.
Qed.

Lemma number_sign_length (s sign r : str) :
  number_sign s = (sign, r) -> List.length r <= List.length s.
Proof.
  unfold number_sign.
  destruct (starts_with 45%N s) as [r'|] eqn:E; intros H; injection H as <- <-.
  - apply starts_with_length in E. lia.
  - lia.
Qed.

Lemma number_int_length (s ds r : str) :
  number_int s = Some (ds, r) -> List.length r < List.length s.
Proof.
  unfold number_int. destruct s as [|c s]; [discriminate|].
  destruct (is_digit c); [|discriminate].
  destruct (c =? 48)%N.
  - intros H. injection H as <- <-. simpl. lia.
  - destruct (span_digits s) as [ds' r'] eqn:E.
    intros H. injection H as <- <-.
    apply span_digits_length in E. simpl. lia.
Qed.

Lemma number_frac_length (s frac r : str) :
  number_frac s = (frac, r) -> List.length r <= List.length s.
Proof.
  unfold number_frac.
  destruct (starts_with 46%N s) as [[|d r']|] eqn:E;
    try (intros H; injection H as <- <-; lia).
  destruct (is_digit d); [|intros H; injection H as <- <-; lia].
  destruct (span_digits r') as [ds r''] eqn:E'.
  intros H. injection H as <- <-.
  apply starts_with_length in E. apply span_digits_length in E'.
  simpl in E. lia.
Qed.

Lemma number_exp_length (s expo r : str) :
  number_exp s = (expo, r) -> List.length r <= List.length s.
Proof.
  unfold number_exp.
  destruct s as [|e s]; [intros H; injection H as <- <-; lia|].
  destruct ((e =? 101) || (e =? 69))%N;
    [|intros H; injection H as <- <-; lia].
  assert (Hsign : forall esign r',
             match s with
             | x :: r'' =>
                 if ((x =? 43) || (x =? 45))%N then ([x], r'') else ([], s)
             | [] => ([], s)
             end = (esign, r') -> List.length r' <= List.length s).
  { intros esign r'.
    destruct s as [|x s']; [intros H; injection H as <- <-; lia|].
    destruct ((x =? 43) || (x =? 45))%N; intros H; injection H as <- <-;
      simpl; lia. }
  destruct (match s with
            | x :: r'' =>
                if ((x =? 43) || (x =? 45))%N then ([x], r'') else ([], s)
            | [] => ([], s)
            end) as [esign r'].
  specialize (Hsign _ _ eq_refl).
  destruct (span_digits r') as [[|d ds] r''] eqn:E';
    intros H; injection H as <- <-; [lia|].
  apply span_digits_length in E'. simpl. lia.
Qed.

Lemma match_number_length (fl : str -> str) (s r : str) (v : value) :
  match_number fl s = Scanned v r -> List.length r < List.length s.
Proof.
  unfold match_number.
  destruct (number_sign s) as [sign s1] eqn:E1.
  destruct (number_int s1) as [[int_part r1]|] eqn:E2; [|discriminate].
  destruct (number_frac r1) as [frac r2] eqn:E3.
  destruct (number_exp r2) as [expo r3] eqn:E4.
  apply number_sign_length in E1. apply number_int_length in E2.
  apply number_frac_length in E3. apply number_exp_length in E4.
  destruct frac, expo;
    try destruct (int_max_str_digits <? List.length int_part)%nat;
    intros H; try discriminate; injection H as <- <-; lia.
Qed.

(** The number scanner is stopped by an integer of too many digits only. *)
Lemma match_number_failed (fl : str -> str) (s : str) (e : exn) :
  match_number fl s = Failed e -> limit_error e.
Proof.
  unfold match_number.
  destruct (number_sign s) as [sign s1].
  destruct (number_int s1) as [[int_part r1]|]; [|discriminate].
  destruct (number_frac r1) as [frac r2].
  destruct (number_exp r2) as [expo r3].
  destruct frac, expo; try discriminate.
  destruct (int_max_str_digits <? List.length int_part)%nat eqn:E;
    [|discriminate].
  intros H. injection H as <-. right. right.
  exists (List.length int_part). split; [|reflexivity].
  apply Nat.ltb_lt. exact E.
Qed.

Lemma scanstring_length (n : nat) :
  forall s acc t r,
    List.length s <= n ->
    scanstring s acc = Some (t, r) -> List.length r < List.length s.
Proof.
  induction n as [|n IH]; intros s acc t r Hn H.
  - destruct s; [discriminate | simpl in Hn; lia].
  - destruct s as [|c s]; [discriminate|].
    simpl in Hn. cbn [scanstring] in H.
    destruct (c =? 34)%N.
    { injection H as <- <-. simpl. lia. }
    destruct (c =? 92)%N.
    2:{ destruct (c <? 32)%N; [discriminate|].
        apply IH in H; simpl; lia. }
    destruct s as [|e s]; [discriminate|]. simpl in Hn.
    destruct (e =? 117)%N.
    2:{ repeat match type of H with
               | (if ?b then _ else _) = _ => destruct b
               end;
          try discriminate; apply IH in H; simpl; lia. }
    destruct s as [|h1 [|h2 [|h3 [|h4 s]]]]; try discriminate.
    simpl in Hn.
    destruct (hex4 h1 h2 h3 h4) as [u|]; [|discriminate].
    destruct (is_high_surrogate u).
    2:{ apply IH in H; simpl; lia. }
    destruct (low_surrogate_escape s) as [u2|].
    2:{ apply IH in H; simpl; lia. }
    destruct s as [|a1 [|a2 [|a3 [|a4 [|a5 [|a6 s]]]]]];
      try (apply IH in H; simpl in *; lia).
Qed.

(** Whatever the budget, a scanned value leaves a proper suffix. *)
Lemma scan_progress (fl : str -> str) (fuel : nat) :
  (forall depth s v r,
      scan_once fl fuel depth s = Scanned v r ->
      List.length r < List.length s)
  /\ (forall depth s acc v r,
        parse_elements fl fuel depth s acc = Scanned v r ->
        List.length r < List.length s)
  /\ (forall depth s acc v r,
        parse_members fl fuel depth s acc = Scanned v r ->
        List.length r < List.length s).
Proof.
  induction fuel as [|fuel (IHs & IHe & IHm)].
  - repeat split; intros; discriminate.
  - split; [|split].
    + intros depth s v r H. cbn [scan_once] in H.
      destruct s as [|c s]; [discriminate|].
      destruct (c =? 34)%N.
      { destruct (scanstring s []) as [[t r']|] eqn:E; [|discriminate].
        injection H as <- <-.
        apply (scanstring_length (List.length s)) in E; simpl; lia. }
      destruct (c =? 123)%N.
      { destruct depth as [|depth]; [discriminate|].
        pose proof (skip_ws_length s).
        destruct (starts_with 125%N (skip_ws s)) as [r'|] eqn:E.
        - injection H as <- <-. apply starts_with_length in E. simpl. lia.
        - apply IHm in H. simpl. lia. }
      destruct (c =? 91)%N.
      { destruct depth as [|depth]; [discriminate|].
        pose proof (skip_ws_length s).
        destruct (starts_with 93%N (skip_ws s)) as [r'|] eqn:E.
        - injection H as <- <-. apply starts_with_length in E. simpl. lia.
        - apply IHe in H. simpl. lia. }
      repeat match type of H with
             | match strip_prefix ?p ?x with _ => _ end = _ =>
                 let E := fresh "E" in
                 destruct (strip_prefix p x) as [?r|] eqn:E;
                   [injection H as <- <-;
                    apply strip_prefix_length in E; simpl in E; simpl; lia|]
             end.
      apply match_number_length in H. exact H.
    + intros depth s acc v r H. cbn [parse_elements] in H.
      destruct (scan_once fl fuel depth s) as [v' r'| | |] eqn:E;
        try discriminate.
      apply IHs in E. pose proof (skip_ws_length r').
      destruct (starts_with 93%N (skip_ws r')) as [r1|] eqn:E1.
      { injection H as <- <-. apply starts_with_length in E1. lia. }
      destruct (starts_with 44%N (skip_ws r')) as [r1|] eqn:E2;
        [|discriminate].
      apply IHe in H. apply starts_with_length in E2.
      pose proof (skip_ws_length r1). lia.
    + intros depth s acc v r H. cbn [parse_members] in H.
      destruct (starts_with 34%N s) as [r0|] eqn:E0; [|discriminate].
      destruct (scanstring r0 []) as [[k r1]|] eqn:E1; [|discriminate].
      destruct (starts_with 58%N (skip_ws r1)) as [r2|] eqn:E2; [|discriminate].
      destruct (scan_once fl fuel depth (skip_ws r2)) as [v' r3| | |] eqn:E3;
        try discriminate.
      apply starts_with_length in E0, E2.
      apply (scanstring_length (List.length r0)) in E1; [|lia].
      apply IHs in E3.
      pose proof (skip_ws_length r1). pose proof (skip_ws_length r2).
      pose proof (skip_ws_length r3).
      destruct (starts_with 125%N (skip_ws r3)) as [r4|] eqn:E4.
      { injection H as <- <-. apply starts_with_length in E4. lia. }
      destruct (starts_with 44%N (skip_ws r3)) as [r4|] eqn:E5;
        [|discriminate].
      apply IHm in H. apply starts_with_length in E5.
      pose proof (skip_ws_length r4). lia.
Qed.

(** A budget of twice the length of the input (and one or two more) is
    never used up. *)
Lemma scan_budget (fl : str -> str) (fuel : nat) :
  (forall depth s,
      2 * List.length s + 1 <= fuel -> scan_once fl fuel depth s <> Exhausted)
  /\ (forall depth s acc,
        2 * List.length s + 2 <= fuel ->
        parse_elements fl fuel depth s acc <> Exhausted)
  /\ (forall depth s acc,
        2 * List.length s + 2 <= fuel ->
        parse_members fl fuel depth s acc <> Exhausted).
Proof.
  induction fuel as [|fuel (IHs & IHe & IHm)].
  - repeat split; intros; lia.
  - split; [|split].
    + intros depth s Hf. cbn [scan_once].
      destruct s as [|c s]; [discriminate|]. simpl in Hf.
      destruct (c =? 34)%N.
      { destruct (scanstring s []) as [[t r']|]; discriminate. }
      pose proof (skip_ws_length s).
      destruct (c =? 123)%N.
      { destruct depth as [|depth]; [discriminate|].
        destruct (starts_with 125%N (skip_ws s)); [discriminate|].
        apply IHm. lia. }
      destruct (c =? 91)%N.
      { destruct depth as [|depth]; [discriminate|].
        destruct (starts_with 93%N (skip_ws s)); [discriminate|].
        apply IHe. lia. }
      repeat match goal with
             | |- match strip_prefix ?p ?x with _ => _ end <> _ =>
                 destruct (strip_prefix p x); [discriminate|]
             end.
      unfold match_number.
      destruct (number_sign (c :: s)) as [sign s1].
      destruct (number_int s1) as [[int_part r1]|]; [|discriminate].
      destruct (number_frac r1) as [frac r2].
      destruct (number_exp r2) as [expo r3].
      destruct frac, expo;
        try destruct (int_max_str_digits <? List.length int_part)%nat;
        discriminate.
    + intros depth s acc Hf. cbn [parse_elements].
      destruct (scan_once fl fuel depth s) as [v' r'| | |] eqn:E;
        try discriminate.
      * apply (proj1 (scan_progress fl fuel)) in E.
        pose proof (skip_ws_length r').
        destruct (starts_with 93%N (skip_ws r')); [discriminate|].
        destruct (starts_with 44%N (skip_ws r')) as [r1|] eqn:E2;
          [|discriminate].
        apply starts_with_length in E2. pose proof (skip_ws_length r1).
        apply IHe. lia.
      * exfalso. revert E. apply IHs. lia.
    + intros depth s acc Hf. cbn [parse_members].
      destruct (starts_with 34%N s) as [r0|] eqn:E0; [|discriminate].
      destruct (scanstring r0 []) as [[k r1]|] eqn:E1; [|discriminate].
      destruct (starts_with 58%N (skip_ws r1)) as [r2|] eqn:E2; [|discriminate].
      apply starts_with_length in E0, E2.
      apply (scanstring_length (List.length r0)) in E1; [|lia].
      pose proof (skip_ws_length r1). pose proof (skip_ws_length r2).
      destruct (scan_once fl fuel depth (skip_ws r2)) as [v' r3| | |] eqn:E3;
        try discriminate.
      * apply (proj1 (scan_progress fl fuel)) in E3.
        pose proof (skip_ws_length r3).
        destruct (starts_with 125%N (skip_ws r3)); [discriminate|].
        destruct (starts_with 44%N (skip_ws r3)) as [r4|] eqn:E5;
          [|discriminate].
        apply starts_with_length in E5. pose proof (skip_ws_length r4).
        apply IHm. lia.
      * exfalso. revert E3. apply IHs. lia.
Qed.

(** What stops the scanner is a limit of the interpreter: a list or dict
    nested too deep, or an integer of too many digits. *)
Lemma scan_failed (fl : str -> str) (fuel : nat) :
  (forall depth s e, scan_once fl fuel depth s = Failed e -> limit_error e)
  /\ (forall depth s acc e,
        parse_elements fl fuel depth s acc = Failed e -> limit_error e)
  /\ (forall depth s acc e,
        parse_members fl fuel depth s acc = Failed e -> limit_error e).
Proof.
  induction fuel as [|fuel (IHs & IHe & IHm)].
  - repeat split; intros; discriminate.
  - split; [|split].
    + intros depth s e H. cbn [scan_once] in H.
      destruct s as [|c s]; [discriminate|].
      destruct (c =? 34)%N.
      { destruct (scanstring s []) as [[t r']|]; discriminate. }
      destruct (c =? 123)%N.
      { destruct depth as [|depth].
        - injection H as <-. left. reflexivity.
        - destruct (starts_with 125%N (skip_ws s)); [discriminate|].
          apply IHm in H. exact H. }
      destruct (c =? 91)%N.
      { destruct depth as [|depth].
        - injection H as <-. right. left. reflexivity.
        - destruct (starts_with 93%N (skip_ws s)); [discriminate|].
          apply IHe in H. exact H. }
      repeat match type of H with
             | match strip_prefix ?p ?x with _ => _ end = _ =>
                 destruct (strip_prefix p x); [discriminate|]
             end.
      apply match_number_failed in H. exact H.
    + intros depth s acc e H. cbn [parse_elements] in H.
      destruct (scan_once fl fuel depth s) as [v' r'| |e'|] eqn:E;
        try discriminate.
      * destruct (starts_with 93%N (skip_ws r')); [discriminate|].
        destruct (starts_with 44%N (skip_ws r')); [|discriminate].
        apply IHe in H. exact H.
      * injection H as <-. apply IHs in E. exact E.
    + intros depth s acc e H. cbn [parse_members] in H.
      destruct (starts_with 34%N s) as [r0|]; [|discriminate].
      destruct (scanstring r0 []) as [[k r1]|]; [|discriminate].
      destruct (starts_with 58%N (skip_ws r1)) as [r2|]; [|discriminate].
      destruct (scan_once fl fuel depth (skip_ws r2)) as [v' r3| |e'|] eqn:E3;
        try discriminate.
      * destruct (starts_with 125%N (skip_ws r3)); [discriminate|].
        destruct (starts_with 44%N (skip_ws r3)); [|discriminate].
        apply IHm in H. exact H.
      * injection H as <-. apply IHs in E3. exact E3.
Qed.

(** An exception of a limit is no [JSONDecodeError]. *)
Lemma limit_error_class (e : exn) :
  limit_error e -> String.eqb (exn_class e) "JSONDecodeError" = false.
Proof.
  intros [-> | [-> | (count & _ & ->)]]; reflexivity.
Qed.

Section Outcomes.

Context {limits : Limits}.
Variable fl : str -> str.

(** [json.loads] returns a value, raises [JSONDecodeError], or raises the
    exception of a limit; the budget of its scanner plays no part. *)
Lemma json_loads_never_exhausted (s : str) :
  (exists v, json_loads fl s = Ok v)
  \/ json_loads fl s = Raise JSONDecodeError
  \/ (exists e, json_loads fl s = Raise e /\ limit_error e).
Proof.
  unfold json_loads.
  destruct (starts_with 65279%N s); [right; left; reflexivity|].
  destruct (scan_once fl (2 * List.length s + 1) depth_in_callee (skip_ws s))
    as [v r| |e|] eqn:E.
  - destruct (skip_ws r);
      [left; exists v; reflexivity | right; left; reflexivity].
  - right; left; reflexivity.
  - right; right. exists e. split; [reflexivity|].
    exact (proj1 (scan_failed fl _) _ _ _ E).
  - exfalso. revert E. apply (proj1 (scan_budget fl _)).
    pose proof (skip_ws_length s). lia.
Qed.

(** Line 42 catches the [JSONDecodeError] and nothing else. *)
Lemma loads_or_empty_outcomes (s : str) :
  (exists v, loads_or_empty fl s = Ok v)
  \/ (exists e,
         loads_or_empty fl s = Raise e
         /\ json_loads fl s = Raise e /\ limit_error e).
Proof.
  unfold loads_or_empty.
  destruct (json_loads_never_exhausted s) as [[v ->] | [-> | (e & -> & He)]].
  - left. exists v. reflexivity.
  - left. exists (VDict []). reflexivity.
  - right. exists e. rewrite (limit_error_class e He).
    split; [reflexivity | split; [reflexivity | exact He]].
Qed.

(** [_parse_body] returns, or raises what [json.loads] raised at line 41 on
    a [str] body: the exception of a limit. *)
Lemma parse_body_outcomes (event : value) :
  (exists v, _parse_body fl event = Ok v)
  \/ (exists d s raw e,
         event = VDict d
         /\ dict_lookup (lit "body") d = Some (VStr s)
         /\ decode_body d (VStr s) = Some (VStr raw)
         /\ json_loads fl raw = Raise e
         /\ limit_error e
         /\ _parse_body fl event = Raise e).
Proof.
  unfold _parse_body.
  destruct event as [| | | | | |d]; try (left; eexists; reflexivity).
  destruct (dict_lookup (lit "body") d) as [raw0|] eqn:Hbody;
    [|left; eexists; reflexivity].
  destruct (decode_body d raw0) as [[| | | |raw| |]|] eqn:Hdec;
    try (left; eexists; reflexivity).
  destruct (loads_or_empty_outcomes raw) as [[v ->] | (e & -> & Hloads & He)].
  - left. exists v. reflexivity.
  - right.
    assert (Hraw0 : exists s, raw0 = VStr s).
    { destruct raw0 as [| | | |s| |]; cbn [decode_body] in Hdec;
        try (injection Hdec as Hdec; discriminate).
      exists s. reflexivity. }
    destruct Hraw0 as [s ->].
    exists d, s, raw, e. repeat split; assumption.
Qed.

End Outcomes.

(** *** [json.loads] reads back what [json.dumps] wrote *)

Lemma hex_value_hex_digit (d : N) :
  (d < 16)%N -> hex_value (hex_digit d) = Some d.
Proof.
  intros H. unfold hex_value, hex_digit, is_digit.
  destruct (d <? 10)%N eqn:E.
  - apply N.ltb_lt in E.
    replace (48 <=? 48 + d)%N with true by (symmetry; apply N.leb_le; lia).
    replace (48 + d <=? 57)%N with true by (symmetry; apply N.leb_le; lia).
    cbn [andb]. f_equal. lia.
  - apply N.ltb_ge in E.
    replace (48 <=? 87 + d)%N with true by (symmetry; apply N.leb_le; lia).
    replace (87 + d <=? 57)%N with false by (symmetry; apply N.leb_gt; lia).
    replace (97 <=? 87 + d)%N with true by (symmetry; apply N.leb_le; lia).
    replace (87 + d <=? 102)%N with true by (symmetry; apply N.leb_le; lia).
    cbn [andb]. f_equal. lia.
Qed.

(** The four digits [hex_fixed 4] writes. *)
Lemma hex_fixed_4 (n : N) :
  hex_fixed 4 n =
  [hex_digit ((n / 4096) mod 16); hex_digit ((n / 256) mod 16);
   hex_digit ((n / 16) mod 16); hex_digit (n mod 16)]%N.
Proof.
  cbn [hex_fixed app].
  rewrite !N.Div0.div_div.
  reflexivity.
Qed.

Lemma hex4_digits (n : N) :
  (n < 65536)%N ->
  hex4 (hex_digit ((n / 4096) mod 16)) (hex_digit ((n / 256) mod 16))
       (hex_digit ((n / 16) mod 16)) (hex_digit (n mod 16)) = Some n.
Proof.
  intros H. unfold hex4.
  rewrite !hex_value_hex_digit by (apply N.mod_lt; discriminate).
  f_equal.
  assert (n / 4096 < 16)%N by (apply N.Div0.div_lt_upper_bound; lia).
  rewrite (N.mod_small (n / 4096) 16) by assumption.
  pose proof (N.div_mod n 16 ltac:(discriminate)).
  pose proof (N.div_mod (n / 16) 16 ltac:(discriminate)).
  pose proof (N.div_mod (n / 16 / 16) 16 ltac:(discriminate)).
  rewrite !N.Div0.div_div in *.
  change (16 * 16)%N with 256%N in *.
  change (256 * 16)%N with 4096%N in *.
  lia.
Qed.

(** Scanning one escaped character gives the character back, provided a
    high surrogate is not followed by an escaped low one. *)
Lemma scanstring_escaped_char (c : codepoint) (R acc : str) :
  (c < 1114112)%N ->
  (is_high_surrogate c = true -> low_surrogate_escape R = None) ->
  scanstring (escape_char true c ++ R) acc = scanstring R (c :: acc).
Proof.
  intros Hc Hnext. unfold escape_char. cbn [negb].
  destruct (c =? 34)%N eqn:E34.
  { apply N.eqb_eq in E34. subst c. reflexivity. }
  destruct (c =? 92)%N eqn:E92.
  { apply N.eqb_eq in E92. subst c. reflexivity. }
  destruct (c =? 10)%N eqn:E10.
  { apply N.eqb_eq in E10. subst c. reflexivity. }
  destruct (c =? 13)%N eqn:E13.
  { apply N.eqb_eq in E13. subst c. reflexivity. }
  destruct (c =? 9)%N eqn:E9.
  { apply N.eqb_eq in E9. subst c. reflexivity. }
  destruct (c =? 8)%N eqn:E8.
  { apply N.eqb_eq in E8. subst c. reflexivity. }
  destruct (c =? 12)%N eqn:E12.
  { apply N.eqb_eq in E12. subst c. reflexivity. }
  assert (Hu : forall u more,
             (u < 65536)%N ->
             scanstring (lit "\u" ++ hex_fixed 4 u ++ more) acc =
             if is_high_surrogate u then
               match low_surrogate_escape more, more with
               | Some u2, _ :: _ :: _ :: _ :: _ :: _ :: r3 =>
                   scanstring r3
                     ((65536 + (u - 55296) * 1024 + (u2 - 56320))%N :: acc)
               | _, _ => scanstring more (u :: acc)
               end
             else scanstring more (u :: acc)).
  { intros u more Hlt. rewrite hex_fixed_4. eval_lits.
    cbn [app scanstring N.eqb Pos.eqb].
    rewrite (hex4_digits u Hlt). reflexivity. }
  destruct (c <? 32)%N eqn:E32.
  { apply N.ltb_lt in E32. rewrite <- !app_assoc, Hu by lia.
    replace (is_high_surrogate c) with false; [reflexivity|].
    symmetry. unfold is_high_surrogate. apply andb_false_iff. left.
    apply N.leb_gt. lia. }
  destruct (c <? 127)%N eqn:E127.
  { cbn [app scanstring]. rewrite E34, E92, E32. reflexivity. }
  destruct (c <? 65536)%N eqn:E64k.
  { apply N.ltb_lt in E64k. rewrite <- !app_assoc, Hu by lia.
    destruct (is_high_surrogate c) eqn:Eh; [|reflexivity].
    rewrite (Hnext eq_refl). reflexivity. }
  apply N.ltb_ge in E64k.
  remember (c - 65536)%N as v eqn:Ev.
  assert (Hv : (v < 1048576)%N) by lia.
  pose proof (N.div_mod v 1024 ltac:(discriminate)) as Hdm.
  assert (Hq : (v / 1024 < 1024)%N)
    by (apply N.Div0.div_lt_upper_bound; lia).
  assert (Hr : (v mod 1024 < 1024)%N) by (apply N.mod_lt; discriminate).
  remember (v / 1024)%N as q eqn:Eq.
  remember (v mod 1024)%N as r eqn:Er.
  rewrite <- !app_assoc. rewrite Hu by lia.
  replace (is_high_surrogate (55296 + q)%N) with true
    by (symmetry; unfold is_high_surrogate; apply andb_true_iff; split;
        apply N.leb_le; lia).
  assert (Hlow : low_surrogate_escape
                   (lit "\u" ++ hex_fixed 4 (56320 + r)%N ++ R)
                 = Some (56320 + r)%N).
  { rewrite hex_fixed_4. eval_lits.
    unfold low_surrogate_escape.
    cbn [app starts_with N.eqb Pos.eqb].
    rewrite hex4_digits by lia.
    replace (is_low_surrogate (56320 + r)%N) with true; [reflexivity|].
    symmetry. unfold is_low_surrogate. apply andb_true_iff. split;
      apply N.leb_le; lia. }
  rewrite Hlow. rewrite hex_fixed_4. eval_lits. cbn [app].
  f_equal. f_equal. lia.
Qed.

(** An escaped character that is not a low surrogate does not read as the
    second half of a pair; nor does the closing quote. *)
Lemma low_surrogate_escape_after_char (c : codepoint) (R : str) :
  (c < 1114112)%N ->
  is_low_surrogate c = false ->
  low_surrogate_escape (escape_char true c ++ R) = None.
Proof.
  intros Hc Hlow. unfold escape_char. cbn [negb].
  assert (Hu : forall u more,
             (u < 65536)%N -> is_low_surrogate u = false ->
             low_surrogate_escape (lit "\u" ++ hex_fixed 4 u ++ more) = None).
  { intros u more Hlt Hu. rewrite hex_fixed_4. eval_lits.
    unfold low_surrogate_escape. cbn [app starts_with N.eqb Pos.eqb].
    rewrite (hex4_digits u Hlt), Hu. reflexivity. }
  repeat match goal with
         | |- context [if (c =? ?k)%N then _ else _] =>
             let E := fresh "E" in
             destruct (c =? k)%N eqn:E; [reflexivity|]
         end.
  destruct (c <? 32)%N eqn:E32.
  { apply N.ltb_lt in E32. rewrite <- !app_assoc.
    apply Hu; [lia | exact Hlow]. }
  destruct (c <? 127)%N eqn:E127.
  { unfold low_surrogate_escape. cbn [app starts_with].
    match goal with
    | H : (c =? 92)%N = false |- _ => rewrite H
    end.
    reflexivity. }
  destruct (c <? 65536)%N eqn:E64k.
  { apply N.ltb_lt in E64k. rewrite <- !app_assoc. apply Hu; assumption. }
  apply N.ltb_ge in E64k.
  assert (Hq : ((c - 65536) / 1024 < 1024)%N)
    by (apply N.Div0.div_lt_upper_bound; lia).
  remember ((c - 65536) / 1024)%N as q eqn:Eq.
  rewrite <- !app_assoc. apply Hu; [lia|].
  unfold is_low_surrogate. apply andb_false_iff. left. apply N.leb_gt. lia.
Qed.

Lemma scanstring_escaped (t rest : str) :
  well_formed t = true ->
  forall acc,
    scanstring (flat_map (escape_char true) t ++ dquote :: rest) acc
    = Some (rev acc ++ t, rest).
Proof.
  induction t as [|c t IH]; intros Hwf acc.
  - cbn. rewrite app_nil_r. reflexivity.
  - cbn [well_formed] in Hwf.
    apply andb_true_iff in Hwf. destruct Hwf as [Hwf Ht].
    apply andb_true_iff in Hwf. destruct Hwf as [Hc Hpair].
    apply N.ltb_lt in Hc.
    cbn [flat_map]. rewrite <- app_assoc.
    rewrite scanstring_escaped_char; [|exact Hc|].
    + rewrite (IH Ht). cbn [rev]. rewrite <- app_assoc. reflexivity.
    + intros Hhigh. rewrite Hhigh in Hpair. cbn [andb] in Hpair.
      destruct t as [|c' t']; [reflexivity|].
      cbn [flat_map]. rewrite <- app_assoc.
      apply low_surrogate_escape_after_char.
      * cbn [well_formed] in Ht.
        apply andb_true_iff in Ht. destruct Ht as [Ht _].
        apply andb_true_iff in Ht. destruct Ht as [Ht _].
        apply N.ltb_lt. exact Ht.
      * destruct (is_low_surrogate c'); [discriminate | reflexivity].
Qed.

(** The JSON text of [{"inputs": t}] spelled out. *)
Lemma encode_inputs_object (t : str) :
  encode true (VDict [(lit "inputs", VStr t)]) =
  (123 :: 34 :: lit "inputs" ++ 34 :: 58 :: 32 :: 34
       :: flat_map (escape_char true) t ++ [34; 125])%N.
Proof.
  cbn [encode List.map join fst snd]. unfold encode_str, dquote.
  eval_lits.
  match goal with
  | |- context [flat_map (escape_char true) (105%N :: ?k)] =>
      let v := eval vm_compute in (flat_map (escape_char true) (105%N :: k)) in
      change (flat_map (escape_char true) (105%N :: k)) with v
  end.
  cbn [app]. rewrite <- !app_assoc. reflexivity.
Qed.

Lemma json_loads_inputs_object {limits : Limits} (fl : str -> str)
    (t : str) :
  well_formed t = true ->
  json_loads fl (encode true (VDict [(lit "inputs", VStr t)]))
  = Ok (VDict [(lit "inputs", VStr t)]).
Proof.
  intros Hwf. rewrite encode_inputs_object. eval_lits.
  unfold json_loads, depth_in_callee.
  cbn [app starts_with skip_ws is_ws N.eqb Pos.eqb orb].
  remember (2 * List.length _ + 1) as fuel eqn:Ef.
  assert (Hfuel : 3 <= fuel) by (subst fuel; cbn [List.length]; lia).
  destruct fuel as [|[|[|fuel]]]; try lia. clear Ef Hfuel.
  cbn [scan_once parse_members starts_with skip_ws is_ws scanstring
         N.eqb Pos.eqb N.ltb N.compare Pos.compare Pos.compare_cont
         orb rev app].
  change (34%N :: 125%N :: nil) with (dquote :: [125%N]).
  rewrite (scanstring_escaped t [125%N] Hwf).
  cbn [skip_ws is_ws starts_with N.eqb Pos.eqb orb rev app dict_set].
  reflexivity.
Qed.

(** *** [b64decode] reads back what [b64encode] wrote *)

Lemma below_64 (v : N) : (v < 64)%N -> In v (List.map N.of_nat (seq 0 64)).
Proof.
  intros H. apply in_map_iff. exists (N.to_nat v). split.
  - apply N2Nat.id.
  - apply in_seq. lia.
Qed.

(** The alphabet, value by value: a character of it is neither the pad nor
    outside ASCII, and has its value back. *)
Lemma b64_char_spec (v : N) :
  (v < 64)%N ->
  (b64_char v =? 61)%N = false
  /\ (b64_char v <? 128)%N = true
  /\ b64_value (b64_char v) = Some v.
Proof.
  intros H.
  assert (Hall : forallb
                   (fun v =>
                      negb (b64_char v =? 61)%N && (b64_char v <? 128)%N
                      && match b64_value (b64_char v) with
                         | Some v' => (v' =? v)%N
                         | None => false
                         end)
                   (List.map N.of_nat (seq 0 64)) = true)
    by (vm_compute; reflexivity).
  rewrite forallb_forall in Hall. specialize (Hall v (below_64 v H)).
  apply andb_true_iff in Hall. destruct Hall as [Hall Hval].
  apply andb_true_iff in Hall. destruct Hall as [Hpad Hascii].
  repeat split.
  - destruct (b64_char v =? 61)%N; [discriminate | reflexivity].
  - exact Hascii.
  - destruct (b64_value (b64_char v)) as [v'|]; [|discriminate].
    apply N.eqb_eq in Hval. subst. reflexivity.
Qed.

(** One character of the alphabet moves the decoder one place in its
    quad. *)
Lemma a2b_base64_char (v : N) (s : list N) (quad_pos : nat) (leftchar : N)
    (pads : nat) (acc : bytes) :
  (v < 64)%N ->
  a2b_base64 (b64_char v :: s) quad_pos leftchar pads acc =
  match quad_pos with
  | 0 => a2b_base64 s 1 v 0 acc
  | 1 => a2b_base64 s 2 (v mod 16)%N 0 ((leftchar * 4 + v / 16)%N :: acc)
  | 2 => a2b_base64 s 3 (v mod 4)%N 0 ((leftchar * 16 + v / 4)%N :: acc)
  | _ => a2b_base64 s 0 0%N 0 ((leftchar * 64 + v)%N :: acc)
  end.
Proof.
  intros H. destruct (b64_char_spec v H) as (Hpad & _ & Hval).
  cbn [a2b_base64]. rewrite Hpad, Hval. reflexivity.
Qed.

Lemma list_ind3 (A : Type) (P : list A -> Prop) :
  P [] ->
  (forall x, P [x]) ->
  (forall x y, P [x; y]) ->
  (forall x y z l, P l -> P (x :: y :: z :: l)) ->
  forall l, P l.
Proof.
  intros H0 H1 H2 H3 l.
  assert (H : P l /\ (forall x, P (x :: l)) /\ (forall x y, P (x :: y :: l))).
  { induction l as [|a l (IH0 & IH1 & IH2)].
    - repeat split; auto.
    - repeat split; auto. }
  exact (proj1 H).
Qed.

Lemma a2b_base64_encoded (b : bytes) :
  forallb is_byte b = true ->
  forall acc, a2b_base64 (b64encode b) 0 0%N 0 acc = Ok (rev acc ++ b).
Proof.
  induction b as [|x|x y|x y z b IH] using list_ind3; intros Hb acc.
  - cbn. rewrite app_nil_r. reflexivity.
  - cbn [forallb] in Hb. rewrite andb_true_r in Hb. apply N.ltb_lt in Hb.
    cbn [b64encode].
    rewrite !a2b_base64_char by div_lia.
    cbn. do 2 f_equal. f_equal. div_lia.
  - cbn [forallb] in Hb. rewrite andb_true_r in Hb.
    apply andb_true_iff in Hb. destruct Hb as [Hx Hy].
    apply N.ltb_lt in Hx, Hy.
    cbn [b64encode].
    rewrite !a2b_base64_char by div_lia.
    cbn. rewrite <- app_assoc. cbn. do 2 f_equal. f_equal; [|f_equal]; div_lia.
  - cbn [forallb] in Hb.
    apply andb_true_iff in Hb. destruct Hb as [Hx Hb].
    apply andb_true_iff in Hb. destruct Hb as [Hy Hb].
    apply andb_true_iff in Hb. destruct Hb as [Hz Hb].
    apply N.ltb_lt in Hx, Hy, Hz.
    cbn [b64encode app].
    rewrite !a2b_base64_char by div_lia.
    rewrite (IH Hb). cbn [rev]. rewrite <- !app_assoc. cbn [app].
    do 2 f_equal. f_equal; [|f_equal; [|f_equal]]; div_lia.
Qed.

Lemma b64encode_ascii (b : bytes) :
  forallb is_byte b = true ->
  forallb (fun c => (c <? 128)%N) (b64encode b) = true.
Proof.
  assert (Hc : forall v, (v < 64)%N -> (b64_char v <? 128)%N = true)
    by (intros v Hv; apply (b64_char_spec v Hv)).
  induction b as [|x|x y|x y z b IH] using list_ind3; intros Hb.
  - reflexivity.
  - cbn [forallb] in Hb. rewrite andb_true_r in Hb. apply N.ltb_lt in Hb.
    cbn [b64encode forallb]. rewrite !Hc by div_lia. reflexivity.
  - cbn [forallb] in Hb. rewrite andb_true_r in Hb.
    apply andb_true_iff in Hb. destruct Hb as [Hx Hy].
    apply N.ltb_lt in Hx, Hy.
    cbn [b64encode forallb]. rewrite !Hc by div_lia. reflexivity.
  - cbn [forallb] in Hb.
    apply andb_true_iff in Hb. destruct Hb as [Hx Hb].
    apply andb_true_iff in Hb. destruct Hb as [Hy Hb].
    apply andb_true_iff in Hb. destruct Hb as [Hz Hb].
    apply N.ltb_lt in Hx, Hy, Hz.
    cbn [b64encode forallb app]. rewrite !Hc by div_lia.
    rewrite (IH Hb). reflexivity.
Qed.

Lemma b64decode_b64encode (b : bytes) :
  forallb is_byte b = true -> b64decode (b64encode b) = Ok b.
Proof.
  intros Hb. unfold b64decode.
  rewrite (b64encode_ascii b Hb).
  exact (a2b_base64_encoded b Hb []).
Qed.

Lemma utf8_decode_replace_ascii (s : str) :
  forallb is_ascii s = true -> utf8_decode_replace s = s.
Proof.
  induction s as [|c s IH]; [reflexivity|].
  cbn [forallb]. intros H. apply andb_true_iff in H. destruct H as [Hc Hs].
  cbn [utf8_decode_replace]. unfold is_ascii in Hc. rewrite Hc, (IH Hs).
  reflexivity.
Qed.

Lemma ascii_is_byte (s : str) :
  forallb is_ascii s = true -> forallb is_byte s = true.
Proof.
  induction s as [|c s IH]; [reflexivity|].
  cbn [forallb]. intros H. apply andb_true_iff in H. destruct H as [Hc Hs].
  rewrite (IH Hs), andb_true_r.
  unfold is_ascii in Hc. unfold is_byte.
  apply N.ltb_lt in Hc. apply N.ltb_lt. lia.
Qed.

Lemma encode_inputs_object_ascii (t : str) :
  forallb is_ascii (encode true (VDict [(lit "inputs", VStr t)])) = true.
Proof.
  cbn [encode List.map join fst snd].
  rewrite !forallb_app, !encode_str_ascii. reflexivity.
Qed.

(** *** What [str.strip] leaves *)

Lemma lstrip_blank (s : str) : forallb isspace s = true -> lstrip s = [].
Proof.
  induction s as [|c s IH]; [reflexivity|].
  cbn [forallb lstrip]. intros H. apply andb_true_iff in H.
  destruct H as [Hc Hs]. rewrite Hc. exact (IH Hs).
Qed.

Lemma lstrip_not_blank (s : str) :
  forallb isspace s = false ->
  exists c r, lstrip s = c :: r /\ isspace c = false.
Proof.
  induction s as [|c s IH]; [discriminate|].
  cbn [forallb lstrip]. intros H.
  destruct (isspace c) eqn:Hc.
  - apply IH. exact H.
  - exists c, s. split; [reflexivity | exact Hc].
Qed.

Lemma forallb_rev (A : Type) (f : A -> bool) (l : list A) :
  forallb f (rev l) = forallb f l.
Proof.
  induction l as [|a l IH]; [reflexivity|].
  cbn [rev forallb]. rewrite forallb_app, IH. cbn [forallb].
  rewrite andb_true_r. apply andb_comm.
Qed.

(** A text is empty once stripped exactly when all its characters are white
    space. *)
Lemma strip_truthy (t : str) :
  str_truthy (strip t) = negb (forallb isspace t).
Proof.
  unfold strip, rstrip.
  destruct (forallb isspace t) eqn:Hall.
  - rewrite (lstrip_blank t Hall). reflexivity.
  - destruct (lstrip_not_blank t Hall) as (c & r & -> & Hc).
    assert (Hrev : forallb isspace (rev (c :: r)) = false).
    { rewrite forallb_rev. cbn [forallb]. rewrite Hc. reflexivity. }
    destruct (lstrip_not_blank _ Hrev) as (c' & r' & -> & _).
    cbn [rev negb]. destruct (rev r'); reflexivity.
Qed.

(** *** Lookup after update *)

Lemma str_eqb_refl (a : str) : str_eqb a a = true.
Proof.
  induction a as [|x a IH]; [reflexivity|].
  cbn [str_eqb]. rewrite N.eqb_refl, IH. reflexivity.
Qed.

Lemma str_eqb_eq (a b : str) : str_eqb a b = true -> a = b.
Proof.
  revert b. induction a as [|x a IH]; intros [|y b] H; try discriminate.
  - reflexivity.
  - cbn [str_eqb] in H. apply andb_true_iff in H. destruct H as [Hx Hab].
    apply N.eqb_eq in Hx. rewrite Hx, (IH b Hab). reflexivity.
Qed.

Lemma dict_lookup_set_other (k k' : str) (v : value)
    (d : list (str * value)) :
  str_eqb k' k = false ->
  dict_lookup k' (dict_set k v d) = dict_lookup k' d.
Proof.
  intros Hk. induction d as [|[k0 v0] d IH]; cbn [dict_set dict_lookup].
  - rewrite Hk. reflexivity.
  - destruct (str_eqb k k0) eqn:E; cbn [dict_lookup].
    + destruct (str_eqb k' k0) eqn:E'; [|reflexivity].
      apply str_eqb_eq in E, E'. subst.
      rewrite str_eqb_refl in Hk. discriminate.
    + rewrite IH. reflexivity.
Qed.

Lemma dict_lookup_set_same (k : str) (v : value) (d : list (str * value)) :
  dict_lookup k (dict_set k v d) = Some v.
Proof.
  induction d as [|[k0 v0] d IH]; cbn [dict_set dict_lookup].
  - rewrite str_eqb_refl. reflexivity.
  - destruct (str_eqb k k0) eqn:E; cbn [dict_lookup]; rewrite E.
    + reflexivity.
    + exact IH.
Qed.

(** *** Reading back what [json.dumps] writes *)

Lemma int_of_digits_app (ds : str) (d : codepoint) :
  int_of_digits (ds ++ [d]) = (int_of_digits ds * 10 + Z.of_N (d - 48))%Z.
Proof.
  unfold int_of_digits. rewrite fold_left_app. reflexivity.
Qed.

Lemma log2_div10 (n : N) : (10 <= n)%N -> (N.log2 (n / 10) < N.log2 n)%N.
Proof.
  intros H.
  assert (Hpos : (0 < n / 10)%N).
  { apply N.div_str_pos. lia. }
  apply N.log2_lt_pow2; [exact Hpos|].
  destruct (N.log2_spec n ltac:(lia)) as [Hlo Hhi].
  rewrite N.pow_succ_r' in Hhi.
  apply N.Div0.div_lt_upper_bound. lia.
Qed.

(** The digits [digits_of_pos] writes: at least one, all decimal, no
    leading zero except for zero itself, and they spell [n]. *)
Lemma digits_of_pos_spec (fuel : nat) :
  forall n acc,
    N.to_nat (N.log2 n) < fuel ->
    exists d ds,
      digits_of_pos fuel n acc = (d :: ds) ++ acc
      /\ forallb is_digit (d :: ds) = true
      /\ ((d =? 48)%N = true -> n = 0%N /\ ds = [])
      /\ int_of_digits (d :: ds) = Z.of_N n.
Proof.
  induction fuel as [|fuel IH]; intros n acc Hf; [lia|].
  cbn [digits_of_pos].
  destruct (n <? 10)%N eqn:E.
  - apply N.ltb_lt in E. rewrite (N.mod_small n 10 E).
    exists (48 + n)%N, []. split; [reflexivity|]. split; [|split].
    + cbn [forallb]. unfold is_digit.
      rewrite andb_true_r. apply andb_true_iff.
      split; apply N.leb_le; lia.
    + intros H. apply N.eqb_eq in H. split; [lia | reflexivity].
    + unfold int_of_digits. cbn [fold_left]. lia.
  - apply N.ltb_ge in E.
    destruct (IH (n / 10)%N ((48 + n mod 10)%N :: acc))
      as (d & ds & -> & Hd & H0 & Hv).
    { pose proof (log2_div10 n E). lia. }
    assert (Hq : (0 < n / 10)%N) by (apply N.div_str_pos; lia).
    exists d, (ds ++ [(48 + n mod 10)%N]). split; [|split; [|split]].
    + cbn [app]. rewrite <- app_assoc. reflexivity.
    + cbn [forallb] in *. apply andb_true_iff in Hd. destruct Hd as [Hd Hds].
      rewrite Hd, forallb_app, Hds. cbn [forallb andb].
      rewrite andb_true_r. unfold is_digit.
      apply andb_true_iff. split; apply N.leb_le; div_lia.
    + intros H. destruct (H0 H) as [Hz _]. lia.
    + change (d :: ds ++ [(48 + n mod 10)%N])
        with ((d :: ds) ++ [(48 + n mod 10)%N]).
      rewrite int_of_digits_app, Hv. div_lia.
Qed.

Lemma delimited_cases (rest : str) :
  delimited rest = true ->
  rest = [] \/ exists c r, rest = c :: r /\ (c = 44 \/ c = 93 \/ c = 125)%N.
Proof.
  destruct rest as [|c r]; [left; reflexivity|].
  cbn [delimited]. intros H. right. exists c, r. split; [reflexivity|].
  apply orb_true_iff in H. destruct H as [H|H].
  - apply orb_true_iff in H. destruct H as [H|H]; apply N.eqb_eq in H; auto.
  - apply N.eqb_eq in H. auto.
Qed.

Lemma span_digits_app (ds rest : str) :
  forallb is_digit ds = true ->
  delimited rest = true ->
  span_digits (ds ++ rest) = (ds, rest).
Proof.
  intros Hds Hrest. induction ds as [|d ds IH].
  - cbn [app].
    destruct (delimited_cases rest Hrest) as [-> | (c & r & -> & [-> | [-> | ->]])];
      reflexivity.
  - cbn [forallb] in Hds. apply andb_true_iff in Hds. destruct Hds as [Hd Hds].
    cbn [app span_digits]. rewrite Hd, (IH Hds). reflexivity.
Qed.

Lemma number_tail_delimited (rest : str) :
  delimited rest = true ->
  number_frac rest = ([], rest) /\ number_exp rest = ([], rest).
Proof.
  intros Hrest.
  destruct (delimited_cases rest Hrest) as [-> | (c & r & -> & [-> | [-> | ->]])];
    split; reflexivity.
Qed.

Lemma digit_not (d k : N) :
  is_digit d = true -> is_digit k = false -> (d =? k)%N = false.
Proof.
  intros Hd Hk. destruct (d =? k)%N eqn:E; [|reflexivity].
  apply N.eqb_eq in E. subst. rewrite Hd in Hk. discriminate.
Qed.

(** The digits of a number are read as the [int] they spell. *)
Lemma match_number_digits (fl : str -> str) (d : codepoint) (ds rest : str)
    (n : N) :
  forallb is_digit (d :: ds) = true ->
  ((d =? 48)%N = true -> n = 0%N /\ ds = []) ->
  int_of_digits (d :: ds) = Z.of_N n ->
  List.length (d :: ds) <= int_max_str_digits ->
  delimited rest = true ->
  match_number fl ((d :: ds) ++ rest) = Scanned (VInt (Z.of_N n)) rest
  /\ match_number fl (45%N :: (d :: ds) ++ rest)
     = Scanned (VInt (- Z.of_N n)) rest.
Proof.
  intros Hds H0 Hv Hlen Hrest.
  apply Nat.ltb_ge in Hlen.
  assert (Hd : is_digit d = true)
    by (cbn [forallb] in Hds; apply andb_true_iff in Hds; apply Hds).
  assert (Hint : number_int ((d :: ds) ++ rest) = Some (d :: ds, rest)).
  { cbn [app number_int]. rewrite Hd.
    destruct (d =? 48)%N eqn:E.
    - destruct (H0 eq_refl) as [_ ->]. reflexivity.
    - cbn [forallb] in Hds. apply andb_true_iff in Hds.
      rewrite (span_digits_app ds rest (proj2 Hds) Hrest). reflexivity. }
  destruct (number_tail_delimited rest Hrest) as [Hfrac Hexp].
  split.
  - unfold match_number, number_sign. cbn [app starts_with].
    rewrite (digit_not d 45 Hd eq_refl).
    change (d :: ds ++ rest) with ((d :: ds) ++ rest).
    rewrite Hint, Hfrac, Hexp, Hlen, Hv. reflexivity.
  - unfold match_number, number_sign. cbn [starts_with N.eqb Pos.eqb].
    rewrite Hint, Hfrac, Hexp, Hlen, Hv. reflexivity.
Qed.

Lemma repr_N_spec (n : N) :
  exists d ds,
    repr_N n = d :: ds
    /\ forallb is_digit (d :: ds) = true
    /\ ((d =? 48)%N = true -> n = 0%N /\ ds = [])
    /\ int_of_digits (d :: ds) = Z.of_N n.
Proof.
  unfold repr_N.
  destruct (digits_of_pos_spec (S (N.to_nat (N.log2 n))) n [] ltac:(lia))
    as (d & ds & E & H).
  exists d, ds. rewrite E, app_nil_r. split; [reflexivity | exact H].
Qed.

(** [scan_once] on a text that starts like a number reads a number. *)
Lemma scan_once_number (fl : str -> str) (fuel : nat) (c : codepoint)
    (s : str) :
  is_digit c = true
  \/ (c = 45%N /\ match s with d :: _ => is_digit d = true | [] => False end) ->
  forall depth, scan_once fl (S fuel) depth (c :: s) = match_number fl (c :: s).
Proof.
  intros H depth. cbn [scan_once]. eval_lits. cbn [strip_prefix].
  destruct H as [H | [-> H]].
  - rewrite !(digit_not c _ H) by reflexivity.
    rewrite !(N.eqb_sym _ c).
    rewrite !(digit_not c _ H) by reflexivity.
    reflexivity.
  - destruct s as [|d s]; [contradiction|].
    eval_eqb. cbn [strip_prefix].
    rewrite (N.eqb_sym 73 d), (digit_not d 73 H eq_refl). reflexivity.
Qed.

(** A control character written as [\u00XX] is read back. *)
Lemma scanstring_control_escape (u : N) (more acc : str) :
  (u < 32)%N ->
  scanstring (lit "\u" ++ hex_fixed 4 u ++ more) acc
  = scanstring more (u :: acc).
Proof.
  intros Hu. rewrite hex_fixed_4. eval_lits.
  cbn [app scanstring]. eval_eqb. cbn iota.
  rewrite (hex4_digits u ltac:(lia)).
  replace (is_high_surrogate u) with false; [reflexivity|].
  symmetry. unfold is_high_surrogate. apply andb_false_iff. left.
  apply N.leb_gt. lia.
Qed.

(** With [ensure_ascii=False] every character is read back, whatever
    follows it. *)
Lemma scanstring_raw_char (c : codepoint) (R acc : str) :
  scanstring (escape_char false c ++ R) acc = scanstring R (c :: acc).
Proof.
  unfold escape_char. cbn [negb].
  destruct (c =? 34)%N eqn:E34.
  { apply N.eqb_eq in E34. subst c. reflexivity. }
  destruct (c =? 92)%N eqn:E92.
  { apply N.eqb_eq in E92. subst c. reflexivity. }
  destruct (c =? 10)%N eqn:E10.
  { apply N.eqb_eq in E10. subst c. reflexivity. }
  destruct (c =? 13)%N eqn:E13.
  { apply N.eqb_eq in E13. subst c. reflexivity. }
  destruct (c =? 9)%N eqn:E9.
  { apply N.eqb_eq in E9. subst c. reflexivity. }
  destruct (c =? 8)%N eqn:E8.
  { apply N.eqb_eq in E8. subst c. reflexivity. }
  destruct (c =? 12)%N eqn:E12.
  { apply N.eqb_eq in E12. subst c. reflexivity. }
  destruct (c <? 32)%N eqn:E32.
  { apply N.ltb_lt in E32. rewrite <- !app_assoc.
    apply scanstring_control_escape. exact E32. }
  cbn [app scanstring]. rewrite E34, E92, E32. reflexivity.
Qed.

Lemma scanstring_text (ea : bool) (t rest : str) :
  text_ok ea t = true ->
  forall acc,
    scanstring (flat_map (escape_char ea) t ++ dquote :: rest) acc
    = Some (rev acc ++ t, rest).
Proof.
  destruct ea.
  - unfold text_ok. cbn [negb orb]. apply scanstring_escaped.
  - intros _. induction t as [|c t IH]; intros acc.
    + cbn. rewrite app_nil_r. reflexivity.
    + cbn [flat_map]. rewrite <- app_assoc, scanstring_raw_char, IH.
      cbn [rev]. rewrite <- app_assoc. reflexivity.
Qed.

Lemma starts_value_digit (d : codepoint) (s : str) :
  is_digit d = true -> starts_value (d :: s).
Proof.
  intros Hd. exists d, s. split; [reflexivity|].
  unfold is_ws.
  rewrite !(digit_not d _ Hd) by reflexivity.
  repeat split; reflexivity.
Qed.

Lemma encode_starts_value (ea : bool) (v : value) (rest : str) :
  plain ea v = true -> starts_value (encode ea v ++ rest).
Proof.
  intros Hv.
  destruct v as [|[|]|z|r|s|l|d]; try discriminate;
    try (eexists _, _; split;
         [cbn [encode]; eval_lits; cbn [app]; reflexivity
         | repeat split; reflexivity]).
  cbn [encode]. unfold repr_int.
  destruct z as [|p|p].
  - eexists _, _. split; [reflexivity | repeat split; reflexivity].
  - destruct (repr_N_spec (Npos p)) as (d & ds & -> & Hds & _).
    cbn [forallb] in Hds. apply andb_true_iff in Hds.
    apply starts_value_digit. apply Hds.
  - eexists _, _. split; [reflexivity | repeat split; reflexivity].
Qed.

Lemma skip_ws_starts_value (s : str) : starts_value s -> skip_ws s = s.
Proof.
  intros (c & more & -> & Hws & _). cbn [skip_ws]. rewrite Hws. reflexivity.
Qed.

(** Induction on a value, with the elements of a list and the values of a
    dict as smaller values. *)
Lemma value_induction (P : value -> Prop) :
  P VNone ->
  (forall b, P (VBool b)) ->
  (forall z, P (VInt z)) ->
  (forall r, P (VFloat r)) ->
  (forall s, P (VStr s)) ->
  (forall l, Forall P l -> P (VList l)) ->
  (forall d, Forall (fun kv => P (snd kv)) d -> P (VDict d)) ->
  forall v, P v.
Proof.
  intros HNone HBool HInt HFloat HStr HList HDict.
  fix IH 1. intros [| b | z | r | s | l | d].
  - exact HNone.
  - apply HBool.
  - apply HInt.
  - apply HFloat.
  - apply HStr.
  - apply HList. induction l as [|x l IHl]; constructor; [apply IH | exact IHl].
  - apply HDict.
    induction d as [|[k x] d IHd]; constructor; [apply IH | exact IHd].
Qed.

Lemma str_eqb_sym (a b : str) : str_eqb a b = str_eqb b a.
Proof.
  revert b. induction a as [|x a IH]; intros [|y b]; try reflexivity.
  cbn [str_eqb]. rewrite (N.eqb_sym x y), IH. reflexivity.
Qed.

Lemma distinct_middle (a b : list str) (k : str) :
  distinct (a ++ k :: b) = true -> existsb (str_eqb k) a = false.
Proof.
  induction a as [|x a IH]; [reflexivity|].
  cbn [app distinct existsb]. intros H.
  apply andb_true_iff in H. destruct H as [Hx Ha].
  rewrite (IH Ha), orb_false_r.
  rewrite existsb_app in Hx. cbn [existsb] in Hx.
  rewrite str_eqb_sym.
  destruct (str_eqb x k); [|reflexivity].
  rewrite orb_true_r in Hx. discriminate.
Qed.

(** A new key goes to the end of the dict. *)
Lemma dict_set_fresh (k : str) (v : value) (d : list (str * value)) :
  existsb (str_eqb k) (List.map fst d) = false ->
  dict_set k v d = d ++ [(k, v)].
Proof.
  induction d as [|[k0 v0] d IH]; [reflexivity|].
  cbn [List.map fst existsb dict_set app]. intros H.
  apply orb_false_iff in H. destruct H as [Hk Hd].
  rewrite Hk, (IH Hd). reflexivity.
Qed.

Lemma join_cons2 (sep a b : str) (l : list str) :
  join sep (a :: b :: l) = a ++ sep ++ join sep (b :: l).
Proof. reflexivity. Qed.

Lemma encode_list_app (ea : bool) (l : list value) (rest : str) :
  encode ea (VList l) ++ rest
  = 91%N :: join (lit ", ") (List.map (encode ea) l) ++ 93%N :: rest.
Proof.
  cbn [encode]. eval_lits. cbn [app]. rewrite <- app_assoc. reflexivity.
Qed.

Lemma encode_dict_app (ea : bool) (d : list (str * value)) (rest : str) :
  encode ea (VDict d) ++ rest
  = 123%N :: join (lit ", ") (List.map (encode_member ea) d) ++ 125%N :: rest.
Proof.
  cbn [encode]. eval_lits. cbn [app]. rewrite <- app_assoc. reflexivity.
Qed.

Lemma encode_member_app (ea : bool) (k : str) (v : value) (rest : str) :
  encode_member ea (k, v) ++ rest
  = 34%N :: flat_map (escape_char ea) k
      ++ dquote :: 58%N :: 32%N :: encode ea v ++ rest.
Proof.
  unfold encode_member, encode_str. cbn [fst snd]. eval_lits.
  cbn [app]. rewrite <- !app_assoc. reflexivity.
Qed.


Lemma parse_elements_exhausted (fl : str -> str) (fuel depth : nat)
    (s : str) (acc : list value) :
  scan_once fl fuel depth s = Exhausted ->
  parse_elements fl (S fuel) depth s acc = Exhausted.
Proof. intros H. cbn [parse_elements]. rewrite H. reflexivity. Qed.

Lemma parse_elements_last (fl : str -> str) (fuel depth : nat)
    (s rest : str) (v : value) (acc : list value) :
  scan_once fl fuel depth s = Scanned v (93%N :: rest) ->
  parse_elements fl (S fuel) depth s acc = Scanned (VList (rev (v :: acc))) rest.
Proof. intros H. cbn [parse_elements]. rewrite H. reflexivity. Qed.

Lemma parse_elements_next (fl : str -> str) (fuel depth : nat)
    (s J : str) (v : value) (acc : list value) :
  starts_value J ->
  scan_once fl fuel depth s = Scanned v (44%N :: 32%N :: J) ->
  parse_elements fl (S fuel) depth s acc = parse_elements fl fuel depth J (v :: acc).
Proof.
  intros HJ H. cbn [parse_elements]. rewrite H.
  change (skip_ws (44%N :: 32%N :: J)) with (44%N :: 32%N :: J).
  change (starts_with 93%N (44%N :: 32%N :: J)) with (@None str).
  change (starts_with 44%N (44%N :: 32%N :: J)) with (Some (32%N :: J)).
  cbv beta iota.
  change (skip_ws (32%N :: J)) with (skip_ws J).
  rewrite (skip_ws_starts_value J HJ). reflexivity.
Qed.

Section Members.
Variable fl : str -> str.
Variable ea : bool.
Variable fuel : nat.
Variable depth : nat.
Variable k : str.
Variable V : str.
Variable acc : list (str * value).
Hypothesis key_ok : text_ok ea k = true.
Hypothesis value_next : starts_value V.

Lemma parse_members_key :
  parse_members fl (S fuel) depth
    (34%N :: flat_map (escape_char ea) k ++ dquote :: 58%N :: 32%N :: V) acc
  = match scan_once fl fuel depth V with
    | Scanned v r3 =>
        match starts_with 125%N (skip_ws r3),
              starts_with 44%N (skip_ws r3) with
        | Some r', _ => Scanned (VDict (dict_set k v acc)) r'
        | None, Some r' =>
            parse_members fl fuel depth (skip_ws r') (dict_set k v acc)
        | None, None => Invalid
        end
    | Invalid => Invalid
    | Failed e => Failed e
    | Exhausted => Exhausted
    end.
Proof.
  cbn [parse_members].
  change (starts_with 34%N (34%N :: ?r)) with (Some r).
  cbv beta iota.
  rewrite (scanstring_text ea k (58%N :: 32%N :: V) key_ok []).
  cbn [rev app].
  change (skip_ws (58%N :: 32%N :: V)) with (58%N :: 32%N :: V).
  change (starts_with 58%N (58%N :: 32%N :: V)) with (Some (32%N :: V)).
  cbv beta iota.
  change (skip_ws (32%N :: V)) with (skip_ws V).
  rewrite (skip_ws_starts_value V value_next). reflexivity.
Qed.

Lemma parse_members_exhausted :
  scan_once fl fuel depth V = Exhausted ->
  parse_members fl (S fuel) depth
    (34%N :: flat_map (escape_char ea) k ++ dquote :: 58%N :: 32%N :: V) acc
  = Exhausted.
Proof. intros H. rewrite parse_members_key, H. reflexivity. Qed.

Lemma parse_members_last (v : value) (rest : str) :
  scan_once fl fuel depth V = Scanned v (125%N :: rest) ->
  parse_members fl (S fuel) depth
    (34%N :: flat_map (escape_char ea) k ++ dquote :: 58%N :: 32%N :: V) acc
  = Scanned (VDict (dict_set k v acc)) rest.
Proof. intros H. rewrite parse_members_key, H. reflexivity. Qed.

Lemma parse_members_next (v : value) (J : str) :
  scan_once fl fuel depth V = Scanned v (44%N :: 32%N :: 34%N :: J) ->
  parse_members fl (S fuel) depth
    (34%N :: flat_map (escape_char ea) k ++ dquote :: 58%N :: 32%N :: V) acc
  = parse_members fl fuel depth (34%N :: J) (dict_set k v acc).
Proof. intros H. rewrite parse_members_key, H. reflexivity. Qed.
End Members.

Lemma scan_once_list (fl : str -> str) (fuel depth : nat) (J : str) :
  starts_value J ->
  scan_once fl (S fuel) (S depth) (91%N :: J)
  = parse_elements fl fuel depth J [].
Proof.
  intros HJ. cbn [scan_once].
  change (91 =? 34)%N with false. change (91 =? 123)%N with false.
  change (91 =? 91)%N with true. cbv beta iota.
  rewrite (skip_ws_starts_value J HJ).
  destruct HJ as (c & more & -> & _ & H93 & _).
  cbn [starts_with]. rewrite H93. reflexivity.
Qed.

Lemma scan_once_dict (fl : str -> str) (fuel depth : nat) (J : str) :
  scan_once fl (S fuel) (S depth) (123%N :: 34%N :: J)
  = parse_members fl fuel depth (34%N :: J) [].
Proof. reflexivity. Qed.

Lemma scan_once_string (fl : str -> str) (fuel depth : nat) (r : str) :
  scan_once fl (S fuel) depth (dquote :: r)
  = match scanstring r [] with
    | Some (t, r') => Scanned (VStr t) r'
    | None => Invalid
    end.
Proof. reflexivity. Qed.

Lemma scan_once_digits (fl : str -> str) (fuel depth : nat) (d : codepoint)
    (ds rest : str) (n : N) :
  forallb is_digit (d :: ds) = true ->
  ((d =? 48)%N = true -> n = 0%N /\ ds = []) ->
  int_of_digits (d :: ds) = Z.of_N n ->
  List.length (d :: ds) <= int_max_str_digits ->
  delimited rest = true ->
  scan_once fl (S fuel) depth ((d :: ds) ++ rest) = Scanned (VInt (Z.of_N n)) rest
  /\ scan_once fl (S fuel) depth (45%N :: (d :: ds) ++ rest)
     = Scanned (VInt (- Z.of_N n)) rest.
Proof.
  intros Hds H0 Hv Hlen Hrest.
  destruct (match_number_digits fl d ds rest n Hds H0 Hv Hlen Hrest)
    as [E1 E2].
  assert (Hd : is_digit d = true)
    by (cbn [forallb] in Hds; apply andb_true_iff in Hds; apply Hds).
  split.
  - etransitivity;
      [exact (scan_once_number fl fuel d (ds ++ rest) (or_introl Hd) depth)|].
    exact E1.
  - etransitivity;
      [exact (scan_once_number fl fuel 45%N (d :: ds ++ rest)
                (or_intror (conj eq_refl Hd)) depth)|].
    exact E2.
Qed.

Section ReadBack.
Variable fl : str -> str.
Variable ea : bool.

Lemma join_encoded_starts_value (x : value) (l : list value) (rest : str) :
  forallb (plain ea) (x :: l) = true ->
  starts_value (join (lit ", ") (List.map (encode ea) (x :: l)) ++ rest).
Proof.
  cbn [forallb]. intros H. apply andb_true_iff in H. destruct H as [Hx _].
  destruct l as [|y l]; cbn [List.map].
  - cbn [join]. apply encode_starts_value. exact Hx.
  - rewrite join_cons2, <- app_assoc. apply encode_starts_value. exact Hx.
Qed.

Lemma parse_elements_encoded (x : value) (l : list value) :
  Forall (reads_back fl ea) (x :: l) ->
  forallb (plain ea) (x :: l) = true ->
  forall fuel depth acc rest,
    forallb (within depth) (x :: l) = true ->
    parse_elements fl fuel depth
      (join (lit ", ") (List.map (encode ea) (x :: l)) ++ 93%N :: rest) acc
    = Exhausted
    \/ parse_elements fl fuel depth
         (join (lit ", ") (List.map (encode ea) (x :: l)) ++ 93%N :: rest) acc
       = Scanned (VList (rev acc ++ x :: l)) rest.
Proof.
  revert x. induction l as [|y l IH];
    intros x Hall Hplain fuel depth acc rest Hin.
  - destruct fuel as [|fuel]; [left; reflexivity|].
    inversion Hall as [|? ? Hx _]; subst.
    cbn [forallb] in Hplain, Hin.
    rewrite andb_true_r in Hplain. rewrite andb_true_r in Hin.
    cbn [List.map join].
    destruct (Hx Hplain fuel depth (93%N :: rest) Hin eq_refl) as [Hs | Hs].
    + left. apply parse_elements_exhausted. exact Hs.
    + right. rewrite (parse_elements_last fl fuel depth _ rest x acc Hs).
      reflexivity.
  - destruct fuel as [|fuel]; [left; reflexivity|].
    inversion Hall as [|? ? Hx Hrest]; subst.
    pose proof Hplain as Hpl.
    cbn [forallb] in Hpl. apply andb_true_iff in Hpl.
    destruct Hpl as [Hpx Hpl].
    cbn [forallb] in Hin. apply andb_true_iff in Hin.
    destruct Hin as [Hix Hil].
    pose proof (join_encoded_starts_value y l (93%N :: rest) Hpl) as HJ.
    cbn [List.map] in *. rewrite join_cons2, <- !app_assoc.
    set (J := join _ (encode ea y :: List.map (encode ea) l) ++ 93%N :: rest)
      in *.
    destruct (Hx Hpx fuel depth (lit ", " ++ J) Hix eq_refl) as [Hs | Hs].
    + left. apply parse_elements_exhausted. exact Hs.
    + pose proof (parse_elements_next fl fuel depth _ J x acc HJ Hs) as E.
      destruct (IH y Hrest Hpl fuel depth (x :: acc) rest Hil) as [H | H];
        [left | right]; (etransitivity; [exact E|]); [exact H|].
      etransitivity; [exact H|].
      cbn [rev]. rewrite <- app_assoc. reflexivity.
Qed.


Lemma join_members_quote (kv : str * value) (d : list (str * value))
    (rest : str) :
  exists J,
    join (lit ", ") (List.map (encode_member ea) (kv :: d)) ++ rest
    = 34%N :: J.
Proof.
  destruct kv as [k v]. destruct d as [|kv2 d]; cbn [List.map].
  - cbn [join]. rewrite encode_member_app. eexists. reflexivity.
  - rewrite join_cons2, <- app_assoc, encode_member_app.
    eexists. reflexivity.
Qed.

Lemma parse_members_encoded (kv : str * value) (d : list (str * value)) :
  Forall (fun kv => reads_back fl ea (snd kv)) (kv :: d) ->
  forallb (fun kv => text_ok ea (fst kv) && plain ea (snd kv)) (kv :: d)
  = true ->
  forall fuel depth acc rest,
    forallb (fun kv => within depth (snd kv)) (kv :: d) = true ->
    distinct (List.map fst acc ++ List.map fst (kv :: d)) = true ->
    parse_members fl fuel depth
      (join (lit ", ") (List.map (encode_member ea) (kv :: d))
         ++ 125%N :: rest) acc
    = Exhausted
    \/ parse_members fl fuel depth
         (join (lit ", ") (List.map (encode_member ea) (kv :: d))
            ++ 125%N :: rest) acc
       = Scanned (VDict (acc ++ kv :: d)) rest.
Proof.
  revert kv. induction d as [|kv2 d IH];
    intros [k v] Hall Hplain fuel depth acc rest Hin Hkeys.
  - destruct fuel as [|fuel]; [left; reflexivity|].
    inversion Hall as [|? ? Hv _]; subst. cbn [snd] in Hv.
    cbn [forallb fst snd] in Hplain, Hin.
    rewrite andb_true_r in Hplain. rewrite andb_true_r in Hin.
    apply andb_true_iff in Hplain. destruct Hplain as [Hk Hpv].
    cbn [List.map join]. rewrite encode_member_app.
    pose proof (encode_starts_value ea v (125%N :: rest) Hpv) as HV.
    cbn [List.map fst] in Hkeys.
    rewrite (dict_set_fresh k v acc (distinct_middle _ _ _ Hkeys)) || idtac.
    destruct (Hv Hpv fuel depth (125%N :: rest) Hin eq_refl) as [Hs | Hs].
    + left. apply (parse_members_exhausted fl ea fuel depth k _ acc Hk HV Hs).
    + right.
      rewrite (parse_members_last fl ea fuel depth k _ acc Hk HV v rest Hs).
      rewrite (dict_set_fresh k v acc (distinct_middle _ _ _ Hkeys)).
      reflexivity.
  - destruct fuel as [|fuel]; [left; reflexivity|].
    inversion Hall as [|? ? Hv Hrest]; subst. cbn [snd] in Hv.
    pose proof Hplain as Hpl.
    cbn [forallb] in Hpl. apply andb_true_iff in Hpl.
    destruct Hpl as [Hkv Hpl]. cbn [fst snd] in Hkv.
    apply andb_true_iff in Hkv. destruct Hkv as [Hk Hpv].
    cbn [forallb snd] in Hin. apply andb_true_iff in Hin.
    destruct Hin as [Hiv Hil].
    destruct (join_members_quote kv2 d (125%N :: rest)) as [J HJ].
    cbn [List.map] in *. rewrite join_cons2, <- !app_assoc.
    rewrite encode_member_app, HJ.
    pose proof (encode_starts_value ea v (lit ", " ++ 34%N :: J) Hpv) as HV.
    pose proof (dict_set_fresh k v acc
                  (distinct_middle _ _ _ Hkeys)) as Hset.
    destruct (Hv Hpv fuel depth (lit ", " ++ 34%N :: J) Hiv eq_refl)
      as [Hs | Hs].
    + left. apply (parse_members_exhausted fl ea fuel depth k _ acc Hk HV Hs).
    + pose proof (parse_members_next fl ea fuel depth k _ acc Hk HV v J Hs)
        as E.
      rewrite Hset in E.
      assert (Hkeys' :
                distinct (List.map fst (acc ++ [(k, v)])
                            ++ fst kv2 :: List.map fst d) = true).
      { rewrite map_app, <- app_assoc. exact Hkeys. }
      destruct (IH kv2 Hrest Hpl fuel depth (acc ++ [(k, v)]) rest Hil
                  Hkeys')
        as [H | H]; rewrite HJ in H; [left | right];
        (etransitivity; [exact E|]); [exact H|].
      etransitivity; [exact H|]. rewrite <- app_assoc. reflexivity.
Qed.

(** Every plain value is read back from its encoding. *)
Lemma encoded_reads_back (v : value) : reads_back fl ea v.
Proof.
  induction v as [| b | z | r | s | l IHl | d IHd] using value_induction;
    intros Hplain fuel depth rest Hin Hrest.
  - destruct fuel; [left | right]; reflexivity.
  - destruct fuel; [left; reflexivity | right]. destruct b; reflexivity.
  - destruct fuel as [|fuel]; [left; reflexivity | right].
    cbn [within] in Hin. apply Nat.leb_le in Hin. unfold digits in Hin.
    cbn [encode]. destruct z as [|p|p]; cbn [repr_int Z.abs_N] in *.
    + exact (proj1 (scan_once_digits fl fuel depth 48%N [] rest 0%N eq_refl
                      (fun _ => conj eq_refl eq_refl) eq_refl Hin Hrest)).
    + destruct (repr_N_spec (Npos p)) as (c & ds & E & Hds & H0 & Hv).
      rewrite E in *.
      exact (proj1 (scan_once_digits fl fuel depth c ds rest _ Hds H0 Hv
                      Hin Hrest)).
    + destruct (repr_N_spec (Npos p)) as (c & ds & E & Hds & H0 & Hv).
      rewrite E in *.
      exact (proj2 (scan_once_digits fl fuel depth c ds rest _ Hds H0 Hv
                      Hin Hrest)).
  - discriminate.
  - destruct fuel as [|fuel]; [left; reflexivity | right].
    cbn [encode plain] in *. unfold encode_str.
    cbn [app]. rewrite <- app_assoc.
    etransitivity; [apply scan_once_string|]. cbn [app].
    rewrite (scanstring_text ea s rest Hplain []). reflexivity.
  - destruct fuel as [|fuel]; [left; reflexivity|].
    destruct depth as [|depth]; [discriminate|]. cbn [within] in Hin.
    destruct l as [|x l]; [right; reflexivity|].
    cbn [plain] in Hplain.
    rewrite encode_list_app.
    rewrite (scan_once_list fl fuel depth _
               (join_encoded_starts_value x l (93%N :: rest) Hplain)).
    apply (parse_elements_encoded x l IHl Hplain fuel depth [] rest Hin).
  - destruct fuel as [|fuel]; [left; reflexivity|].
    destruct depth as [|depth]; [discriminate|]. cbn [within] in Hin.
    destruct d as [|kv d]; [right; reflexivity|].
    cbn [plain] in Hplain. apply andb_true_iff in Hplain.
    destruct Hplain as [Hkeys Hplain].
    rewrite encode_dict_app.
    destruct (join_members_quote kv d (125%N :: rest)) as [J HJ].
    pose proof (parse_members_encoded kv d IHd Hplain fuel depth [] rest
                  Hin Hkeys)
      as H.
    rewrite HJ in *. rewrite scan_once_dict. exact H.
Qed.

Context {limits : Limits}.

(** [json.loads(json.dumps(v, ensure_ascii=ea)) == v] for a plain value
    within the limits. *)
Lemma json_loads_encode (v : value) :
  plain ea v = true ->
  within depth_in_callee v = true ->
  json_loads fl (encode ea v) = Ok v.
Proof.
  intros Hplain Hin. unfold json_loads.
  pose proof (encode_starts_value ea v [] Hplain) as Hstart.
  rewrite app_nil_r in Hstart.
  rewrite (skip_ws_starts_value _ Hstart).
  destruct (encoded_reads_back v Hplain
              (2 * List.length (encode ea v) + 1) depth_in_callee [] Hin
              eq_refl) as [H | H];
    rewrite app_nil_r in H.
  - exfalso. revert H. apply (proj1 (scan_budget fl _)). lia.
  - destruct Hstart as (c & more & E & _ & _ & _ & Hbom).
    rewrite E in *. cbn [starts_with]. rewrite Hbom, H. reflexivity.
Qed.
End ReadBack.

(** *** UTF-8 *)

Section Decode.
Variables b0 b1 b2 b3 : N.
Variable r : bytes.

Lemma utf8_decode_two :
  (194 <= b0 <= 223)%N -> (128 <= b1 <= 191)%N ->
  utf8_decode_replace (b0 :: b1 :: r)
  = ((b0 - 192) * 64 + (b1 - 128))%N :: utf8_decode_replace r.
Proof.
  intros H0 H1. cbn [utf8_decode_replace]. unfold is_cont.
  replace (b0 <? 128)%N with false by (symmetry; bool_lia).
  replace ((194 <=? b0) && (b0 <=? 223))%N with true
    by (symmetry; bool_lia).
  replace ((128 <=? b1) && (b1 <=? 191))%N with true
    by (symmetry; bool_lia).
  reflexivity.
Qed.

Lemma utf8_decode_three :
  (224 <= b0 <= 239)%N -> (128 <= b1 <= 191)%N -> (128 <= b2 <= 191)%N ->
  (b0 = 224 -> 160 <= b1)%N -> (b0 = 237 -> b1 <= 159)%N ->
  utf8_decode_replace (b0 :: b1 :: b2 :: r)
  = ((b0 - 224) * 4096 + (b1 - 128) * 64 + (b2 - 128))%N
      :: utf8_decode_replace r.
Proof.
  intros H0 H1 H2 Hlo Hhi. cbn [utf8_decode_replace]. unfold is_cont.
  replace (b0 <? 128)%N with false by (symmetry; bool_lia).
  replace ((194 <=? b0) && (b0 <=? 223))%N with false
    by (symmetry; apply andb_false_iff; right; bool_lia).
  replace ((224 <=? b0) && (b0 <=? 239))%N with true
    by (symmetry; bool_lia).
  replace ((128 <=? b2) && (b2 <=? 191))%N with true
    by (symmetry; bool_lia).
  destruct (b0 =? 224)%N eqn:E224; destruct (b0 =? 237)%N eqn:E237;
    to_prop;
    match goal with
    | |- context [((?lo <=? b1) && (b1 <=? ?hi))%N] =>
        replace ((lo <=? b1) && (b1 <=? hi))%N with true
          by (symmetry; bool_lia)
    end; reflexivity.
Qed.

Lemma utf8_decode_four :
  (240 <= b0 <= 244)%N -> (128 <= b1 <= 191)%N -> (128 <= b2 <= 191)%N ->
  (128 <= b3 <= 191)%N ->
  (b0 = 240 -> 144 <= b1)%N -> (b0 = 244 -> b1 <= 143)%N ->
  utf8_decode_replace (b0 :: b1 :: b2 :: b3 :: r)
  = ((b0 - 240) * 262144 + (b1 - 128) * 4096 + (b2 - 128) * 64
     + (b3 - 128))%N
      :: utf8_decode_replace r.
Proof.
  intros H0 H1 H2 H3 Hlo Hhi. cbn [utf8_decode_replace]. unfold is_cont.
  replace (b0 <? 128)%N with false by (symmetry; bool_lia).
  replace ((194 <=? b0) && (b0 <=? 223))%N with false
    by (symmetry; apply andb_false_iff; right; bool_lia).
  replace ((224 <=? b0) && (b0 <=? 239))%N with false
    by (symmetry; apply andb_false_iff; right; bool_lia).
  replace ((240 <=? b0) && (b0 <=? 244))%N with true
    by (symmetry; bool_lia).
  replace ((128 <=? b2) && (b2 <=? 191))%N with true
    by (symmetry; bool_lia).
  replace ((128 <=? b3) && (b3 <=? 191))%N with true
    by (symmetry; bool_lia).
  destruct (b0 =? 240)%N eqn:E240; destruct (b0 =? 244)%N eqn:E244;
    to_prop;
    match goal with
    | |- context [((?lo <=? b1) && (b1 <=? ?hi))%N] =>
        replace ((lo <=? b1) && (b1 <=? hi))%N with true
          by (symmetry; bool_lia)
    end; reflexivity.
Qed.
End Decode.

(** A code point in base 64: the digits the encoder writes. *)
Lemma base64_digits (c : N) :
  exists q1 q2 q3 m0 m1 m2,
    (c / 64 = q1 /\ c mod 64 = m0 /\ c = 64 * q1 + m0 /\ m0 < 64
     /\ c / 4096 = q2 /\ (c / 64) mod 64 = m1 /\ q1 = 64 * q2 + m1 /\ m1 < 64
     /\ c / 262144 = q3 /\ (c / 4096) mod 64 = m2 /\ q2 = 64 * q3 + m2
     /\ m2 < 64)%N.
Proof.
  exists (c / 64)%N, (c / 4096)%N, (c / 262144)%N,
    (c mod 64)%N, ((c / 64) mod 64)%N, ((c / 4096) mod 64)%N.
  assert (H4096 : (c / 4096 = c / 64 / 64)%N)
    by (rewrite N.Div0.div_div; reflexivity).
  assert (H262144 : (c / 262144 = c / 4096 / 64)%N)
    by (rewrite N.Div0.div_div; reflexivity).
  repeat split; try reflexivity.
  - apply N.div_mod. discriminate.
  - apply N.mod_lt. discriminate.
  - rewrite H4096. apply N.div_mod. discriminate.
  - apply N.mod_lt. discriminate.
  - rewrite H262144. apply N.div_mod. discriminate.
  - apply N.mod_lt. discriminate.
Qed.

(** Decoding the bytes of one code point gives it back. *)
Lemma some_eq (A : Type) (x y : A) : Some x = Some y -> y = x.
Proof. congruence. Qed.

Lemma utf8_decode_encoded_cp (c : codepoint) (b r : bytes) :
  (c <? 1114112)%N = true ->
  utf8_encode_cp c = Some b ->
  utf8_decode_replace (b ++ r) = c :: utf8_decode_replace r
  /\ forallb is_byte b = true.
Proof.
  intros Hc. unfold utf8_encode_cp.
  destruct (base64_digits c)
    as (q1 & q2 & q3 & m0 & m1 & m2
        & -> & -> & Hq1 & Hm0 & -> & -> & Hq2 & Hm1 & -> & -> & Hq3 & Hm2).
  destruct (c <? 128)%N eqn:E1.
  { intros H. apply some_eq in H. subst b. cbn [app utf8_decode_replace forallb].
    rewrite E1. split; [reflexivity|]. unfold is_byte. to_prop.
    rewrite andb_true_r. bool_lia. }
  destruct (c <? 2048)%N eqn:E2.
  { intros H. apply some_eq in H. subst b. cbn [app forallb]. to_prop. split.
    - rewrite utf8_decode_two by lia. f_equal. lia.
    - unfold is_byte. rewrite andb_true_r. bool_lia. }
  destruct ((55296 <=? c) && (c <=? 57343))%N eqn:E3; [discriminate|].
  destruct (c <? 65536)%N eqn:E4.
  { intros H. apply some_eq in H. subst b. cbn [app forallb].
    to_prop;
      (split;
       [rewrite utf8_decode_three by lia; f_equal; lia
       | unfold is_byte; rewrite andb_true_r; bool_lia]). }
  intros H. apply some_eq in H. subst b. cbn [app forallb].
  to_prop;
    (split;
     [rewrite utf8_decode_four by lia; f_equal; lia
     | unfold is_byte; rewrite andb_true_r; bool_lia]).
Qed.

(** [b.decode("utf-8", errors="replace")] undoes [s.encode("utf-8")]. *)
Lemma utf8_decode_encoded (s : str) (b : bytes) :
  forallb (fun c => c <? 1114112)%N s = true ->
  utf8_encode s = Some b ->
  utf8_decode_replace b = s /\ forallb is_byte b = true.
Proof.
  revert b. induction s as [|c s IH]; intros b Hs.
  - intros H. injection H as <-. split; reflexivity.
  - cbn [forallb] in Hs. apply andb_true_iff in Hs. destruct Hs as [Hc Hs].
    cbn [utf8_encode].
    destruct (utf8_encode_cp c) as [bc|] eqn:Ec; [|discriminate].
    destruct (utf8_encode s) as [bs|] eqn:Es; [|discriminate].
    intros H. injection H as <-.
    destruct (utf8_decode_encoded_cp c bc bs Hc Ec) as [Hd Hb].
    destruct (IH bs Hs eq_refl) as [Hds Hbs].
    rewrite Hd, Hds, forallb_app, Hb, Hbs. split; reflexivity.
Qed.

(** *** What [json.dumps] writes with its defaults *)

Lemma plain_weaken (v : value) : plain true v = true -> plain false v = true.
Proof.
  induction v as [| b | z | r | s | l IHl | d IHd] using value_induction;
    cbn [plain]; try reflexivity.
  - intros H. exact H.
  - intros H. apply forallb_forall. intros x Hx.
    rewrite Forall_forall in IHl. apply (IHl x Hx).
    rewrite forallb_forall in H. apply (H x Hx).
  - intros H. apply andb_true_iff in H. destruct H as [Hk H].
    rewrite Hk. cbn [andb]. apply forallb_forall. intros kv Hkv.
    rewrite Forall_forall in IHd. rewrite forallb_forall in H.
    specialize (H kv Hkv). cbn [text_ok negb orb].
    apply andb_true_iff in H. apply (IHd kv Hkv). apply H.
Qed.

Lemma join_ascii (sep : str) (l : list str) :
  forallb is_ascii sep = true ->
  forallb (forallb is_ascii) l = true ->
  forallb is_ascii (join sep l) = true.
Proof.
  intros Hsep. induction l as [|a l IH]; [reflexivity|].
  cbn [forallb]. intros H. apply andb_true_iff in H. destruct H as [Ha Hl].
  destruct l as [|b l]; [exact Ha|].
  rewrite join_cons2, !forallb_app, Ha, Hsep, (IH Hl). reflexivity.
Qed.

Lemma digits_ascii (s : str) :
  forallb is_digit s = true -> forallb is_ascii s = true.
Proof.
  induction s as [|c s IH]; [reflexivity|].
  cbn [forallb]. intros H. apply andb_true_iff in H. destruct H as [Hc Hs].
  rewrite (IH Hs), andb_true_r. unfold is_digit in Hc. unfold is_ascii.
  apply andb_true_iff in Hc. destruct Hc as [_ Hc].
  apply N.leb_le in Hc. apply N.ltb_lt. lia.
Qed.

Lemma repr_int_ascii (z : Z) : forallb is_ascii (repr_int z) = true.
Proof.
  destruct z as [|p|p]; cbn [repr_int]; [reflexivity| |];
    destruct (repr_N_spec (Npos p)) as (c & ds & -> & Hds & _);
    [|cbn [forallb]; change (is_ascii 45%N) with true; cbn [andb]];
    apply (digits_ascii (c :: ds) Hds).
Qed.

(** [json.dumps] with its default [ensure_ascii=True] writes ASCII. *)
Lemma encode_ascii (v : value) :
  plain true v = true -> forallb is_ascii (encode true v) = true.
Proof.
  induction v as [| b | z | r | s | l IHl | d IHd] using value_induction;
    cbn [plain encode].
  - reflexivity.
  - destruct b; reflexivity.
  - intros _. apply repr_int_ascii.
  - discriminate.
  - intros _. apply encode_str_ascii.
  - intros H. rewrite !forallb_app. rewrite join_ascii; [reflexivity..|].
    apply forallb_forall. intros x Hx. apply in_map_iff in Hx.
    destruct Hx as (y & <- & Hy).
    rewrite Forall_forall in IHl. rewrite forallb_forall in H.
    apply (IHl y Hy (H y Hy)).
  - intros H. apply andb_true_iff in H. destruct H as [_ H].
    rewrite !forallb_app. rewrite join_ascii; [reflexivity..|].
    apply forallb_forall. intros x Hx. apply in_map_iff in Hx.
    destruct Hx as ([k y] & <- & Hy). cbn [fst snd].
    rewrite Forall_forall in IHd. rewrite forallb_forall in H.
    specialize (H _ Hy). apply andb_true_iff in H.
    pose proof (IHd _ Hy (proj2 H)) as Hy'. cbn [snd] in Hy'.
    rewrite !forallb_app, encode_str_ascii, Hy'. reflexivity.
Qed.

Lemma well_formed_in_range (s : str) :
  well_formed s = true -> forallb (fun c => c <? 1114112)%N s = true.
Proof.
  induction s as [|c s IH]; [reflexivity|].
  cbn [well_formed forallb]. intros H.
  apply andb_true_iff in H. destruct H as [H Hs].
  apply andb_true_iff in H. destruct H as [Hc _].
  rewrite Hc, (IH Hs). reflexivity.
Qed.

(** *** What [json.loads] builds, [json.dumps] can write *)

Lemma fold_digits_bounds (ds : str) :
  forall a : Z,
    (0 <= a)%Z ->
    (a * 10 ^ Z.of_nat (List.length ds)
     <= fold_left (fun a c => a * 10 + Z.of_N (c - 48)) ds a)%Z
    /\ (forallb is_digit ds = true ->
        fold_left (fun a c => a * 10 + Z.of_N (c - 48)) ds a
        < (a + 1) * 10 ^ Z.of_nat (List.length ds))%Z.
Proof.
  induction ds as [|c ds IH]; intros a Ha.
  - cbn [fold_left List.length Z.of_nat]. rewrite Z.pow_0_r. lia.
  - cbn [fold_left forallb]. rewrite length_cons, Nat2Z.inj_succ, Z.pow_succ_r by lia.
    assert (Hpow : (0 < 10 ^ Z.of_nat (List.length ds))%Z)
      by (apply Z.pow_pos_nonneg; lia).
    assert (Hc : (0 <= Z.of_N (c - 48))%Z) by lia.
    destruct (IH (a * 10 + Z.of_N (c - 48))%Z ltac:(lia)) as [Hlo Hhi].
    split.
    + nia.
    + intros Hd. apply andb_true_iff in Hd. destruct Hd as [Hc9 Hds].
      specialize (Hhi Hds).
      assert (Hc' : (Z.of_N (c - 48) <= 9)%Z).
      { unfold is_digit in Hc9. apply andb_true_iff in Hc9.
        destruct Hc9 as [_ Hc9]. apply N.leb_le in Hc9. lia. }
      nia.
Qed.

(** An integer has no more digits than a literal that spells it. *)
Lemma digits_of_literal (ds : str) (z : Z) :
  forallb is_digit ds = true ->
  ds <> [] ->
  Z.abs z = int_of_digits ds ->
  digits z <= List.length ds.
Proof.
  intros Hds Hne Hz. unfold digits.
  destruct (repr_N_spec (Z.abs_N z)) as (d & ds' & -> & Hds' & H0 & Hv).
  rewrite N2Z.inj_abs_N, Hz in Hv.
  destruct (d =? 48)%N eqn:E.
  - destruct (H0 eq_refl) as [_ ->].
    destruct ds; [contradiction | cbn [List.length]; lia].
  - unfold int_of_digits in Hv. cbn [fold_left] in Hv.
    assert (Hd : (1 <= Z.of_N (d - 48))%Z).
    { cbn [forallb] in Hds'. apply andb_true_iff in Hds'.
      destruct Hds' as [Hd _]. unfold is_digit in Hd.
      apply andb_true_iff in Hd. destruct Hd as [Hd _].
      apply N.leb_le in Hd. apply N.eqb_neq in E. lia. }
    destruct (fold_digits_bounds ds' (0 * 10 + Z.of_N (d - 48))%Z ltac:(lia))
      as [Hlo _].
    destruct (fold_digits_bounds ds 0%Z ltac:(lia)) as [_ Hhi].
    specialize (Hhi Hds). rewrite Hv in Hlo.
    cbn [List.length].
    destruct (Nat.le_gt_cases (S (List.length ds')) (List.length ds))
      as [Hle | Hgt]; [exact Hle|].
    exfalso.
    assert (Hmono : (10 ^ Z.of_nat (List.length ds)
                     <= 10 ^ Z.of_nat (List.length ds'))%Z)
      by (apply Z.pow_le_mono_r; lia).
    assert (Hpow : (0 < 10 ^ Z.of_nat (List.length ds'))%Z)
      by (apply Z.pow_pos_nonneg; lia).
    nia.
Qed.

Lemma number_int_digits (s ds r : str) :
  number_int s = Some (ds, r) -> forallb is_digit ds = true /\ ds <> [].
Proof.
  unfold number_int. destruct s as [|c s]; [discriminate|].
  destruct (is_digit c) eqn:Hc; [|discriminate].
  destruct (c =? 48)%N.
  - intros H. injection H as <- <-. cbn [forallb]. rewrite Hc.
    split; [reflexivity | discriminate].
  - destruct (span_digits s) as [ds' r'] eqn:E.
    intros H. injection H as <- <-. split; [|discriminate].
    cbn [forallb]. rewrite Hc. cbn [andb].
    clear Hc. revert ds' r' E.
    induction s as [|x s IH]; intros ds' r' E; cbn [span_digits] in E.
    + injection E as <- <-. reflexivity.
    + destruct (is_digit x) eqn:Hx.
      * destruct (span_digits s) as [ds2 r2].
        injection E as <- <-. cbn [forallb]. rewrite Hx.
        exact (IH ds2 r2 eq_refl).
      * injection E as <- <-. reflexivity.
Qed.

Lemma int_of_digits_nonneg (ds : str) : (0 <= int_of_digits ds)%Z.
Proof.
  destruct (fold_digits_bounds ds 0%Z ltac:(lia)) as [H _].
  unfold int_of_digits. lia.
Qed.

(** The number scanner builds an [int] of no more digits than allowed. *)
Lemma match_number_within (fl : str -> str) (s r : str) (v : value)
    (depth : nat) :
  match_number fl s = Scanned v r -> within depth v = true.
Proof.
  unfold match_number.
  destruct (number_sign s) as [sign s1].
  destruct (number_int s1) as [[int_part r1]|] eqn:E; [|discriminate].
  destruct (number_frac r1) as [frac r2].
  destruct (number_exp r2) as [expo r3].
  destruct (number_int_digits _ _ _ E) as [Hds Hne].
  assert (Hint : forall z,
             Z.abs z = int_of_digits int_part ->
             (int_max_str_digits <? List.length int_part)%nat = false ->
             within depth (VInt z) = true).
  { intros z Hz Hlen. cbn [within]. apply Nat.leb_le.
    apply Nat.ltb_ge in Hlen.
    pose proof (digits_of_literal int_part z Hds Hne Hz). lia. }
  pose proof (int_of_digits_nonneg int_part) as Hpos.
  destruct frac, expo;
    try (intros H; injection H as <- <-; reflexivity).
  destruct (int_max_str_digits <? List.length int_part)%nat eqn:Hlen;
    [discriminate|].
  intros H. injection H as <- <-.
  apply Hint; [destruct sign; lia | reflexivity].
Qed.

Lemma dict_set_forallb (f : value -> bool) (k : str) (v : value)
    (d : list (str * value)) :
  f v = true ->
  forallb (fun kv => f (snd kv)) d = true ->
  forallb (fun kv => f (snd kv)) (dict_set k v d) = true.
Proof.
  intros Hv. induction d as [|[k0 v0] d IH]; cbn [dict_set forallb snd].
  - intros _. rewrite Hv. reflexivity.
  - intros H. apply andb_true_iff in H. destruct H as [H0 Hd].
    destruct (str_eqb k k0); cbn [forallb snd].
    + rewrite Hv, Hd. reflexivity.
    + rewrite H0, (IH Hd). reflexivity.
Qed.

(** What the scanner builds with [depth] levels left is within [depth]. *)
Lemma scan_within (fl : str -> str) (fuel : nat) :
  (forall depth s v r,
      scan_once fl fuel depth s = Scanned v r -> within depth v = true)
  /\ (forall depth s acc v r,
        parse_elements fl fuel depth s acc = Scanned v r ->
        forallb (within depth) acc = true ->
        within (S depth) v = true)
  /\ (forall depth s acc v r,
        parse_members fl fuel depth s acc = Scanned v r ->
        forallb (fun kv => within depth (snd kv)) acc = true ->
        within (S depth) v = true).
Proof.
  induction fuel as [|fuel (IHs & IHe & IHm)].
  - repeat split; intros; discriminate.
  - split; [|split].
    + intros depth s v r H. cbn [scan_once] in H.
      destruct s as [|c s]; [discriminate|].
      destruct (c =? 34)%N.
      { destruct (scanstring s []) as [[t r']|]; [|discriminate].
        injection H as <- <-. reflexivity. }
      destruct (c =? 123)%N.
      { destruct depth as [|depth]; [discriminate|].
        destruct (starts_with 125%N (skip_ws s)).
        - injection H as <- <-. reflexivity.
        - apply IHm in H; [exact H | reflexivity]. }
      destruct (c =? 91)%N.
      { destruct depth as [|depth]; [discriminate|].
        destruct (starts_with 93%N (skip_ws s)).
        - injection H as <- <-. reflexivity.
        - apply IHe in H; [exact H | reflexivity]. }
      repeat match type of H with
             | match strip_prefix ?p ?x with _ => _ end = _ =>
                 destruct (strip_prefix p x);
                   [injection H as <- <-; reflexivity|]
             end.
      apply (match_number_within fl _ r v depth H).
    + intros depth s acc v r H Hacc. cbn [parse_elements] in H.
      destruct (scan_once fl fuel depth s) as [v' r'| | |] eqn:E;
        try discriminate.
      apply IHs in E.
      assert (Hacc' : forallb (within depth) (v' :: acc) = true)
        by (cbn [forallb]; rewrite E, Hacc; reflexivity).
      destruct (starts_with 93%N (skip_ws r')).
      { injection H as <- <-. cbn [within].
        rewrite forallb_app, forallb_rev, Hacc. cbn [forallb].
        rewrite E. reflexivity. }
      destruct (starts_with 44%N (skip_ws r')); [|discriminate].
      apply IHe in H; [exact H | exact Hacc'].
    + intros depth s acc v r H Hacc. cbn [parse_members] in H.
      destruct (starts_with 34%N s) as [r0|]; [|discriminate].
      destruct (scanstring r0 []) as [[k r1]|]; [|discriminate].
      destruct (starts_with 58%N (skip_ws r1)) as [r2|]; [|discriminate].
      destruct (scan_once fl fuel depth (skip_ws r2)) as [v' r3| | |] eqn:E3;
        try discriminate.
      apply IHs in E3.
      pose proof (dict_set_forallb (within depth) k v' acc E3 Hacc) as Hacc'.
      destruct (starts_with 125%N (skip_ws r3)).
      { injection H as <- <-. exact Hacc'. }
      destruct (starts_with 44%N (skip_ws r3)); [|discriminate].
      apply IHm in H; [exact H | exact Hacc'].
Qed.

Lemma first_error_none (l : list (option exn)) :
  Forall (fun o => o = None) l -> first_error l = None.
Proof.
  induction 1 as [|o l Ho _ IH]; [reflexivity|].
  subst o. exact IH.
Qed.

(** The encoder is not stopped on a value within its limits. *)
Lemma encode_error_within (v : value) :
  forall depth, within depth v = true -> encode_error depth v = None.
Proof.
  induction v as [| b | z | r | s | l IHl | d IHd] using value_induction;
    intros depth H; try reflexivity.
  - cbn [within encode_error] in *. apply Nat.leb_le in H.
    rewrite (proj2 (Nat.ltb_ge _ _) H). reflexivity.
  - destruct depth as [|depth]; [discriminate|].
    cbn [within encode_error] in *. apply first_error_none.
    apply Forall_map. rewrite Forall_forall in *. intros x Hx.
    rewrite forallb_forall in H. exact (IHl x Hx depth (H x Hx)).
  - destruct depth as [|depth]; [discriminate|].
    cbn [within encode_error] in *. apply first_error_none.
    apply Forall_map. rewrite Forall_forall in *. intros kv Hkv.
    rewrite forallb_forall in H. exact (IHd kv Hkv depth (H kv Hkv)).
Qed.

Lemma json_dumps_within (ea : bool) (depth : nat) (v : value) :
  within depth v = true -> json_dumps ea depth v = Ok (encode ea v).
Proof.
  intros H. unfold json_dumps. rewrite (encode_error_within v depth H).
  reflexivity.
Qed.

Section Parsed.

Context {limits : Limits}.
Variable isprint : codepoint -> bool.
Variable fl : str -> str.

(** What [json.loads] returns is within the limits it ran with. *)
Lemma json_loads_within (s : str) (v : value) :
  json_loads fl s = Ok v -> within depth_in_callee v = true.
Proof.
  unfold json_loads.
  destruct (starts_with 65279%N s); [discriminate|].
  destruct (scan_once fl (2 * List.length s + 1) depth_in_callee (skip_ws s))
    as [v' r| |e|] eqn:E; try discriminate.
  destruct (skip_ws r); [|discriminate].
  intros H. injection H as <-.
  exact (proj1 (scan_within fl _) _ _ _ _ E).
Qed.

Lemma try_parse_json_within (s : str) :
  within depth_in_callee (try_parse_json fl s) = true.
Proof.
  unfold try_parse_json.
  destruct (json_loads fl s) as [v|e] eqn:E.
  - exact (json_loads_within s v E).
  - reflexivity.
Qed.

(** Lines 86 and 94: [safe_json] writes what [try_parse_json] has read. *)
Lemma safe_json_parsed (s : str) :
  safe_json isprint (try_parse_json fl s)
  = Ok (encode false (try_parse_json fl s)).
Proof.
  unfold safe_json.
  rewrite (json_dumps_within false _ _ (try_parse_json_within s)).
  reflexivity.
Qed.

(** Line 102: so does [json.dumps], one level further in, one frame
    closer to the surface. *)
Lemma json_dumps_result (s : str) :
  json_dumps true depth_in_handler
    (VDict [(lit "result", try_parse_json fl s)])
  = Ok (encode true (VDict [(lit "result", try_parse_json fl s)])).
Proof.
  apply json_dumps_within. unfold depth_in_handler.
  cbn [within forallb snd]. rewrite (try_parse_json_within s). reflexivity.
Qed.

End Parsed.

(** *** Texts past a limit *)

(** More opening brackets than levels left stop the scanner. *)
Lemma scan_deep_array (fl : str -> str) (depth : nat) :
  forall fuel rest,
    scan_once fl fuel depth (repeat 91%N (S depth) ++ rest) = Exhausted
    \/ scan_once fl fuel depth (repeat 91%N (S depth) ++ rest)
       = Failed
           (RecursionError "while decoding a JSON array from a unicode string").
Proof.
  induction depth as [|depth IH]; intros fuel rest.
  - destruct fuel; [left | right]; reflexivity.
  - destruct fuel as [|fuel]; [left; reflexivity|].
    change (repeat 91%N (S (S depth)) ++ rest)
      with (91%N :: 91%N :: repeat 91%N depth ++ rest).
    change (scan_once fl (S fuel) (S depth)
              (91%N :: 91%N :: repeat 91%N depth ++ rest))
      with (parse_elements fl fuel depth
              (91%N :: repeat 91%N depth ++ rest) []).
    destruct fuel as [|fuel]; [left; reflexivity|].
    cbn [parse_elements].
    change (91%N :: repeat 91%N depth ++ rest)
      with (repeat 91%N (S depth) ++ rest).
    destruct (IH fuel rest) as [-> | ->]; [left | right]; reflexivity.
Qed.

(** An integer literal of too many digits stops the number scanner. *)
Lemma match_number_too_long (fl : str -> str) (c : codepoint) (ds : str) :
  forallb is_digit (c :: ds) = true ->
  (c =? 48)%N = false ->
  int_max_str_digits < List.length (c :: ds) ->
  match_number fl (c :: ds)
  = Failed (str_to_int_error (List.length (c :: ds))).
Proof.
  intros Hds H0 Hlen.
  assert (Hc : is_digit c = true)
    by (cbn [forallb] in Hds; apply andb_true_iff in Hds; apply Hds).
  assert (Hint : number_int (c :: ds) = Some (c :: ds, [])).
  { cbn [number_int]. rewrite Hc, H0.
    cbn [forallb] in Hds. apply andb_true_iff in Hds.
    pose proof (span_digits_app ds [] (proj2 Hds) eq_refl) as E.
    rewrite app_nil_r in E. rewrite E. reflexivity. }
  unfold match_number, number_sign. cbn [starts_with].
  rewrite (digit_not c 45 Hc eq_refl), Hint.
  cbn [number_frac number_exp starts_with].
  rewrite (proj2 (Nat.ltb_lt _ _) Hlen). reflexivity.
Qed.

Section PastLimit.

Context {limits : Limits}.
Variable fl : str -> str.

Lemma json_loads_deep_array (n : nat) (rest : str) :
  depth_in_callee < n ->
  json_loads fl (repeat 91%N n ++ rest)
  = Raise (RecursionError "while decoding a JSON array from a unicode string").
Proof.
  intros Hn.
  replace n with (S depth_in_callee + (n - S depth_in_callee)) by lia.
  rewrite repeat_app, <- app_assoc.
  remember (repeat 91%N (n - S depth_in_callee) ++ rest) as more eqn:Hmore.
  clear Hmore.
  pose proof (scan_deep_array fl depth_in_callee
                (2 * List.length (repeat 91%N (S depth_in_callee) ++ more) + 1)
                more) as H.
  remember (repeat 91%N (S depth_in_callee) ++ more) as s eqn:Hs in *.
  assert (Hhead : exists r, s = 91%N :: r)
    by (subst s; eexists; reflexivity).
  destruct Hhead as [r Hr].
  destruct H as [H | H];
    [exfalso; revert H; apply (proj1 (scan_budget fl _)); apply le_n|].
  unfold json_loads.
  replace (skip_ws s) with s by (rewrite Hr; reflexivity).
  match goal with
  | |- context [scan_once ?f ?k ?d ?x] =>
      replace (scan_once f k d x)
        with (@Failed value
                (RecursionError
                   "while decoding a JSON array from a unicode string"))
        by (symmetry; exact H)
  end.
  rewrite Hr. reflexivity.
Qed.

Lemma json_loads_long_integer (c : codepoint) (ds : str) :
  forallb is_digit (c :: ds) = true ->
  (c =? 48)%N = false ->
  int_max_str_digits < List.length (c :: ds) ->
  json_loads fl (c :: ds)
  = Raise (str_to_int_error (List.length (c :: ds))).
Proof.
  intros Hds H0 Hlen.
  assert (Hc : is_digit c = true)
    by (cbn [forallb] in Hds; apply andb_true_iff in Hds; apply Hds).
  unfold json_loads. cbn [starts_with skip_ws].
  rewrite (digit_not c 65279 Hc eq_refl).
  assert (Hws : is_ws c = false).
  { unfold is_ws. rewrite !(digit_not c _ Hc) by reflexivity. reflexivity. }
  rewrite Hws.
  replace (2 * List.length (c :: ds) + 1)
    with (S (2 * List.length (c :: ds))) by lia.
  rewrite (scan_once_number fl _ c ds (or_introl Hc) depth_in_callee).
  rewrite (match_number_too_long fl c ds Hds H0 Hlen). reflexivity.
Qed.

End PastLimit.

(** *** One run of the handler, path by path *)

Section Run.

Variable isprint : codepoint -> bool.
Variable float_repr : str -> str.
Context {limits : Limits}.
Variable env : Env.

(** Lines 58, 82, 112 and 120: the objects the handler builds itself are
    within the limits of [json.dumps]. *)
Lemma json_dumps_payload (t : str) :
  json_dumps true depth_in_handler (payload t) = Ok (encode true (payload t)).
Proof. apply json_dumps_within. reflexivity. Qed.

Lemma json_dumps_bad_request (event : value) :
  json_dumps true depth_in_handler (bad_request_body isprint event)
  = Ok (encode true (bad_request_body isprint event)).
Proof. apply json_dumps_within. reflexivity. Qed.

Lemma json_dumps_error (e : exn) :
  json_dumps true depth_in_handler (VDict [(lit "error", VStr (exn_str e))])
  = Ok (encode true (VDict [(lit "error", VStr (exn_str e))])).
Proof. apply json_dumps_within. reflexivity. Qed.

Lemma safe_json_invoke_error (e : exn) :
  safe_json isprint (VDict [(lit "invoke_error", VStr (exn_str e))])
  = Ok (encode false (VDict [(lit "invoke_error", VStr (exn_str e))])).
Proof.
  unfold safe_json. rewrite json_dumps_within by reflexivity. reflexivity.
Qed.

(** The [try] block: the call is recorded, then either the call or the read
    raises, or the record is written and the write is accepted or raises. *)
Lemma invoke_and_log_run (t item_id : str) (w : World) :
  invoke_and_log isprint float_repr env t item_id w =
  let w1 := sent (invoke_args env (request_bytes t)) w in
  match remote_call env t with
  | Raise e => (Raise e, w1)
  | Ok raw =>
      let item :=
        ok_item float_repr t item_id raw (time_time env (clock_reads w)) in
      match dynamo_put_item env (put_calls w) item with
      | None =>
          (Ok (response_200 float_repr raw),
           stored item (issued item (tick w1)))
      | Some e => (Raise e, issued item (tick w1))
      end
  end.
Proof.
  unfold invoke_and_log, remote_call, bind, lift.
  rewrite json_dumps_payload, encode_utf8_request.
  unfold call_invoke_endpoint.
  destruct (runtime_invoke_endpoint env (invoke_args env (request_bytes t)))
    as [resp|e]; [|reflexivity].
  destruct (Body_read resp) as [raw|e]; [|reflexivity].
  cbn zeta. rewrite safe_json_parsed, json_dumps_result.
  unfold call_time, call_put_item, ok_item. cbn.
  destruct (dynamo_put_item env (put_calls w) _); reflexivity.
Qed.

(** The [except] handler: one write, and the 502 response if it is
    accepted. *)
Lemma log_failure_run (t item_id : str) (e : exn) (w : World) :
  log_failure isprint env t item_id e w =
  let item := error_item t item_id e (time_time env (clock_reads w)) in
  match dynamo_put_item env (put_calls w) item with
  | None => (Ok (response_502 e), stored item (issued item (tick w)))
  | Some e' => (Raise e', issued item (tick w))
  end.
Proof.
  unfold log_failure, bind, lift.
  rewrite safe_json_invoke_error, json_dumps_error.
  unfold call_time, call_put_item, error_item. cbn.
  destruct (dynamo_put_item env (put_calls w) _); reflexivity.
Qed.

(** An event whose text passes validation reaches line 75. *)
Lemma handler_run_valid (event : value) (ctx : LambdaContext) (t : str)
    (w : World) :
  extracted_text float_repr event = Some t ->
  lambda_handler isprint float_repr env event ctx w =
  let item_id := make_item_id (time_time env (clock_reads w)) ctx in
  try_except
    (invoke_and_log isprint float_repr env t item_id)
    (log_failure isprint env t item_id)
    (tick w).
Proof.
  unfold extracted_text, lambda_handler, bind, lift.
  destruct (_parse_body float_repr event) as [b|e]; [|discriminate].
  destruct (py_get b (lit "inputs") (VStr [])) as [v|e]; [|discriminate].
  destruct v; try discriminate.
  destruct (str_truthy (strip s)); [|discriminate].
  intros H. injection H as ->. reflexivity.
Qed.

(** Any other event leaves at line 52 with an exception or at line 55 with
    the 400 response, and touches nothing. *)
Lemma handler_run_invalid (event : value) (ctx : LambdaContext) (w : World) :
  extracted_text float_repr event = None ->
  (exists e, lambda_handler isprint float_repr env event ctx w = (Raise e, w))
  \/ lambda_handler isprint float_repr env event ctx w
     = (Ok (response_400 isprint event), w).
Proof.
  unfold extracted_text, lambda_handler, bind, lift.
  destruct (_parse_body float_repr event) as [b|e];
    [|intros _; left; exists e; reflexivity].
  destruct (py_get b (lit "inputs") (VStr [])) as [v|e];
    [|intros _; left; exists e; reflexivity].
  destruct v; try (intros _; right; reflexivity).
  destruct (str_truthy (strip s)); [discriminate|].
  intros _. right. reflexivity.
Qed.

(** The whole run from the initial trace, for a text that passes
    validation: the clock is read, the endpoint is called, and the [except]
    handler takes over an exception of the call, of the read, or of the
    write of the success record. *)
Lemma handler_run_paths (event : value) (ctx : LambdaContext) (t : str) :
  extracted_text float_repr event = Some t ->
  lambda_handler isprint float_repr env event ctx initial =
  let item_id := make_item_id (time_time env 0) ctx in
  let w1 := sent (invoke_args env (request_bytes t)) (tick initial) in
  match remote_call env t with
  | Raise e => log_failure isprint env t item_id e w1
  | Ok raw =>
      let item := ok_item float_repr t item_id raw (time_time env 1) in
      match dynamo_put_item env [] item with
      | None =>
          (Ok (response_200 float_repr raw),
           stored item (issued item (tick w1)))
      | Some e => log_failure isprint env t item_id e (issued item (tick w1))
      end
  end.
Proof.
  intros H. rewrite (handler_run_valid event ctx t initial H).
  cbn zeta. unfold try_except. rewrite invoke_and_log_run. cbn zeta.
  destruct (remote_call env t) as [raw|e]; [|reflexivity].
  cbn [tick initial clock_reads put_calls].
  destruct (dynamo_put_item env [] _); reflexivity.
Qed.

End Run.

(** Lines 32-39: a flag that is not [True] leaves a [str] body to
    [json.loads] undecoded. *)
Lemma base64_skipped_unless_flag_is_True_aux {limits : Limits}
    (float_repr : str -> str) (d : list (str * value)) (s : str) :
  dict_lookup (lit "body") d = Some (VStr s) ->
  dict_get (lit "isBase64Encoded") VNone d <> VBool true ->
  _parse_body float_repr (VDict d) = loads_or_empty float_repr s.
Proof.
  intros Hbody Hflag. unfold _parse_body. rewrite Hbody.
  unfold decode_body.
  destruct (dict_get (lit "isBase64Encoded") VNone d) as [| [|] | | | | |];
    try reflexivity.
  contradiction Hflag. reflexivity.
Qed.

(** *** The claims of the specification *)

Section Claims.

Variable isprint : codepoint -> bool.
Variable float_repr : str -> str.
Context {limits : Limits}.
Variable env : Env.

(** C4, as amended.  When the event's text passes validation, the endpoint
    answers bytes and the table accepts the write of the success record,
    the handler decodes the bytes as UTF-8 with replacement, parses them as
    JSON or wraps the text under ["_raw"], writes exactly one record, of
    status ["ok"], whose [response] is the JSON text of the parsed result,
    and returns 200 with the body [{"result": <parsed result>}].  (When
    that write raises, the [except] handler takes over: C2.) *)
Theorem success_logs_ok_and_returns_200 (event : value) (ctx : LambdaContext)
    (t : str) (raw : bytes) :
  extracted_text float_repr event = Some t ->
  remote_call env t = Ok raw ->
  let item_id := make_item_id (time_time env 0) ctx in
  let decoded := utf8_decode_replace raw in
  let result :=
    match json_loads float_repr decoded with
    | Ok v => v
    | Raise _ => VDict [(lit "_raw", VStr decoded)]
    end in
  let item :=
    {| log_id := item_id;
       log_request_id := item_id;
       log_status := lit "ok";
       log_prompt := firstn 4000 t;
       log_response := encode false result;
       log_timestamp := py_int (time_time env 1) |} in
  dynamo_put_item env [] item = None ->
  lambda_handler isprint float_repr env event ctx initial =
  (Ok {| statusCode := 200;
         headers := [(lit "Content-Type", lit "application/json")];
         body := encode true (VDict [(lit "result", result)]) |},
   {| clock_reads := 2;
      invocations := [invoke_args env (request_bytes t)];
      put_calls := [item];
      table := [item] |}).
Proof.
  intros Ht Hraw item_id decoded result item Hput.
  rewrite (handler_run_paths isprint float_repr env event ctx t Ht). cbn zeta.
  rewrite Hraw.
  change (ok_item float_repr t (make_item_id (time_time env 0) ctx)
            raw (time_time env 1)) with item.
  rewrite Hput. reflexivity.
Qed.

(** C5, as amended.  When the event's text passes validation, the call to
    the endpoint or the read of its response raises [e] (decoding with
    replacement and [try_parse_json] raise nothing) and the table accepts
    the write of the error record, the handler writes exactly one record,
    of status ["error"], whose [response] is the JSON text of
    [{"invoke_error": str(e)}], and returns 502 with the body
    [{"error": str(e)}].  (When that write raises, its exception leaves the
    handler: C2.) *)
Theorem remote_failure_logs_error_and_returns_502 (event : value)
    (ctx : LambdaContext) (t : str) (e : exn) :
  extracted_text float_repr event = Some t ->
  remote_call env t = Raise e ->
  let item_id := make_item_id (time_time env 0) ctx in
  let item :=
    {| log_id := item_id;
       log_request_id := item_id;
       log_status := lit "error";
       log_prompt := firstn 4000 t;
       log_response :=
         encode false (VDict [(lit "invoke_error", VStr (exn_str e))]);
       log_timestamp := py_int (time_time env 1) |} in
  dynamo_put_item env [] item = None ->
  lambda_handler isprint float_repr env event ctx initial =
  (Ok {| statusCode := 502;
         headers := [(lit "Content-Type", lit "application/json")];
         body := encode true (VDict [(lit "error", VStr (exn_str e))]) |},
   {| clock_reads := 2;
      invocations := [invoke_args env (request_bytes t)];
      put_calls := [item];
      table := [item] |}).
Proof.
  intros Ht Hraw item_id item Hput.
  rewrite (handler_run_paths isprint float_repr env event ctx t Ht). cbn zeta.
  rewrite Hraw, log_failure_run. cbn zeta.
  change (error_item t (make_item_id (time_time env 0) ctx) e
            (time_time env
               (clock_reads
                  (sent (invoke_args env (request_bytes t)) (tick initial)))))
    with item.
  cbn [put_calls sent tick initial].
  rewrite Hput. reflexivity.
Qed.

(** C6.  When the candidate extracted from the event is not a [str], or is
    a [str] that is empty once stripped, the handler returns 400 with the
    body [{"error": "Empty or missing 'inputs' received by Lambda",
    "raw_event_sample": str(event)[:500]}] and leaves the trace as it found
    it: no record is written and the endpoint is not called. *)
Theorem invalid_inputs_get_400_and_no_effect (event : value)
    (ctx : LambdaContext) (w : World) (parsed text : value) :
  _parse_body float_repr event = Ok parsed ->
  py_get parsed (lit "inputs") (VStr []) = Ok text ->
  (isinstance_str text = false \/ exists t, text = VStr t /\ strip t = []) ->
  lambda_handler isprint float_repr env event ctx w =
  (Ok {| statusCode := 400;
         headers := [(lit "Content-Type", lit "application/json")];
         body :=
           encode true
             (VDict
                [(lit "error",
                  VStr (lit "Empty or missing 'inputs' received by Lambda"));
                 (lit "raw_event_sample",
                  VStr (firstn 500 (py_str isprint event)))]) |},
   w).
Proof.
  intros Hparse Hget Hbad.
  unfold lambda_handler, bind, lift. rewrite Hparse, Hget.
  destruct Hbad as [Hnot | (t & -> & Hempty)].
  - destruct text; try reflexivity. discriminate Hnot.
  - rewrite Hempty. reflexivity.
Qed.

(** C7.  When extraction yields a text [t] that is not empty once
    stripped, exactly one request is sent to the endpoint: the JSON text of
    [{"inputs": t, "parameters": {...}}] with [t] itself (not stripped) and
    the fixed decoding configuration: 128 new tokens, temperature 0.0,
    top-p 0.9, no sampling, no echo of the prompt. *)
Theorem forwarded_request_has_text_and_fixed_parameters (event : value)
    (ctx : LambdaContext) (t : str) :
  extracted_text float_repr event = Some t ->
  invocations (snd (lambda_handler isprint float_repr env event ctx initial)) =
  [ {| EndpointName := ENDPOINT env;
       ContentType := lit "application/json";
       Accept := lit "application/json";
       Body :=
         encode true
           (VDict
              [(lit "inputs", VStr t);
               (lit "parameters",
                VDict
                  [(lit "max_new_tokens", VInt 128);
                   (lit "temperature", VFloat (lit "0.0"));
                   (lit "top_p", VFloat (lit "0.9"));
                   (lit "do_sample", VBool false);
                   (lit "return_full_text", VBool false)])]) |} ].
Proof.
  intros Ht.
  rewrite (handler_run_paths isprint float_repr env event ctx t Ht). cbn zeta.
  destruct (remote_call env t) as [raw|e].
  - destruct (dynamo_put_item env [] _) as [e|]; [|reflexivity].
    rewrite log_failure_run. cbn zeta.
    destruct (dynamo_put_item env _ _); reflexivity.
  - rewrite log_failure_run. cbn zeta.
    destruct (dynamo_put_item env _ _); reflexivity.
Qed.

(** C9.  For a text longer than 4000 code points that reaches the
    invocation step, every record the handler writes, on the success and on
    the error path, has for [prompt] exactly the first 4000 code points of
    the text, and there is at least one such record; the request sent to
    the endpoint carries the whole text. *)
Theorem long_prompt_is_cut_in_the_log_only (event : value)
    (ctx : LambdaContext) (t : str) :
  extracted_text float_repr event = Some t ->
  4000 < List.length t ->
  let w := snd (lambda_handler isprint float_repr env event ctx initial) in
  put_calls w <> []
  /\ (forall item, In item (put_calls w) ->
        log_prompt item = firstn 4000 t
        /\ List.length (log_prompt item) = 4000)
  /\ List.map Body (invocations w) = [encode true (payload t)]
  /\ py_get (payload t) (lit "inputs") VNone = Ok (VStr t).
Proof.
  intros Ht Hlen w.
  assert (Hcut : List.length (firstn 4000 t) = 4000)
    by (rewrite length_firstn; lia).
  assert (Hitem : forall id st resp now item,
             item = log_item id st t resp now ->
             log_prompt item = firstn 4000 t
             /\ List.length (log_prompt item) = 4000)
    by (intros id st resp now item ->; split; [reflexivity | exact Hcut]).
  subst w.
  rewrite (handler_run_paths isprint float_repr env event ctx t Ht). cbn zeta.
  destruct (remote_call env t) as [raw|e].
  - destruct (dynamo_put_item env [] _) as [e|].
    + rewrite log_failure_run. cbn zeta.
      destruct (dynamo_put_item env _ _); cbn;
        (split; [discriminate|]); (split; [|split; reflexivity]);
        intros item [<- | [<- | []]]; eapply Hitem; reflexivity.
    + cbn. split; [discriminate|]. split; [|split; reflexivity].
      intros item [<- | []]. eapply Hitem; reflexivity.
  - rewrite log_failure_run. cbn zeta.
    destruct (dynamo_put_item env _ _); cbn;
      (split; [discriminate|]); (split; [|split; reflexivity]);
      intros item [<- | []]; eapply Hitem; reflexivity.
Qed.

(** C10.  The body is base64-decoded only when [isBase64Encoded] is the
    boolean [True] itself: with any other value under that key (or none),
    a [str] body goes to [json.loads] as it stands (lines 39-43). *)
Theorem base64_skipped_unless_flag_is_True (d : list (str * value))
    (s : str) :
  dict_lookup (lit "body") d = Some (VStr s) ->
  dict_get (lit "isBase64Encoded") VNone d <> VBool true ->
  _parse_body float_repr (VDict d) = loads_or_empty float_repr s.
Proof.
  exact (base64_skipped_unless_flag_is_True_aux float_repr d s).
Qed.

(** C1.  The claim fails on the code: a [str] body that is valid JSON and
    not an object (a list, a number, a string, [true], [null]) is returned
    by [_parse_body] as it is, and line 52 calls [.get] on it; the handler
    raises [AttributeError] before any write, and returns no response. *)
Theorem non_mapping_json_body_raises (d : list (str * value)) (s : str)
    (v : value) (ctx : LambdaContext) (w : World) :
  dict_lookup (lit "body") d = Some (VStr s) ->
  dict_get (lit "isBase64Encoded") VNone d <> VBool true ->
  json_loads float_repr s = Ok v ->
  isinstance_dict v = false ->
  lambda_handler isprint float_repr env (VDict d) ctx w =
  (Raise
     (Exn "AttributeError"
        (lit "'" ++ type_name v ++ lit "' object has no attribute 'get'")),
   w).
Proof.
  intros Hbody Hflag Hloads Hnot.
  unfold lambda_handler, bind, lift.
  rewrite (base64_skipped_unless_flag_is_True_aux float_repr d s Hbody Hflag).
  unfold loads_or_empty. rewrite Hloads.
  destruct v; try reflexivity. discriminate Hnot.
Qed.

(** C2, as amended.  For a text that passes validation: a failure of the
    write issued by the [except] handler (lines 107-115) is not caught and
    leaves the handler as it is; a failure [e] of the write of the success
    record (line 97) is inside the [try] and is caught: the handler issues
    a second write, of an ["error"] record naming [e], and returns 502 with
    [{"error": str(e)}] when that write is accepted, and raises that
    write's exception when it is not. *)
Theorem log_write_failure_escapes_from_except_only (event : value)
    (ctx : LambdaContext) (t : str) :
  extracted_text float_repr event = Some t ->
  let run := lambda_handler isprint float_repr env event ctx initial in
  let item_id := make_item_id (time_time env 0) ctx in
  (forall e e',
      remote_call env t = Raise e ->
      dynamo_put_item env []
        (error_item t item_id e (time_time env 1)) = Some e' ->
      fst run = Raise e')
  /\ (forall raw e,
        remote_call env t = Ok raw ->
        let first :=
          ok_item float_repr t item_id raw (time_time env 1) in
        let second := error_item t item_id e (time_time env 2) in
        dynamo_put_item env [] first = Some e ->
        put_calls (snd run) = [first; second]
        /\ match dynamo_put_item env [first] second with
           | None =>
               fst run =
               Ok {| statusCode := 502;
                     headers := [(lit "Content-Type", lit "application/json")];
                     body :=
                       encode true (VDict [(lit "error", VStr (exn_str e))]) |}
           | Some e' => fst run = Raise e'
           end).
Proof.
  intros Ht run item_id. subst run.
  rewrite (handler_run_paths isprint float_repr env event ctx t Ht). cbn zeta.
  split.
  - intros e e' Hraw Hput. rewrite Hraw, log_failure_run. cbn zeta.
    cbn [put_calls clock_reads sent tick initial].
    fold item_id. rewrite Hput. reflexivity.
  - intros raw e Hraw Hput. rewrite Hraw.
    fold item_id. rewrite Hput, log_failure_run. cbn zeta.
    cbn [put_calls clock_reads issued sent tick initial app].
    destruct
      (dynamo_put_item env
         [ok_item float_repr t item_id raw (time_time env 1)]
         (error_item t item_id e (time_time env 2)));
      split; reflexivity.
Qed.

(** C3, as amended.  An invocation that fails validation issues no write.
    One that passes it issues exactly one write, unless the endpoint
    answers and the write of the success record raises: the [except]
    handler then issues a second write, two in all. *)
Theorem log_writes_issued_per_invocation (event : value)
    (ctx : LambdaContext) :
  let w := snd (lambda_handler isprint float_repr env event ctx initial) in
  match extracted_text float_repr event with
  | None => put_calls w = []
  | Some t =>
      match remote_call env t with
      | Raise _ => List.length (put_calls w) = 1
      | Ok raw =>
          match
            dynamo_put_item env []
              (ok_item float_repr t
                 (make_item_id (time_time env 0) ctx) raw (time_time env 1))
          with
          | None => List.length (put_calls w) = 1
          | Some _ => List.length (put_calls w) = 2
          end
      end
  end.
Proof.
  cbn zeta.
  destruct (extracted_text float_repr event) as [t|] eqn:Ht.
  - rewrite (handler_run_paths isprint float_repr env event ctx t Ht).
    cbn zeta.
    destruct (remote_call env t) as [raw|e].
    + destruct (dynamo_put_item env [] _) as [e|]; [|reflexivity].
      rewrite log_failure_run. cbn zeta.
      destruct (dynamo_put_item env _ _); reflexivity.
    + rewrite log_failure_run. cbn zeta.
      destruct (dynamo_put_item env _ _); reflexivity.
  - destruct (handler_run_invalid isprint float_repr env event ctx initial Ht)
      as [[e ->] | ->]; reflexivity.
Qed.

(** C8.  The proxied envelope [{"body": "{\"inputs\": \"hello\"}"}] is
    normalised to [{"inputs": "hello"}] and yields the text ["hello"]; the
    envelope [{"body": "eyJpbnB1dHMiOiAiaGkifQ==", "isBase64Encoded":
    true}], whose body is the base64 form of [{"inputs": "hi"}], is
    normalised to [{"inputs": "hi"}] and yields ["hi"]. *)
Theorem proxied_envelopes_yield_their_inputs :
  (Samples.proxied_hello
   = VDict
       [(lit "body",
         VStr (lit "{" ++ dquote :: lit "inputs" ++ dquote :: lit ": "
                 ++ dquote :: lit "hello" ++ dquote :: lit "}"))]
   /\ _parse_body float_repr Samples.proxied_hello
      = Ok (VDict [(lit "inputs", VStr (lit "hello"))])
   /\ extracted_text float_repr Samples.proxied_hello = Some (lit "hello"))
  /\ (Samples.proxied_base64_hi
      = VDict
          [(lit "body", VStr (lit "eyJpbnB1dHMiOiAiaGkifQ=="));
           (lit "isBase64Encoded", VBool true)]
      /\ _parse_body float_repr Samples.proxied_base64_hi
         = Ok (VDict [(lit "inputs", VStr (lit "hi"))])
      /\ extracted_text float_repr Samples.proxied_base64_hi
         = Some (lit "hi")).
Proof.
  repeat split; vm_compute; reflexivity.
Qed.

(** *** Beyond the claims *)

(** The proxied envelope around [json.dumps({"inputs": t})] is normalised
    to [{"inputs": t}] for every well-formed text [t], and [t] is the text
    extracted when it is not blank. *)
Theorem proxied_body_recovers_text (t : str) :
  well_formed t = true ->
  let event :=
    VDict [(lit "body", VStr (encode true (VDict [(lit "inputs", VStr t)])))] in
  _parse_body float_repr event = Ok (VDict [(lit "inputs", VStr t)])
  /\ (str_truthy (strip t) = true -> extracted_text float_repr event = Some t).
Proof.
  intros Hwf event.
  assert (Hparse : _parse_body float_repr event
                   = Ok (VDict [(lit "inputs", VStr t)])).
  { unfold event.
    rewrite (base64_skipped_unless_flag_is_True_aux float_repr _
               (encode true (VDict [(lit "inputs", VStr t)]))).
    - unfold loads_or_empty.
      rewrite (json_loads_inputs_object float_repr t Hwf). reflexivity.
    - reflexivity.
    - discriminate. }
  split; [exact Hparse|].
  intros Hstrip. unfold extracted_text. rewrite Hparse.
  cbn [py_get]. change (dict_get (lit "inputs") (VStr []) _) with (VStr t).
  cbn iota. rewrite Hstrip. reflexivity.
Qed.

(** The same through base64: the envelope whose body is the base64 form of
    [json.dumps({"inputs": t})], flagged [isBase64Encoded: true]. *)
Theorem base64_body_recovers_text (t : str) :
  well_formed t = true ->
  let event :=
    VDict
      [(lit "body",
        VStr (b64encode (encode true (VDict [(lit "inputs", VStr t)]))));
       (lit "isBase64Encoded", VBool true)] in
  _parse_body float_repr event = Ok (VDict [(lit "inputs", VStr t)])
  /\ (str_truthy (strip t) = true -> extracted_text float_repr event = Some t).
Proof.
  intros Hwf event.
  assert (Hparse : _parse_body float_repr event
                   = Ok (VDict [(lit "inputs", VStr t)])).
  { unfold event, _parse_body.
    change (dict_lookup (lit "body") _)
      with (Some (VStr (b64encode
                          (encode true (VDict [(lit "inputs", VStr t)]))))).
    unfold decode_body.
    change (is_True (dict_get (lit "isBase64Encoded") VNone _)) with true.
    cbn iota.
    rewrite b64decode_b64encode
      by (apply ascii_is_byte, encode_inputs_object_ascii).
    rewrite utf8_decode_replace_ascii by apply encode_inputs_object_ascii.
    unfold loads_or_empty.
    rewrite (json_loads_inputs_object float_repr t Hwf). reflexivity. }
  split; [exact Hparse|].
  intros Hstrip. unfold extracted_text. rewrite Hparse.
  cbn [py_get]. change (dict_get (lit "inputs") (VStr []) _) with (VStr t).
  cbn iota. rewrite Hstrip. reflexivity.
Qed.

(** What the handler can end with.  A response it returns has for body the
    JSON text of an object with an [error] or a [result] key.  An exception
    it raises is the [AttributeError] of line 52, for a parsed body that is
    not a dict; or the [RecursionError] or [ValueError] that [json.loads]
    raised at line 41 on a body nested too deep or holding an integer of
    too many digits (line 42 catches [JSONDecodeError] only), before
    anything was sent or written; or the exception of the last write it
    issued. *)
Theorem handler_outcomes (event : value) (ctx : LambdaContext) :
  let run := lambda_handler isprint float_repr env event ctx initial in
  match fst run with
  | Ok resp =>
      exists d,
        body resp = encode true (VDict d)
        /\ (dict_contains (lit "error") d = true
            \/ dict_contains (lit "result") d = true)
  | Raise e =>
      (exists parsed,
          _parse_body float_repr event = Ok parsed
          /\ isinstance_dict parsed = false
          /\ e = Exn "AttributeError"
                   (lit "'" ++ type_name parsed
                      ++ lit "' object has no attribute 'get'"))
      \/ (_parse_body float_repr event = Raise e
          /\ limit_error e
          /\ snd run = initial)
      \/ (exists earlier item,
             put_calls (snd run) = earlier ++ [item]
             /\ dynamo_put_item env earlier item = Some e)
  end.
Proof.
  cbn zeta.
  destruct (extracted_text float_repr event) as [t|] eqn:Ht.
  - rewrite (handler_run_paths isprint float_repr env event ctx t Ht).
    cbn zeta.
    assert (Hfail : forall e w,
               match fst (log_failure isprint env t
                            (make_item_id (time_time env 0) ctx) e w) with
               | Ok resp =>
                   exists d,
                     body resp = encode true (VDict d)
                     /\ (dict_contains (lit "error") d = true
                         \/ dict_contains (lit "result") d = true)
               | Raise e' =>
                   exists earlier item,
                     put_calls
                       (snd (log_failure isprint env t
                               (make_item_id (time_time env 0) ctx) e w))
                     = earlier ++ [item]
                     /\ dynamo_put_item env earlier item = Some e'
               end).
    { intros e w. rewrite log_failure_run. cbn zeta.
      destruct (dynamo_put_item env (put_calls w) _) as [e'|] eqn:Hput;
        cbn [fst snd].
      - eexists _, _. split; [reflexivity | exact Hput].
      - exists [(lit "error", VStr (exn_str e))].
        split; [reflexivity | left; reflexivity]. }
    destruct (remote_call env t) as [raw|e].
    + destruct (dynamo_put_item env [] _) as [e|].
      * specialize (Hfail e
          (issued
             (ok_item float_repr t
                (make_item_id (time_time env 0) ctx) raw (time_time env 1))
             (tick
                (sent (invoke_args env (request_bytes t)) (tick initial))))).
        destruct (fst (log_failure _ _ _ _ _ _));
          [exact Hfail | right; right; exact Hfail].
      * cbn [fst].
        exists
          [(lit "result", try_parse_json float_repr (utf8_decode_replace raw))].
        split; [reflexivity | right; reflexivity].
    + specialize
        (Hfail e (sent (invoke_args env (request_bytes t)) (tick initial))).
      destruct (fst (log_failure _ _ _ _ _ _));
        [exact Hfail | right; right; exact Hfail].
  - revert Ht. unfold extracted_text, lambda_handler, bind, lift.
    destruct (parse_body_outcomes float_repr event)
      as [[parsed ->] | (d & s & raw & e & _ & _ & _ & _ & He & ->)];
      [|intros _; cbn [fst snd]; right; left;
        split; [reflexivity | split; [exact He | reflexivity]]].
    assert (H400 : exists d,
               body (response_400 isprint event) = encode true (VDict d)
               /\ (dict_contains (lit "error") d = true
                   \/ dict_contains (lit "result") d = true))
      by (exists [(lit "error",
                   VStr (lit "Empty or missing 'inputs' received by Lambda"));
                  (lit "raw_event_sample",
                   VStr (slice_to 500 (py_str isprint event)))];
          split; [reflexivity | left; reflexivity]).
    destruct parsed as [| | | | | |d];
      try (intros _; cbn [py_get fst]; left; eexists; repeat split;
           reflexivity).
    cbn [py_get].
    destruct (dict_get (lit "inputs") (VStr []) d) as [| | | |s| |];
      try (intros _; exact H400).
    destruct (str_truthy (strip s)); [discriminate|].
    intros _. exact H400.
Qed.
End Claims.

(** *** Further properties of the program *)

Section Coverage.

Variable isprint : codepoint -> bool.
Variable float_repr : str -> str.
Context {limits : Limits}.
Variable env : Env.

(** The validation of line 54 on a parsed body that is a dict: the value
    under [inputs] is accepted exactly when it is a [str] with at least one
    character that is not white space. *)
Theorem text_accepted_iff_not_blank (event : value)
    (d : list (str * value)) (t : str) :
  _parse_body float_repr event = Ok (VDict d) ->
  dict_get (lit "inputs") (VStr []) d = VStr t ->
  extracted_text float_repr event
  = if forallb isspace t then None else Some t.
Proof.
  intros Hparse Hget. unfold extracted_text. rewrite Hparse.
  cbn [py_get]. rewrite Hget, strip_truthy.
  destruct (forallb isspace t); reflexivity.
Qed.

(** The response and the table agree.  Whatever the event and the
    environment, the table holds at most one record of the invocation: an
    ["ok"] record exactly when the handler returns 200, an ["error"] record
    exactly when it returns 502, none when it returns 400 (and then nothing
    was written or sent) or raises.  Every response carries the JSON
    content type. *)
Theorem response_and_table_agree (event : value) (ctx : LambdaContext) :
  let run := lambda_handler isprint float_repr env event ctx initial in
  match fst run with
  | Ok resp =>
      headers resp = [(lit "Content-Type", lit "application/json")]
      /\ ((statusCode resp = 200%Z
           /\ List.map log_status (table (snd run)) = [lit "ok"])
          \/ (statusCode resp = 502%Z
              /\ List.map log_status (table (snd run)) = [lit "error"])
          \/ (statusCode resp = 400%Z /\ snd run = initial))
  | Raise _ => table (snd run) = []
  end.
Proof.
  cbn zeta.
  destruct (extracted_text float_repr event) as [t|] eqn:Ht.
  - rewrite (handler_run_paths isprint float_repr env event ctx t Ht).
    cbn zeta.
    destruct (remote_call env t) as [raw|e].
    + destruct (dynamo_put_item env [] _) as [e|].
      * rewrite log_failure_run. cbn zeta.
        destruct (dynamo_put_item env _ _); cbn [fst snd].
        -- reflexivity.
        -- split; [reflexivity|]. right. left. split; reflexivity.
      * cbn [fst snd]. split; [reflexivity|]. left. split; reflexivity.
    + rewrite log_failure_run. cbn zeta.
      destruct (dynamo_put_item env _ _); cbn [fst snd].
      * reflexivity.
      * split; [reflexivity|]. right. left. split; reflexivity.
  - destruct (handler_run_invalid isprint float_repr env event ctx initial Ht)
      as [[e ->] | ->]; cbn [fst snd].
    + reflexivity.
    + split; [reflexivity|]. right. right. split; reflexivity.
Qed.


(** An envelope with a [body] key is read through its body alone: setting
    a top-level [inputs] on it (as a direct invocation would carry)
    changes neither the parsed body nor the extracted text. *)
Theorem body_shadows_top_level_inputs (d : list (str * value))
    (v : value) :
  dict_contains (lit "body") d = true ->
  _parse_body float_repr (VDict (dict_set (lit "inputs") v d))
  = _parse_body float_repr (VDict d)
  /\ extracted_text float_repr (VDict (dict_set (lit "inputs") v d))
     = extracted_text float_repr (VDict d).
Proof.
  intros Hbody.
  assert (Hparse : _parse_body float_repr (VDict (dict_set (lit "inputs") v d))
                   = _parse_body float_repr (VDict d)).
  { unfold _parse_body, decode_body, dict_get.
    rewrite !dict_lookup_set_other by reflexivity.
    unfold dict_contains in Hbody.
    destruct (dict_lookup (lit "body") d); [reflexivity | discriminate]. }
  split; [exact Hparse|].
  unfold extracted_text. rewrite Hparse. reflexivity.
Qed.

(** Where a parsed body that is not a dict comes from: only from a [body]
    that is a [str] (after the base64 step, when the flag asks for it)
    and holds the JSON text of something else than an object.  Every other
    event gives [lambda_handler] a dict to call [get] on. *)
Theorem parsed_body_not_dict_only_from_text (event parsed : value) :
  _parse_body float_repr event = Ok parsed ->
  isinstance_dict parsed = false ->
  exists d s raw,
    event = VDict d
    /\ dict_lookup (lit "body") d = Some (VStr s)
    /\ decode_body d (VStr s) = Some (VStr raw)
    /\ json_loads float_repr raw = Ok parsed.
Proof.
  unfold _parse_body.
  destruct event as [| | | | | |d];
    try (intros H; injection H as <-; discriminate).
  destruct (dict_lookup (lit "body") d) as [raw0|] eqn:Hbody;
    [|intros H; injection H as <-; discriminate].
  destruct (decode_body d raw0) as [decoded|] eqn:Hdec;
    [|intros H; injection H as <-; discriminate].
  destruct decoded as [| | | |raw| |b];
    try (intros H; injection H as <-; discriminate).
  unfold loads_or_empty.
  destruct (json_loads float_repr raw) as [v|e] eqn:Hloads.
  - intros H Hnot. injection H as <-.
    assert (Hraw0 : exists s, raw0 = VStr s).
    { destruct raw0 as [| | | |s| |]; cbn [decode_body] in Hdec;
        try (injection Hdec as Hdec; discriminate).
      exists s. reflexivity. }
    destruct Hraw0 as [s ->].
    exists d, s, raw. repeat split; assumption.
  - destruct (String.eqb (exn_class e) "JSONDecodeError");
      [intros H; injection H as <-; discriminate | discriminate].
Qed.

(** [_parse_body] raises at line 41 only, and only past a limit of the
    interpreter: an exception of it is the [RecursionError] or the
    [ValueError] that [json.loads] raised on a [str] body (after the base64
    step, when the flag asks for it) nested too deep or holding an integer
    of too many digits.  A body that is not JSON, not base64 or not a
    [str], and an event that is not a dict, raise nothing. *)
Theorem parse_body_raises_past_a_limit_only (event : value) (e : exn) :
  _parse_body float_repr event = Raise e ->
  exists d s raw,
    event = VDict d
    /\ dict_lookup (lit "body") d = Some (VStr s)
    /\ decode_body d (VStr s) = Some (VStr raw)
    /\ json_loads float_repr raw = Raise e
    /\ limit_error e.
Proof.
  intros H.
  destruct (parse_body_outcomes float_repr event)
    as [[v Hv] | (d & s & raw & e' & Hev & Hbody & Hdec & Hloads & He & Hp)].
  - rewrite Hv in H. discriminate.
  - rewrite Hp in H. injection H as <-.
    exists d, s, raw. repeat split; assumption.
Qed.

(** [try_parse_json(safe_json(v)) == v] within the limits.  For a value
    without floats that holds no [int] of more than 4300 digits and is
    nested no deeper than the interpreter lets [json.dumps] go at line 9,
    [safe_json] returns the text [json.dumps] writes, and [try_parse_json]
    reads that text back as the value. *)
Theorem safe_json_parses_back (v : value) :
  plain false v = true ->
  within depth_in_callee v = true ->
  safe_json isprint v = Ok (encode false v)
  /\ try_parse_json float_repr (encode false v) = v.
Proof.
  intros Hv Hin. split.
  - unfold safe_json. rewrite (json_dumps_within false _ v Hin). reflexivity.
  - unfold try_parse_json.
    rewrite (json_loads_encode float_repr false v Hv Hin). reflexivity.
Qed.

(** The texts of the failure path, lines 112 and 120.  The [response] of
    the error record is read back as [{"invoke_error": str(e)}] whatever
    the message is made of; the body of the 502 response is read back as
    [{"error": str(e)}] when the message is well formed. *)
Theorem failure_texts_parse_back (t item_id : str) (e : exn) (now : Q) :
  try_parse_json float_repr
    (log_response (error_item t item_id e now))
  = VDict [(lit "invoke_error", VStr (exn_str e))]
  /\ (well_formed (exn_str e) = true ->
      json_loads float_repr (body (response_502 e))
      = Ok (VDict [(lit "error", VStr (exn_str e))])).
Proof.
  split.
  - cbn [error_item log_item log_response]. unfold try_parse_json.
    rewrite json_loads_encode; reflexivity.
  - intros Hwf. cbn [response_502 body].
    apply json_loads_encode; [|reflexivity].
    cbn [plain List.map fst snd forallb distinct].
    unfold text_ok. cbn [negb orb]. rewrite Hwf. reflexivity.
Qed.

(** A proxied event whose body is the JSON text of an object, written with
    either setting of [ensure_ascii], is normalised to that object, when
    the object is within the limits of [json.loads] at line 41. *)
Theorem proxied_body_recovers_object (ea : bool) (ev d : list (str * value)) :
  plain ea (VDict d) = true ->
  within depth_in_callee (VDict d) = true ->
  dict_lookup (lit "body") ev = Some (VStr (encode ea (VDict d))) ->
  dict_get (lit "isBase64Encoded") VNone ev <> VBool true ->
  _parse_body float_repr (VDict ev) = Ok (VDict d).
Proof.
  intros Hd Hin Hbody Hflag.
  rewrite (base64_skipped_unless_flag_is_True_aux float_repr ev _ Hbody Hflag).
  unfold loads_or_empty.
  rewrite (json_loads_encode float_repr ea (VDict d) Hd Hin). reflexivity.
Qed.

(** Base64 is transparent: an event whose body is the base64 form of the
    UTF-8 bytes of a text, flagged [isBase64Encoded: true], is normalised
    like the event that carries the text itself. *)
Theorem base64_envelope_is_transparent (s : str) (b : bytes)
    (ev1 ev2 : list (str * value)) :
  well_formed s = true ->
  utf8_encode s = Some b ->
  dict_lookup (lit "body") ev1 = Some (VStr (b64encode b)) ->
  dict_get (lit "isBase64Encoded") VNone ev1 = VBool true ->
  dict_lookup (lit "body") ev2 = Some (VStr s) ->
  dict_get (lit "isBase64Encoded") VNone ev2 <> VBool true ->
  _parse_body float_repr (VDict ev1) = _parse_body float_repr (VDict ev2).
Proof.
  intros Hwf Hb Hbody1 Hflag1 Hbody2 Hflag2.
  rewrite (base64_skipped_unless_flag_is_True_aux float_repr ev2 s
             Hbody2 Hflag2).
  destruct (utf8_decode_encoded s b (well_formed_in_range s Hwf) Hb)
    as [Hdec Hbytes].
  unfold _parse_body. rewrite Hbody1. unfold decode_body. rewrite Hflag1.
  cbn [is_True]. rewrite (b64decode_b64encode b Hbytes), Hdec. reflexivity.
Qed.

(** A JSON reply passes through.  When the endpoint answers the JSON text
    of a value [v] without floats, as [json.dumps] writes it, [v] is within
    the limits of [json.loads] at line 15 and the table accepts the record,
    the handler answers 200 with the body [{"result": v}] and stores one
    record, whose [response] is the JSON text of [v], which
    [try_parse_json] reads back as [v]. *)
Theorem json_reply_passes_through (event : value) (ctx : LambdaContext)
    (t : str) (v : value) :
  extracted_text float_repr event = Some t ->
  plain true v = true ->
  within depth_in_callee v = true ->
  remote_call env t = Ok (encode true v) ->
  let run := lambda_handler isprint float_repr env event ctx initial in
  let item :=
    log_item (make_item_id (time_time env 0) ctx) (lit "ok") t
      (encode false v) (time_time env 1) in
  dynamo_put_item env [] item = None ->
  fst run
  = Ok {| statusCode := 200;
          headers := [(lit "Content-Type", lit "application/json")];
          body := encode true (VDict [(lit "result", v)]) |}
  /\ table (snd run) = [item]
  /\ try_parse_json float_repr (log_response item) = v.
Proof.
  intros Ht Hv Hin Hraw run item Hput. unfold run.
  rewrite (handler_run_paths isprint float_repr env event ctx t Ht).
  cbn zeta. rewrite Hraw.
  assert (Hresult :
            try_parse_json float_repr (utf8_decode_replace (encode true v))
            = v).
  { rewrite (utf8_decode_replace_ascii _ (encode_ascii v Hv)).
    unfold try_parse_json.
    rewrite (json_loads_encode float_repr true v Hv Hin). reflexivity. }
  assert (Hitem :
            ok_item float_repr t (make_item_id (time_time env 0) ctx)
              (encode true v) (time_time env 1) = item).
  { unfold ok_item, item. rewrite Hresult. reflexivity. }
  rewrite Hitem, Hput. cbn [fst snd]. split; [|split].
  - unfold response_200. rewrite Hresult. reflexivity.
  - reflexivity.
  - cbn [item log_item log_response].
    unfold try_parse_json.
    rewrite (json_loads_encode float_repr false v (plain_weaken v Hv) Hin).
    reflexivity.
Qed.

(** A body nested too deep.  A [str] body that opens more lists than the
    interpreter lets [json.loads] enter at line 41 makes it raise
    [RecursionError], whatever follows the brackets; line 42 does not catch
    it, and it leaves [lambda_handler] before anything is sent or
    written. *)
Theorem deep_body_raises_recursion_error (d : list (str * value)) (n : nat)
    (rest : str) (ctx : LambdaContext) (w : World) :
  dict_lookup (lit "body") d = Some (VStr (repeat 91%N n ++ rest)) ->
  dict_get (lit "isBase64Encoded") VNone d <> VBool true ->
  depth_in_callee < n ->
  lambda_handler isprint float_repr env (VDict d) ctx w =
  (Raise
     (Exn "RecursionError"
        (lit "maximum recursion depth exceeded while decoding a JSON array from a unicode string")),
   w).
Proof.
  intros Hbody Hflag Hn.
  unfold lambda_handler, bind, lift.
  rewrite (base64_skipped_unless_flag_is_True_aux float_repr d _ Hbody Hflag).
  unfold loads_or_empty.
  rewrite (json_loads_deep_array float_repr n rest Hn). reflexivity.
Qed.

(** A body that is an integer of too many digits.  A [str] body made of
    more than 4300 digits (the first one not [0]) makes [json.loads] raise
    at line 41 the [ValueError] of [int], which is no [JSONDecodeError];
    it leaves [lambda_handler] before anything is sent or written. *)
Theorem long_integer_body_raises_value_error (d : list (str * value))
    (c : codepoint) (ds : str) (ctx : LambdaContext) (w : World) :
  dict_lookup (lit "body") d = Some (VStr (c :: ds)) ->
  dict_get (lit "isBase64Encoded") VNone d <> VBool true ->
  forallb is_digit (c :: ds) = true ->
  (c =? 48)%N = false ->
  4300 < List.length (c :: ds) ->
  lambda_handler isprint float_repr env (VDict d) ctx w =
  (Raise
     (Exn "ValueError"
        (lit "Exceeds the limit (4300 digits) for integer string conversion: value has "
           ++ repr_int (Z.of_nat (List.length (c :: ds)))
           ++ lit " digits; use sys.set_int_max_str_digits() to increase the limit")),
   w).
Proof.
  intros Hbody Hflag Hds H0 Hlen.
  unfold lambda_handler, bind, lift.
  rewrite (base64_skipped_unless_flag_is_True_aux float_repr d _ Hbody Hflag).
  unfold loads_or_empty.
  rewrite (json_loads_long_integer float_repr c ds Hds H0 Hlen). reflexivity.
Qed.

End Coverage.


(** *** The claims at concrete invocations *)

Import Samples.

(** C4 at the specification's example: the endpoint answers
    [b'{"generated_text": "x"}'] to [{"inputs": "hello"}]. *)
Lemma success_example :
  run (make_env answers accept_all) direct_hello =
  let item :=
    {| log_id := lit "1700000000123#req-1";
       log_request_id := lit "1700000000123#req-1";
       log_status := lit "ok";
       log_prompt := lit "hello";
       log_response :=
         encode false (VDict [(lit "generated_text", VStr (lit "x"))]);
       log_timestamp := 1700000000 |} in
  (Ok {| statusCode := 200;
         headers := [(lit "Content-Type", lit "application/json")];
         body :=
           encode true
             (VDict
                [(lit "result",
                  VDict [(lit "generated_text", VStr (lit "x"))])]) |},
   {| clock_reads := 2;
      invocations :=
        [invoke_args (make_env answers accept_all)
           (request_bytes (lit "hello"))];
      put_calls := [item];
      table := [item] |}).
Proof.
  unfold run.
  rewrite (success_logs_ok_and_returns_200 ascii_isprintable literal_as_repr
             (make_env answers accept_all) direct_hello context
             (lit "hello") generated);
    vm_compute; reflexivity.
Defined.

(** C5 as amended, at the specification's example: the call raises an
    exception whose text is ["boom"], and the table accepts the record. *)
Lemma remote_failure_example :
  run (make_env fails accept_all) direct_hello =
  let item :=
    {| log_id := lit "1700000000123#req-1";
       log_request_id := lit "1700000000123#req-1";
       log_status := lit "error";
       log_prompt := lit "hello";
       log_response :=
         encode false (VDict [(lit "invoke_error", VStr (lit "boom"))]);
       log_timestamp := 1700000000 |} in
  (Ok {| statusCode := 502;
         headers := [(lit "Content-Type", lit "application/json")];
         body := encode true (VDict [(lit "error", VStr (lit "boom"))]) |},
   {| clock_reads := 2;
      invocations :=
        [invoke_args (make_env fails accept_all)
           (request_bytes (lit "hello"))];
      put_calls := [item];
      table := [item] |}).
Proof.
  unfold run.
  rewrite (remote_failure_logs_error_and_returns_502 ascii_isprintable
             literal_as_repr (make_env fails accept_all) direct_hello context
             (lit "hello") boom);
    vm_compute; reflexivity.
Defined.

(** C5, the claim refuted: the call raises [boom], the write of the error
    record raises [throttled], and the handler returns no 502: the
    exception of the write leaves it, and no record is stored. *)
Lemma remote_failure_without_502 :
  remote_call (make_env fails refuse_all) (lit "hello") = Raise boom
  /\ fst (run (make_env fails refuse_all) direct_hello) = Raise throttled
  /\ List.map log_status
       (put_calls (snd (run (make_env fails refuse_all) direct_hello)))
     = [lit "error"]
  /\ table (snd (run (make_env fails refuse_all) direct_hello)) = [].
Proof.
  repeat split; vm_compute; reflexivity.
Qed.

(** C6 at [{"body": "not json"}]: the body does not parse, the parameters
    are empty, [inputs] defaults to the empty text. *)
Lemma invalid_inputs_example :
  run (make_env answers accept_all) not_json =
  (Ok {| statusCode := 400;
         headers := [(lit "Content-Type", lit "application/json")];
         body :=
           encode true
             (VDict
                [(lit "error",
                  VStr (lit "Empty or missing 'inputs' received by Lambda"));
                 (lit "raw_event_sample",
                  VStr (lit "{'body': 'not json'}"))]) |},
   initial).
Proof.
  unfold run.
  rewrite (invalid_inputs_get_400_and_no_effect ascii_isprintable
             literal_as_repr (make_env answers accept_all) not_json context
             initial (VDict []) (VStr [])).
  - vm_compute; reflexivity.
  - vm_compute; reflexivity.
  - vm_compute; reflexivity.
  - right. exists []. split; reflexivity.
Defined.

(** C7 at [{"inputs": "  hi  "}]: the request carries the two blanks on
    each side. *)
Lemma forwarded_request_example :
  List.map Body
    (invocations (snd (run (make_env answers accept_all) padded_inputs))) =
  [lit "{" ++ dquote :: lit "inputs" ++ dquote :: lit ": "
     ++ dquote :: lit "  hi  " ++ dquote :: lit ", "
     ++ dquote :: lit "parameters" ++ dquote :: lit ": {"
     ++ dquote :: lit "max_new_tokens" ++ dquote :: lit ": 128, "
     ++ dquote :: lit "temperature" ++ dquote :: lit ": 0.0, "
     ++ dquote :: lit "top_p" ++ dquote :: lit ": 0.9, "
     ++ dquote :: lit "do_sample" ++ dquote :: lit ": false, "
     ++ dquote :: lit "return_full_text" ++ dquote :: lit ": false}}"].
Proof.
  unfold run.
  rewrite (forwarded_request_has_text_and_fixed_parameters ascii_isprintable
             literal_as_repr (make_env answers accept_all) padded_inputs
             context (lit "  hi  "));
    vm_compute; reflexivity.
Defined.

(** C9 at a text of 5000 code points: the record holds 4000 of them, the
    request all 5000. *)
Lemma long_prompt_example :
  List.map (fun item => List.length (log_prompt item))
    (put_calls (snd (run (make_env answers accept_all) long_inputs)))
  = [4000]
  /\ List.map Body
       (invocations (snd (run (make_env answers accept_all) long_inputs)))
     = [encode true (payload long_text)]
  /\ List.length long_text = 5000.
Proof.
  assert (Hlen : 4000 < List.length long_text)
    by (apply Nat.ltb_lt; vm_compute; reflexivity).
  assert (Ht : extracted_text literal_as_repr long_inputs = Some long_text)
    by (vm_compute; reflexivity).
  destruct (long_prompt_is_cut_in_the_log_only ascii_isprintable
              literal_as_repr (make_env answers accept_all) long_inputs
              context long_text Ht Hlen) as (_ & _ & Hsent & _).
  split; [vm_compute; reflexivity|].
  split; [exact Hsent | vm_compute; reflexivity].
Defined.

(** C10 at the flags [1] and ["true"]: the base64 text is given to
    [json.loads] as it is, which refuses it, where the flag [True] yields
    [{"inputs": "hi"}]. *)
Lemma base64_flag_example :
  _parse_body literal_as_repr (proxied_base64_flag (VInt 1)) = Ok (VDict [])
  /\ _parse_body literal_as_repr (proxied_base64_flag (VStr (lit "true")))
     = Ok (VDict [])
  /\ _parse_body literal_as_repr (proxied_base64_flag (VBool true))
     = Ok (VDict [(lit "inputs", VStr (lit "hi"))]).
Proof.
  unfold proxied_base64_flag.
  split; [|split].
  - rewrite (base64_skipped_unless_flag_is_True literal_as_repr _
               (b64encode
                  (encode true (VDict [(lit "inputs", VStr (lit "hi"))])))).
    + vm_compute; reflexivity.
    + vm_compute; reflexivity.
    + vm_compute. discriminate.
  - vm_compute; reflexivity.
  - vm_compute; reflexivity.
Defined.

(** C1 at the failing input [{"body": "[1, 2]"}]: the handler raises. *)
Lemma list_body_raises :
  run (make_env answers accept_all) list_body =
  (Raise (Exn "AttributeError" (lit "'list' object has no attribute 'get'")),
   initial).
Proof.
  unfold run, list_body.
  rewrite (non_mapping_json_body_raises ascii_isprintable literal_as_repr
             (make_env answers accept_all) _ (lit "[1, 2]")
             (VList [VInt 1; VInt 2]) context initial).
  - reflexivity.
  - vm_compute; reflexivity.
  - vm_compute. discriminate.
  - vm_compute; reflexivity.
  - reflexivity.
Defined.

(** C4, the claim refuted: the endpoint answers bytes, the write of the
    success record raises, and the handler returns 502, with an ["error"]
    record as its last write. *)
Lemma remote_success_without_200 :
  remote_call (make_env answers refuse_first) (lit "hello") = Ok generated
  /\ match fst (run (make_env answers refuse_first) direct_hello) with
     | Ok resp => statusCode resp
     | Raise _ => 0%Z
     end = 502%Z
  /\ List.map log_status
       (table (snd (run (make_env answers refuse_first) direct_hello)))
     = [lit "error"].
Proof.
  repeat split; vm_compute; reflexivity.
Qed.

(** C2, the claim refuted: the endpoint answers, the first write raises
    [throttled], the second is accepted, and the handler returns a 502
    response made from the write's failure. *)
Lemma put_failure_on_success_path_becomes_502 :
  remote_call (make_env answers refuse_first) (lit "hello") = Ok generated
  /\ dynamo_put_item (make_env answers refuse_first) []
       (ok_item literal_as_repr (lit "hello")
          (lit "1700000000123#req-1") generated (clock 1))
     = Some throttled
  /\ fst (run (make_env answers refuse_first) direct_hello)
     = Ok {| statusCode := 502;
             headers := [(lit "Content-Type", lit "application/json")];
             body :=
               encode true
                 (VDict
                    [(lit "error",
                      VStr (lit "ProvisionedThroughputExceededException"))]) |}.
Proof.
  repeat split; vm_compute; reflexivity.
Qed.

(** C2 as amended, where every write is refused: the failure of the first
    write is caught, the failure of the second leaves the handler. *)
Lemma put_failure_in_except_escapes :
  List.map log_status
    (put_calls (snd (run (make_env answers refuse_all) direct_hello)))
  = [lit "ok"; lit "error"]
  /\ fst (run (make_env answers refuse_all) direct_hello) = Raise throttled.
Proof.
  assert (Ht : extracted_text literal_as_repr direct_hello = Some (lit "hello"))
    by (vm_compute; reflexivity).
  destruct (log_write_failure_escapes_from_except_only ascii_isprintable
              literal_as_repr (make_env answers refuse_all) direct_hello
              context (lit "hello") Ht) as [_ H].
  destruct (H generated throttled eq_refl eq_refl) as [Hcalls Hrun].
  split; [unfold run; rewrite Hcalls; reflexivity | exact Hrun].
Defined.

(** C3, the claim refuted: the invocation passes validation and two writes
    are issued. *)
Lemma two_writes_when_first_write_fails :
  extracted_text literal_as_repr direct_hello = Some (lit "hello")
  /\ List.map log_status
       (put_calls (snd (run (make_env answers refuse_first) direct_hello)))
     = [lit "ok"; lit "error"].
Proof.
  split; vm_compute; reflexivity.
Qed.

(** The round trip at a text with an accent, quotes and a character above
    U+FFFF: [hé "q" 😀] on the wire. *)
Lemma proxied_body_example :
  let t := lit "h" ++ [233%N] ++ lit " " ++ dquote :: lit "q"
             ++ dquote :: lit " " ++ [128512%N] in
  extracted_text literal_as_repr
    (VDict [(lit "body", VStr (encode true (VDict [(lit "inputs", VStr t)])))])
  = Some t.
Proof.
  cbn zeta.
  apply (proxied_body_recovers_text literal_as_repr); reflexivity.
Defined.

Lemma base64_body_example :
  let t := lit "h" ++ [233%N] ++ lit " " ++ dquote :: lit "q"
             ++ dquote :: lit " " ++ [128512%N] in
  extracted_text literal_as_repr
    (VDict
       [(lit "body",
         VStr (b64encode (encode true (VDict [(lit "inputs", VStr t)]))));
        (lit "isBase64Encoded", VBool true)])
  = Some t.
Proof.
  cbn zeta.
  apply (base64_body_recovers_text literal_as_repr); reflexivity.
Defined.

(** *** The further properties at concrete invocations *)

(** A text of a no-break space, an ideographic space and a tab is refused. *)
Lemma blank_unicode_text_example :
  extracted_text literal_as_repr
    (VDict [(lit "inputs", VStr [160%N; 12288%N; 9%N])])
  = None.
Proof.
  exact (text_accepted_iff_not_blank literal_as_repr
           (VDict [(lit "inputs", VStr [160%N; 12288%N; 9%N])])
           [(lit "inputs", VStr [160%N; 12288%N; 9%N])]
           [160%N; 12288%N; 9%N] eq_refl eq_refl).
Defined.


(** [{"body": None, "inputs": "hello"}] is read like [{"body": None}]. *)
Lemma body_shadows_inputs_example :
  _parse_body literal_as_repr
    (VDict (dict_set (lit "inputs") (VStr (lit "hello")) [(lit "body", VNone)]))
  = _parse_body literal_as_repr (VDict [(lit "body", VNone)])
  /\ extracted_text literal_as_repr
       (VDict
          (dict_set (lit "inputs") (VStr (lit "hello")) [(lit "body", VNone)]))
     = extracted_text literal_as_repr (VDict [(lit "body", VNone)]).
Proof.
  exact (body_shadows_top_level_inputs literal_as_repr
           [(lit "body", VNone)] (VStr (lit "hello")) eq_refl).
Defined.

(** [{"body": "[1, 2]"}], whose parsed body is a list. *)
Lemma list_body_example :
  exists d s raw,
    list_body = VDict d
    /\ dict_lookup (lit "body") d = Some (VStr s)
    /\ decode_body d (VStr s) = Some (VStr raw)
    /\ json_loads literal_as_repr raw = Ok (VList [VInt 1; VInt 2]).
Proof.
  exact (parsed_body_not_dict_only_from_text literal_as_repr list_body
           (VList [VInt 1; VInt 2]) eq_refl eq_refl).
Defined.

(** [{"body": "[[[...]]]"}], nested one level too deep. *)
Lemma deep_body_parse_example :
  exists d s raw,
    deep_body = VDict d
    /\ dict_lookup (lit "body") d = Some (VStr s)
    /\ decode_body d (VStr s) = Some (VStr raw)
    /\ json_loads literal_as_repr raw
       = Raise
           (RecursionError "while decoding a JSON array from a unicode string")
    /\ limit_error
         (RecursionError "while decoding a JSON array from a unicode string").
Proof.
  exact (parse_body_raises_past_a_limit_only literal_as_repr deep_body
           (RecursionError "while decoding a JSON array from a unicode string")
           eq_refl).
Defined.

(** A nested reply is read back from the text [safe_json] writes. *)
Lemma nested_reply_example :
  safe_json ascii_isprintable nested_reply = Ok (encode false nested_reply)
  /\ try_parse_json literal_as_repr (encode false nested_reply)
     = nested_reply.
Proof.
  exact (safe_json_parses_back ascii_isprintable literal_as_repr nested_reply
           eq_refl eq_refl).
Defined.

(** The texts written when the call raises [boom]. *)
Lemma failure_texts_example :
  try_parse_json literal_as_repr
    (log_response
       (error_item (lit "hello")
          (lit "1700000000123#req-1") boom (clock 1)))
  = VDict [(lit "invoke_error", VStr (lit "boom"))]
  /\ json_loads literal_as_repr (body (response_502 boom))
     = Ok (VDict [(lit "error", VStr (lit "boom"))]).
Proof.
  split.
  - exact (proj1 (failure_texts_parse_back literal_as_repr
                    (lit "hello") (lit "1700000000123#req-1") boom (clock 1))).
  - exact (proj2 (failure_texts_parse_back literal_as_repr
                    (lit "hello") (lit "1700000000123#req-1") boom (clock 1))
             eq_refl).
Defined.

(** A body written with [ensure_ascii=False] beside a flag that is a
    [str]. *)
Lemma accented_body_example :
  _parse_body literal_as_repr
    (VDict
       [(lit "body", VStr accented_text);
        (lit "isBase64Encoded", VStr (lit "true"))])
  = Ok (VDict accented_body).
Proof.
  apply (proxied_body_recovers_object literal_as_repr false);
    [reflexivity | reflexivity | reflexivity | discriminate].
Defined.

(** The same body as base64 of its UTF-8 bytes. *)
Lemma accented_base64_example :
  _parse_body literal_as_repr
    (VDict
       [(lit "body", VStr (b64encode accented_bytes));
        (lit "isBase64Encoded", VBool true)])
  = _parse_body literal_as_repr (VDict [(lit "body", VStr accented_text)]).
Proof.
  apply (base64_envelope_is_transparent literal_as_repr accented_text
           accented_bytes);
    [reflexivity | reflexivity | reflexivity | reflexivity | reflexivity
    | discriminate].
Defined.

(** The endpoint answers [b'{"generated_text": "x"}'] to
    [{"inputs": "hello"}]. *)
Lemma json_reply_example :
  let v := VDict [(lit "generated_text", VStr (lit "x"))] in
  let outcome := run (make_env answers accept_all) direct_hello in
  let item :=
    log_item (lit "1700000000123#req-1") (lit "ok") (lit "hello")
      (encode false v) (clock 1) in
  fst outcome
  = Ok {| statusCode := 200;
          headers := [(lit "Content-Type", lit "application/json")];
          body := encode true (VDict [(lit "result", v)]) |}
  /\ table (snd outcome) = [item]
  /\ try_parse_json literal_as_repr (log_response item) = v.
Proof.
  cbn zeta.
  apply (json_reply_passes_through ascii_isprintable literal_as_repr
           (make_env answers accept_all) direct_hello context (lit "hello")
           (VDict [(lit "generated_text", VStr (lit "x"))]));
    reflexivity.
Defined.

(** The body nested one level too deep: the handler raises, and the trace
    is untouched. *)
Lemma deep_body_example :
  run (make_env answers accept_all) deep_body =
  (Raise
     (Exn "RecursionError"
        (lit "maximum recursion depth exceeded while decoding a JSON array from a unicode string")),
   initial).
Proof.
  unfold run, deep_body.
  apply (deep_body_raises_recursion_error ascii_isprintable literal_as_repr
           (make_env answers accept_all)
           [(lit "body", VStr (repeat 91%N 65 ++ repeat 93%N 65))]
           65 (repeat 93%N 65) context initial);
    [reflexivity | discriminate | exact (le_n 65)].
Defined.

(** The body of 4301 digits. *)
Lemma long_integer_body_example :
  run (make_env answers accept_all) long_integer_body =
  (Raise
     (Exn "ValueError"
        (lit "Exceeds the limit (4300 digits) for integer string conversion: value has 4301 digits; use sys.set_int_max_str_digits() to increase the limit")),
   initial).
Proof.
  unfold run, long_integer_body.
  apply (long_integer_body_raises_value_error ascii_isprintable
           literal_as_repr (make_env answers accept_all)
           [(lit "body", VStr (repeat 49%N 4301))]
           49%N (repeat 49%N 4300) context initial);
    [reflexivity | discriminate | vm_compute; reflexivity | reflexivity
    | apply Nat.ltb_lt; vm_compute; reflexivity].
Defined.
